(* ===== verification/_CoqProject ===== *)
-Q . S2P
Prelude.v
Os.v
Demo.v
Redirection.v
Spawn.v
Pipeline.v
Builtin.v
Shell.v
Ipc.v
IpcMain.v
IpcFgets.v
