(* ===== verification/Prelude.v ===== *)
(** * A verification development of the NCKU-OS labs: the lab2 shell and
      the lab1 IPC demo

    The program.  [src/lab2/src/shell.c] is the execution core of a small
    Unix shell.  Each input line is parsed (outside src/) into a chain of
    [struct cmd_node]s; [shell] (lines 152-207) routes the chain:
    - one node: [searchBuiltInCommand] decides whether it is a built-in; a
      built-in runs inside the shell process, between [dup] of the shell's
      stdin/stdout, [redirection] and a [dup2] restore (lines 167-181); any
      other command goes to [spawn_proc] (lines 55-77), which forks,
      applies [redirection] (lines 22-41) in the child, [execvp]s, and
      waits for the child in the parent;
    - several nodes: [fork_cmd_node] (lines 90-147) creates one pipe per
      adjacent pair, forks one child per node (the child rewires
      stdin/stdout to the pipes and calls [spawn_proc], so each stage is a
      grandchild of the shell), closes the parent's copies of the pipe
      ends and waits for each child before forking the next;
    - a status of 0 stops the loop.
    [src/sender.c] and [src/lab1/receiver.c] are a separate demo: two
    processes pass the lines of a file through a POSIX message queue or a
    System V shared-memory segment, alternating on two named semaphores.

    The files, in dependency order.
    - [Prelude] (this file): the state/exit monad [st] (a computation
      returns, exits with a status, or blocks for ever: [Ok], [Died],
      [Hang]) with its laws, the [sys] hint and rewrite databases, the
      tactics [run] and [st_simpl], string lemmas, and [star], the
      reflexive-transitive closure of a step relation.
    - [Os] (Module [Os]): the kernel interface the shell calls, as an
      environment model (it is libc and kernel, not code of this
      repository).  A process is its descriptor table ([gmap Z obj]) and
      [errno]; the world holds the running process, the processes blocked
      in [wait], the files, the pipe buffers, the terminal and a
      configuration ([fd_max] = RLIMIT_NOFILE, [proc_max], the pipe
      capacity, the read-only paths, the search path).  [open], [close],
      [dup], [dup2], [pipe], [read], [write], [perror], [execvp] and
      [fork]+[wait] ([fork_wait]) have their POSIX results: lowest free
      descriptor, EMFILE, EBADF, ENOENT, EACCES, EAGAIN, SIGPIPE, blocking
      on a full pipe or on a read with a live writer.
    - [Demo]: three programs ([echo], [cat], [tr]) and a fresh shell's
      world, on which every witness is evaluated.
    - [Redirection] (Module [Redirection]): [cmd_node], [redirect_in],
      [redirect_out], [redirection], and the abstract [redir_table].
    - [Spawn] (Module [Spawn]): [spawn_child] and [spawn_proc].
    - [Pipeline] (Module [Pipeline]): [stage_child], [fork_loop] (the
      while loop, with the C locals [in_fd] and [pipefd] as arguments) and
      [fork_cmd_node]; [pipeline_output] is the specification of a
      pipeline and [loop_inv] the loop invariant.
    - [Builtin] (Module [Builtin]): the registry of include/builtin.h as
      the class [BuiltinRegistry], whose contract (a builtin with a
      non-pipe stdout returns and leaves the descriptor table alone) the
      dispatcher's theorems assume; [demo_registry] is an instance
      ([help], [exit]).  [builtin_dispatch] and [restore_streams] are
      lines 169-181.
    - [Shell] (Module [Shell]): [dispatch] (lines 164-192), [shell_iter]
      (one iteration) and [shell] over a finite script of parsed lines;
      [shell_step] is the spec's machine {Prompt, Dispatch, Cleanup,
      Terminated}.
    - [Ipc] (Module [Ipc]): [send], [receive], the two loops as
      [sender_step] and [receiver_step] over a joint state (both program
      counters, both semaphore counts, the mailbox, the receiver's buffer,
      what each process printed), [fgets] as [take_line] and the loop
      condition of sender.c line 56 as [fgets_all]/[file_messages].
    - [IpcMain] (Module [IpcMain]): the two [main]s around the loops.  The
      kernel's IPC name spaces are an environment model ([kernel]: System
      V keys and segments with the SHMMNI limit, message-queue names with
      [queues_max], named semaphores with their counts), with [shmget],
      [shmctl], [mq_open], [mq_unlink], [sem_open] (O_CREAT without
      O_EXCL: an existing name keeps its count), [sem_unlink], and glibc's
      [atoi] (saturating [strtol], then the cast to int).  [mailbox_t]'s
      union is one 64-bit word written by [set_mqd] (low four bytes) and
      [set_shm_addr] (all eight).  [main_setup] is lines 18-45 of either
      program ([open_mailbox] lines 23-45, with the [return 1]s as
      [inl 1]); [sender_setup] adds [fopen] (lines 47-53);
      [sender_teardown] and [receiver_teardown] are the clean-ups.  A
      session ([session_start], [protocol_start], [session_end]) runs the
      sender's set-up, the receiver's, the two loops of [Ipc] from the
      kernel's semaphore counts, then both tear-downs.
    - [IpcFgets] (Module [IpcFgets]): the contract of [fgets] as a
      relation [fgets_split] between a file and the chunks successive
      calls may return.

    Fork and wait.  Wherever the shell forks, the parent's next action is
    to wait for that child; the model runs the child to completion at the
    fork ([Os.fork_wait]) with the parent on the stack of blocked
    processes, then resumes the parent with the child's status.  While a
    child runs every other process is blocked, so a read from a pipe that
    still has a writer, or a write to a full pipe that still has a reader,
    never completes: the model returns [Hang].  The pipe capacity is a
    parameter (64 KiB on Linux): the theorems hold for every value, the
    witnesses use 16 bytes.

    What the theorems show.
    - Pipeline: [fork_cmd_node] computes [cmd1 | ... | cmdN] (the output
      of each stage fed to the next) and restores the shell's descriptors
      when every intermediate output fits in a pipe; it blocks for ever
      when one does not (the wait-per-stage design); a failed [pipe] or
      [fork] exits the whole shell.
    - Shell: the loop refines the spec's state machine (an iff between a
      run of [shell] and a path of [shell_step]); only a builtin can end
      it; a termination builtin ends it at once; NULL lines never end it;
      a session of external commands leaks no descriptor; composed with
      the pipeline executor and the dispatcher, a pipeline line prints its
      output, returns status 1 with the table intact, and a following
      termination builtin ends the loop.
    - Builtin: the redirections hold for the builtin's run and the
      descriptor table is restored afterwards; a missing input file kills
      the shell.
    - Redirection and Spawn: [redirection] refines [redir_table]; the
      [> f] / [cat < f] round trip; [spawn_proc] never exits the shell and
      leaves its descriptors unchanged; its behaviour with the terminal,
      with files, on an unknown command and when fork fails; a closed
      stdin defeats input redirection.
    - Ipc: semaphore conservation (mutual exclusion on the mailbox),
      termination of every interleaving, delivery of every chunk in order,
      the receiver's printout a faithful prefix at every moment, the
      sender's printout once it is done, the C buffers never overrun
      (every queued message carries at most 100 bytes, the size of the
      [message.text] that [mq_receive] fills, with its string's NUL among
      them; every string in the segment and in [message.text] is shorter
      than 100; for any flag), the deadlock on a chunk equal to "EXIT",
      [fgets] chunking as a round trip, and the reading loop as the unique
      cutting of the file that the contract of [fgets] allows.
    - IpcMain: a whole session on a clean kernel delivers the file and
      leaves no semaphore name; semaphores left by a run killed inside a
      critical section block every later session; an unknown flag makes
      the receiver wait for ever; a failed [fopen] leaves the semaphores
      and the queue; the two clean-up leaks (the union aliasing of the
      shm id and the /mymq vs /my_mq names) hold of whole sessions.
    Statements with hypotheses have a witness evaluated on [Demo]'s world
    or on a concrete file and kernel.

    Bounds and fuel.  [fork_loop] and [shell] recurse on their list
    arguments; [fgets_all] uses the file's length as fuel, enough since
    every chunk is non-empty (proved).  The IPC step relation has no fuel: termination is [Acc]
    from a measure that every step decreases.  [atoi] is exact on Z up to
    the [long] saturation and the 32-bit cast.

    Not modelled.  [read_line] and [split_line] (not in src/: the loop
    takes their results as input); the builtin implementations (only their
    contract); stdio buffering of [printf] (the prompt is written at once);
    signals other than SIGPIPE and SIGSEGV; file offsets (a write appends,
    a file is opened once per command); [free] of the node chain; in the
    IPC demo the timing ([clock_gettime] and the lines printing the
    total), [perror]'s message on stderr, failures of [sem_open], [shmat]
    and [ftok] (the code checks none of them), a sender and a receiver
    started with different flags (a session has one [argv[1]]), and the
    mailbox contents a previous run left in a surviving queue or segment
    (a session starts with an empty mailbox).

    Left for later work: the descriptor table over arbitrary sessions
    that mix builtins and pipelines (proved here for NULL lines and single
    external commands, and for a pipeline followed by a builtin), pipelines whose stages have their own redirections, and
    the tear-downs of the two processes in the other order. *)

From stdpp Require Import base gmap strings list.
From Stdlib Require Import ZArith Lia FunctionalExtensionality.

(** ** The state/exit monad *)

(** A computation on state [S] either returns a value with the new state,
    exits (the C [exit] or death by a signal) with a status, or blocks
    forever. *)
Inductive outcome (S A : Type) : Type :=
| Ok (a : A) (s : S)
| Died (code : Z) (s : S)
| Hang.
Arguments Ok {S A} a s.
Arguments Died {S A} code s.
Arguments Hang {S A}.

Definition st (S A : Type) : Type := S → outcome S A.

Definition st_ret {S A} (a : A) : st S A := λ s, Ok a s.

Definition st_bind {S A B} (m : st S A) (k : A → st S B) : st S B :=
  λ s, match m s with
       | Ok a s' => k a s'
       | Died c s' => Died c s'
       | Hang => Hang
       end.

#[export] Instance st_mret S : MRet (st S) := λ A a, st_ret a.
#[export] Instance st_mbind S : MBind (st S) := λ A B k m, st_bind m k.

(** [exit(code)]: the process stops here with [code]. *)
Definition st_exit {S A} (code : Z) : st S A := λ s, Died code s.

Declare Scope sys_scope.
Delimit Scope sys_scope with sys.
Notation "'exit_' c" := (st_exit c) (at level 10) : sys_scope.

(** ** Laws *)

Section laws.
Context {S : Type}.

Lemma st_bind_ret_l {A B} (a : A) (k : A → st S B) :
  (x ← mret a; k x) = k a.
Proof. reflexivity. Qed.

Lemma st_bind_ret_r {A} (m : st S A) : (x ← m; mret x) = m.
Proof.
  unfold mbind, st_mbind, st_bind, mret, st_mret, st_ret.
  apply functional_extensionality.
  intros s. by destruct (m s).
Qed.

Lemma st_bind_assoc {A B C} (m : st S A) (k : A → st S B) (h : B → st S C) :
  (y ← (x ← m; k x); h y) = (x ← m; y ← k x; h y).
Proof.
  unfold mbind, st_mbind, st_bind.
  apply functional_extensionality.
  intros s. by destruct (m s).
Qed.

(** Running a bind whose first computation is known. *)
Lemma bind_Ok {A B} (m : st S A) (k : A → st S B) s a s' :
  m s = Ok a s' → (x ← m; k x) s = k a s'.
Proof. intros H. unfold mbind, st_mbind, st_bind. by rewrite H. Qed.

Lemma bind_Died {A B} (m : st S A) (k : A → st S B) s c s' :
  m s = Died c s' → (x ← m; k x) s = Died c s'.
Proof. intros H. unfold mbind, st_mbind, st_bind. by rewrite H. Qed.

Lemma bind_Hang {A B} (m : st S A) (k : A → st S B) s :
  m s = Hang → (x ← m; k x) s = Hang.
Proof. intros H. unfold mbind, st_mbind, st_bind. by rewrite H. Qed.

Lemma ret_run {A} (a : A) (s : S) : mret (M := st S) a s = Ok a s.
Proof. reflexivity. Qed.

Lemma exit_run {A} c (s : S) : st_exit (A := A) c s = Died c s.
Proof. reflexivity. Qed.

(** A computation that never returns normally. *)
Definition never_returns {A} (m : st S A) : Prop :=
  ∀ s a s', m s ≠ Ok a s'.

Lemma never_returns_bind {A B} (m : st S A) (k : A → st S B) :
  (∀ a, never_returns (k a)) → never_returns (x ← m; k x).
Proof.
  intros Hk s b s'. unfold mbind, st_mbind, st_bind.
  destruct (m s); [apply Hk | done | done].
Qed.
End laws.

Create HintDb sys discriminated.
Create Rewrite HintDb sys_rw.
#[export] Hint Rewrite @st_bind_ret_l @st_bind_assoc @ret_run @exit_run : sys_rw.
#[export] Hint Resolve never_returns_bind : sys.

(** [run H] rewrites the first step of a bind with the equation [H]
    ([m s = Ok a s'], [= Died ..] or [= Hang]). *)
Ltac run H :=
  first [ rewrite (bind_Ok _ _ _ _ _ H)
        | rewrite (bind_Died _ _ _ _ _ H)
        | rewrite (bind_Hang _ _ _ H) ].

(** [st_simpl] unfolds the monad's plumbing so that a concrete run
    reduces. *)
Ltac st_simpl :=
  cbn [mbind st_mbind st_bind mret st_mret st_ret st_exit] in *.

(** ** Generic lemmas *)

(** String append is the list append of the characters. *)
Lemma string_app_length (s1 s2 : string) :
  String.length (s1 +:+ s2) = String.length s1 + String.length s2.
Proof.
  induction s1 as [|c s1 IH]; [done|].
  change (S (String.length (s1 +:+ s2)) = S (String.length s1 + String.length s2)).
  by rewrite IH.
Qed.

Lemma string_app_assoc (s1 s2 s3 : string) :
  s1 +:+ (s2 +:+ s3) = (s1 +:+ s2) +:+ s3.
Proof.
  induction s1 as [|c s1 IH]; [done|].
  change (String c (s1 +:+ (s2 +:+ s3)) = String c ((s1 +:+ s2) +:+ s3)).
  by rewrite IH.
Qed.

Lemma string_app_empty_r (s : string) : s +:+ EmptyString = s.
Proof.
  induction s as [|c s IH]; [done|].
  change (String c (s +:+ EmptyString) = String c s). by rewrite IH.
Qed.

#[export] Hint Rewrite string_app_empty_r : sys_rw.

(** ** Sequences of steps

    The reflexive-transitive closure of a step relation, for the shell's
    state machine. *)
Section star.
Context {A : Type} (R : A → A → Prop).

Inductive star : A → A → Prop :=
| star_refl a : star a a
| star_step a b c : R a b → star b c → star a c.

Lemma star_one a b : R a b → star a b.
Proof. intros H. eapply star_step; [exact H | constructor]. Qed.

Lemma star_trans a b c : star a b → star b c → star a c.
Proof. induction 1; [done|]. intros. eapply star_step; eauto. Qed.

End star.

#[export] Hint Constructors star : sys.
#[export] Hint Resolve star_one star_trans : sys.
