(* ===== verification/Os.v ===== *)
(** * The kernel interface the shell runs on

    Processes, descriptor tables, files, pipes and the terminal, with the
    POSIX system calls that shell.c makes: [open], [close], [dup], [dup2],
    [pipe], [read], [write], [execvp], [fork] fused with the parent's
    [wait] (see the header of [Prelude]), [exit] and [perror].  This is the
    environment of the program, not code of the repository: the definitions
    follow POSIX (lowest free descriptor, EMFILE at [fd_max], EBADF, a pipe
    reader sees end of file only once no process holds a write end, a
    writer with no reader dies by SIGPIPE, a writer that fills a pipe whose
    reader is blocked blocks forever). *)

From S2P Require Import Prelude.
From stdpp Require Import base gmap strings list.
From Stdlib Require Import ZArith Lia.

Module Os.

(** ** Open files *)

(** What a descriptor refers to: the terminal, a file opened for reading
    or for writing, or an end of a pipe (pipes are numbered). *)
Inductive obj :=
| TermIn
| TermOut
| TermErr
| FileRd (path : string)
| FileWr (path : string)
| PipeRd (id : nat)
| PipeWr (id : nat).

#[export] Instance obj_eq_dec : EqDecision obj.
Proof. solve_decision. Defined.

Inductive errno := ENONE | ENOENT | EACCES | EMFILE | EBADF | EAGAIN | EFAULT.

#[export] Instance errno_eq_dec : EqDecision errno.
Proof. solve_decision. Defined.

Definition strerror (e : errno) : string :=
  match e with
  | ENONE => "Success"
  | ENOENT => "No such file or directory"
  | EACCES => "Permission denied"
  | EMFILE => "Too many open files"
  | EBADF => "Bad file descriptor"
  | EAGAIN => "Resource temporarily unavailable"
  | EFAULT => "Bad address"
  end.

Definition nl : string := String (Ascii.ascii_of_nat 10) EmptyString.

(** An external program: whether it reads its standard input (to end of
    file), and its output and exit status as a function of its argument
    vector and its input. *)
Record program := mkProgram {
  prog_reads : bool;
  prog_run : list string → string → string * Z
}.

(** The fixed parameters of a run: RLIMIT_NOFILE, the process limit, the
    pipe capacity, the files that cannot be opened for writing, and the
    [PATH] lookup of [execvp]. *)
Record config := mkConfig {
  fd_max : Z;
  proc_max : nat;
  pipe_cap : nat;
  readonly : list string;
  path_lookup : string → option program
}.

Record proc := mkProc {
  p_fds : gmap Z obj;
  p_errno : errno
}.

Record world := mkWorld {
  w_cur : proc;            (** the running process *)
  w_blocked : list proc;   (** its ancestors, blocked in [wait] *)
  w_files : gmap string string;
  w_pipes : gmap nat string;  (** unread contents of each pipe *)
  w_next_pipe : nat;
  w_in : string;           (** terminal input not yet read *)
  w_out : string;          (** what the terminal displays on stdout *)
  w_err : string;          (** ... and on stderr *)
  w_cfg : config
}.

Abbreviation M := (st world).

(** <unistd.h> and <stdlib.h> constants. *)
Definition STDIN_FILENO : Z := 0.
Definition STDOUT_FILENO : Z := 1.
Definition STDERR_FILENO : Z := 2.
Definition EXIT_FAILURE : Z := 1.

(** ** Field updates *)

Definition with_cur (f : proc → proc) (w : world) : world :=
  mkWorld (f (w_cur w)) (w_blocked w) (w_files w) (w_pipes w) (w_next_pipe w)
          (w_in w) (w_out w) (w_err w) (w_cfg w).
Definition with_blocked (b : list proc) (w : world) : world :=
  mkWorld (w_cur w) b (w_files w) (w_pipes w) (w_next_pipe w)
          (w_in w) (w_out w) (w_err w) (w_cfg w).
Definition with_files (f : gmap string string → gmap string string) (w : world) :=
  mkWorld (w_cur w) (w_blocked w) (f (w_files w)) (w_pipes w) (w_next_pipe w)
          (w_in w) (w_out w) (w_err w) (w_cfg w).
Definition with_pipes (f : gmap nat string → gmap nat string) (w : world) :=
  mkWorld (w_cur w) (w_blocked w) (w_files w) (f (w_pipes w)) (w_next_pipe w)
          (w_in w) (w_out w) (w_err w) (w_cfg w).
Definition with_next_pipe (n : nat) (w : world) :=
  mkWorld (w_cur w) (w_blocked w) (w_files w) (w_pipes w) n
          (w_in w) (w_out w) (w_err w) (w_cfg w).
Definition with_in (s : string) (w : world) :=
  mkWorld (w_cur w) (w_blocked w) (w_files w) (w_pipes w) (w_next_pipe w)
          s (w_out w) (w_err w) (w_cfg w).
Definition with_out (s : string) (w : world) :=
  mkWorld (w_cur w) (w_blocked w) (w_files w) (w_pipes w) (w_next_pipe w)
          (w_in w) s (w_err w) (w_cfg w).
Definition with_err (s : string) (w : world) :=
  mkWorld (w_cur w) (w_blocked w) (w_files w) (w_pipes w) (w_next_pipe w)
          (w_in w) (w_out w) s (w_cfg w).

Definition fds (w : world) : gmap Z obj := p_fds (w_cur w).
Definition errno_of (w : world) : errno := p_errno (w_cur w).
Definition with_fds (f : gmap Z obj → gmap Z obj) (w : world) : world :=
  with_cur (λ p, mkProc (f (p_fds p)) (p_errno p)) w.
Definition with_errno (e : errno) (w : world) : world :=
  with_cur (λ p, mkProc (p_fds p) e) w.

(** ** Descriptor allocation: the lowest free descriptor below [fd_max] *)

Fixpoint first_free (t : gmap Z obj) (k : Z) (fuel : nat) : option Z :=
  match fuel with
  | O => None
  | S f => match t !! k with
           | None => Some k
           | Some _ => first_free t (k + 1) f
           end
  end.

Definition alloc_fd (c : config) (t : gmap Z obj) : option Z :=
  first_free t 0 (Z.to_nat (fd_max c)).

(** ** System calls *)

(** [open(path, O_RDONLY)] *)
Definition sys_open_rd (path : string) : M Z := λ w,
  match alloc_fd (w_cfg w) (fds w) with
  | None => Ok (-1)%Z (with_errno EMFILE w)
  | Some fd =>
      match w_files w !! path with
      | None => Ok (-1)%Z (with_errno ENOENT w)
      | Some _ => Ok fd (with_fds <[fd := FileRd path]> w)
      end
  end.

(** [open(path, O_WRONLY | O_CREAT | O_TRUNC, 0644)] *)
Definition sys_open_wr_trunc (path : string) : M Z := λ w,
  match alloc_fd (w_cfg w) (fds w) with
  | None => Ok (-1)%Z (with_errno EMFILE w)
  | Some fd =>
      if bool_decide (path ∈ readonly (w_cfg w))
      then Ok (-1)%Z (with_errno EACCES w)
      else Ok fd (with_fds <[fd := FileWr path]>
                    (with_files <[path := EmptyString]> w))
  end.

Definition sys_close (fd : Z) : M Z := λ w,
  match fds w !! fd with
  | None => Ok (-1)%Z (with_errno EBADF w)
  | Some _ => Ok 0%Z (with_fds (delete fd) w)
  end.

Definition sys_dup (fd : Z) : M Z := λ w,
  match fds w !! fd with
  | None => Ok (-1)%Z (with_errno EBADF w)
  | Some o =>
      match alloc_fd (w_cfg w) (fds w) with
      | None => Ok (-1)%Z (with_errno EMFILE w)
      | Some n => Ok n (with_fds <[n := o]> w)
      end
  end.

Definition sys_dup2 (old new : Z) : M Z := λ w,
  match fds w !! old with
  | None => Ok (-1)%Z (with_errno EBADF w)
  | Some o =>
      if bool_decide (new < 0 ∨ fd_max (w_cfg w) ≤ new)%Z
      then Ok (-1)%Z (with_errno EBADF w)
      else if bool_decide (old = new) then Ok new w
      else Ok new (with_fds <[new := o]> w)
  end.

(** [pipe(pipefd)]: [Some (pipefd[0], pipefd[1])], or [None] for -1. *)
Definition sys_pipe : M (option (Z * Z)) := λ w,
  let id := w_next_pipe w in
  match alloc_fd (w_cfg w) (fds w) with
  | None => Ok None (with_errno EMFILE w)
  | Some r =>
      match alloc_fd (w_cfg w) (<[r := PipeRd id]> (fds w)) with
      | None => Ok None (with_errno EMFILE w)
      | Some wr =>
          Ok (Some (r, wr))
             (with_fds (λ t, <[wr := PipeWr id]> (<[r := PipeRd id]> t))
                (with_pipes <[id := EmptyString]> (with_next_pipe (S id) w)))
      end
  end.

(** Whether a descriptor table holds an open file. *)
Definition holds (o : obj) (t : gmap Z obj) : bool :=
  bool_decide (o ∈ (map_to_list t).*2).

(** Whether a live process (the running one or a blocked ancestor) holds
    an open file. *)
Definition live_holds (o : obj) (w : world) : bool :=
  existsb (λ p, holds o (p_fds p)) (w_cur w :: w_blocked w).

(** Read a descriptor to end of file.  A pipe with a live writer blocks
    forever (every writer is blocked in [wait] or is the reader itself). *)
Definition sys_read_all (fd : Z) : M string := λ w,
  match fds w !! fd with
  | Some TermIn => Ok (w_in w) (with_in EmptyString w)
  | Some (FileRd p) => Ok (default EmptyString (w_files w !! p)) w
  | Some (PipeRd id) =>
      if live_holds (PipeWr id) w then Hang
      else Ok (default EmptyString (w_pipes w !! id))
              (with_pipes <[id := EmptyString]> w)
  | _ => Ok EmptyString (with_errno EBADF w)
  end.

(** Write a whole string to a descriptor. *)
Definition sys_write_all (fd : Z) (s : string) : M Z := λ w,
  let len := Z.of_nat (String.length s) in
  if bool_decide (s = EmptyString) then Ok 0%Z w else
  match fds w !! fd with
  | Some TermOut => Ok len (with_out (w_out w +:+ s) w)
  | Some TermErr => Ok len (with_err (w_err w +:+ s) w)
  | Some (FileWr p) =>
      Ok len (with_files <[p := default EmptyString (w_files w !! p) +:+ s]> w)
  | Some (PipeWr id) =>
      if negb (live_holds (PipeRd id) w) then Died 141 w   (* SIGPIPE *)
      else
        let buf := default EmptyString (w_pipes w !! id) in
        if bool_decide (String.length buf + String.length s ≤ pipe_cap (w_cfg w))
        then Ok len (with_pipes <[id := buf +:+ s]> w)
        else Hang
  | _ => Ok (-1)%Z (with_errno EBADF w)
  end.

(** [perror(s)]: "s: <strerror(errno)>\n" on descriptor 2. *)
Definition perror (s : string) : M unit := λ w,
  st_bind (sys_write_all 2 (s +:+ ": " +:+ strerror (errno_of w) +:+ nl))
          (λ _, mret tt) w.

(** [pid = fork(); if (pid == 0) child; else wait]: the child runs on a
    copy of the parent's process (descriptor table and errno) with the
    parent blocked; the parent resumes with its own process and the
    child's exit status.  With [proc_max] processes alive, fork fails with
    EAGAIN and returns [None] (pid < 0). *)
Definition fork_wait (child : M Empty_set) : M (option Z) := λ w,
  if bool_decide (S (length (w_blocked w)) < proc_max (w_cfg w)) then
    match child (with_blocked (w_cur w :: w_blocked w) w) with
    | Ok e _ => match e with end
    | Died code w' =>
        Ok (Some code) (with_blocked (w_blocked w) (with_cur (λ _, w_cur w) w'))
    | Hang => Hang
    end
  else Ok None (with_errno EAGAIN w).

(** The image of an external program: read stdin if it does, write its
    output to stdout, exit with its status. *)
Definition run_program (pr : program) (args : list string) : M Empty_set :=
  input ← (if prog_reads pr then sys_read_all 0 else mret EmptyString);
  let '(out, code) := prog_run pr args input in
  sys_write_all 1 out;;
  st_exit code.

(** [execvp(args[0], args)]: returns (with errno set) only on failure. *)
Definition sys_execvp (args : list string) : M unit := λ w,
  match args with
  | [] => Ok tt (with_errno EFAULT w)
  | a0 :: _ =>
      match path_lookup (w_cfg w) a0 with
      | None => Ok tt (with_errno ENOENT w)
      | Some pr =>
          match run_program pr args w with
          | Ok e _ => match e with end
          | Died c w' => Died c w'
          | Hang => Hang
          end
      end
  end.

(** ** Field-update lemmas *)

Lemma with_fds_compose f g w : with_fds f (with_fds g w) = with_fds (f ∘ g) w.
Proof. reflexivity. Qed.

Lemma with_fds_ext f g w : f (fds w) = g (fds w) → with_fds f w = with_fds g w.
Proof. unfold with_fds, with_cur, fds. simpl. intros ->. reflexivity. Qed.

Lemma with_fds_id w : with_fds (λ t, t) w = w.
Proof. by destruct w as [[]]. Qed.

Lemma fds_with_fds f w : fds (with_fds f w) = f (fds w).
Proof. reflexivity. Qed.

(** ** System call specifications *)

Section syscalls.
Context (w : world).

Lemma sys_open_rd_ok f j c :
  alloc_fd (w_cfg w) (fds w) = Some j → w_files w !! f = Some c →
  sys_open_rd f w = Ok j (with_fds <[j := FileRd f]> w).
Proof. intros Ha Hf. unfold sys_open_rd. by rewrite Ha, Hf. Qed.

Lemma sys_open_rd_enoent f j :
  alloc_fd (w_cfg w) (fds w) = Some j → w_files w !! f = None →
  sys_open_rd f w = Ok (-1)%Z (with_errno ENOENT w).
Proof. intros Ha Hf. unfold sys_open_rd. by rewrite Ha, Hf. Qed.

Lemma sys_open_wr_ok f j :
  alloc_fd (w_cfg w) (fds w) = Some j → f ∉ readonly (w_cfg w) →
  sys_open_wr_trunc f w =
    Ok j (with_fds <[j := FileWr f]> (with_files <[f := EmptyString]> w)).
Proof.
  intros Ha Hf. unfold sys_open_wr_trunc. rewrite Ha.
  by rewrite bool_decide_eq_false_2.
Qed.

Lemma sys_open_wr_eacces f j :
  alloc_fd (w_cfg w) (fds w) = Some j → f ∈ readonly (w_cfg w) →
  sys_open_wr_trunc f w = Ok (-1)%Z (with_errno EACCES w).
Proof.
  intros Ha Hf. unfold sys_open_wr_trunc. rewrite Ha.
  by rewrite bool_decide_eq_true_2.
Qed.

Lemma sys_close_ok fd o :
  fds w !! fd = Some o → sys_close fd w = Ok 0%Z (with_fds (delete fd) w).
Proof. intros H. unfold sys_close. by rewrite H. Qed.

Lemma sys_close_ebadf fd :
  fds w !! fd = None → sys_close fd w = Ok (-1)%Z (with_errno EBADF w).
Proof. intros H. unfold sys_close. by rewrite H. Qed.

Lemma sys_dup_ok fd o n :
  fds w !! fd = Some o → alloc_fd (w_cfg w) (fds w) = Some n →
  sys_dup fd w = Ok n (with_fds <[n := o]> w).
Proof. intros H Ha. unfold sys_dup. by rewrite H, Ha. Qed.

Lemma sys_dup2_ok old new o :
  fds w !! old = Some o → (0 ≤ new < fd_max (w_cfg w))%Z → old ≠ new →
  sys_dup2 old new w = Ok new (with_fds <[new := o]> w).
Proof.
  intros H Hr Hne. unfold sys_dup2. rewrite H.
  rewrite bool_decide_eq_false_2 by lia. by rewrite bool_decide_eq_false_2.
Qed.

Lemma sys_dup2_same fd o :
  fds w !! fd = Some o → (0 ≤ fd < fd_max (w_cfg w))%Z →
  sys_dup2 fd fd w = Ok fd w.
Proof.
  intros H Hr. unfold sys_dup2. rewrite H.
  rewrite bool_decide_eq_false_2 by lia. by rewrite bool_decide_eq_true_2.
Qed.

Lemma sys_dup2_ebadf old new :
  fds w !! old = None → sys_dup2 old new w = Ok (-1)%Z (with_errno EBADF w).
Proof. intros H. unfold sys_dup2. by rewrite H. Qed.

Lemma sys_write_term_out fd s :
  fds w !! fd = Some TermOut →
  ∃ n, sys_write_all fd s w = Ok n (with_out (w_out w +:+ s) w).
Proof.
  intros H. unfold sys_write_all. case_bool_decide as Hs.
  - subst s. exists 0%Z. by destruct w; cbn; rewrite string_app_empty_r.
  - rewrite H. by eexists.
Qed.

Lemma sys_write_term_err fd s :
  fds w !! fd = Some TermErr →
  ∃ n, sys_write_all fd s w = Ok n (with_err (w_err w +:+ s) w).
Proof.
  intros H. unfold sys_write_all. case_bool_decide as Hs.
  - subst s. exists 0%Z. by destruct w; cbn; rewrite string_app_empty_r.
  - rewrite H. by eexists.
Qed.

(** [perror] on a shell whose stderr is the terminal. *)
Lemma perror_ok s :
  fds w !! STDERR_FILENO = Some TermErr →
  perror s w = Ok tt (with_err (w_err w +:+ (s +:+ ": " +:+ strerror (errno_of w) +:+ nl)) w).
Proof.
  intros H. unfold perror.
  destruct (sys_write_term_err 2 (s +:+ ": " +:+ strerror (errno_of w) +:+ nl) H)
    as [n Hn].
  unfold st_bind. by rewrite Hn.
Qed.
Lemma sys_pipe_ok r wr :
  alloc_fd (w_cfg w) (fds w) = Some r →
  alloc_fd (w_cfg w) (<[r := PipeRd (w_next_pipe w)]> (fds w)) = Some wr →
  sys_pipe w
  = Ok (Some (r, wr))
       (with_fds (λ t, <[wr := PipeWr (w_next_pipe w)]> (<[r := PipeRd (w_next_pipe w)]> t))
          (with_pipes <[w_next_pipe w := EmptyString]> (with_next_pipe (S (w_next_pipe w)) w))).
Proof. intros Hr Hw. unfold sys_pipe. by rewrite Hr, Hw. Qed.

Lemma sys_pipe_emfile :
  alloc_fd (w_cfg w) (fds w) = None → sys_pipe w = Ok None (with_errno EMFILE w).
Proof. intros Hr. unfold sys_pipe. by rewrite Hr. Qed.

Lemma sys_read_term fd :
  fds w !! fd = Some TermIn → sys_read_all fd w = Ok (w_in w) (with_in EmptyString w).
Proof. intros H. unfold sys_read_all. by rewrite H. Qed.

Lemma sys_read_file fd f c :
  fds w !! fd = Some (FileRd f) → w_files w !! f = Some c →
  sys_read_all fd w = Ok c w.
Proof. intros H Hf. unfold sys_read_all. by rewrite H, Hf. Qed.

Lemma sys_read_pipe fd id buf :
  fds w !! fd = Some (PipeRd id) → live_holds (PipeWr id) w = false →
  w_pipes w !! id = Some buf →
  sys_read_all fd w = Ok buf (with_pipes <[id := EmptyString]> w).
Proof. intros H Hl Hb. unfold sys_read_all. by rewrite H, Hl, Hb. Qed.

(** A reader whose pipe still has a writer somewhere blocks for ever. *)
Lemma sys_read_pipe_hang fd id :
  fds w !! fd = Some (PipeRd id) → live_holds (PipeWr id) w = true →
  sys_read_all fd w = Hang.
Proof. intros H Hl. unfold sys_read_all. by rewrite H, Hl. Qed.

Lemma sys_write_file fd f c s :
  fds w !! fd = Some (FileWr f) → w_files w !! f = Some c →
  ∃ n, sys_write_all fd s w = Ok n (with_files <[f := c +:+ s]> w).
Proof.
  intros H Hf. unfold sys_write_all. case_bool_decide as Hs.
  - subst s. exists 0%Z. rewrite string_app_empty_r. unfold with_files.
    rewrite insert_id by done. by destruct w.
  - rewrite H, Hf. by eexists.
Qed.

Lemma sys_write_pipe fd id buf s :
  fds w !! fd = Some (PipeWr id) → live_holds (PipeRd id) w = true →
  w_pipes w !! id = Some buf →
  String.length buf + String.length s ≤ pipe_cap (w_cfg w) →
  ∃ n, sys_write_all fd s w = Ok n (with_pipes <[id := buf +:+ s]> w).
Proof.
  intros H Hl Hb Hcap. unfold sys_write_all. case_bool_decide as Hs.
  - subst s. exists 0%Z. rewrite string_app_empty_r. unfold with_pipes.
    rewrite insert_id by done. by destruct w.
  - rewrite H, Hl, Hb. simpl. rewrite bool_decide_eq_true_2 by done. by eexists.
Qed.

(** A writer that overflows a pipe whose reader is blocked blocks for
    ever. *)
Lemma sys_write_pipe_full fd id buf s :
  fds w !! fd = Some (PipeWr id) → live_holds (PipeRd id) w = true →
  w_pipes w !! id = Some buf → s ≠ EmptyString →
  pipe_cap (w_cfg w) < String.length buf + String.length s →
  sys_write_all fd s w = Hang.
Proof.
  intros H Hl Hb Hs Hcap. unfold sys_write_all.
  rewrite bool_decide_eq_false_2 by done.
  rewrite H, Hl, Hb. simpl. rewrite bool_decide_eq_false_2 by lia. done.
Qed.

(** The child of a successful fork runs on a copy of the running
    process; the parent resumes with its own process and the status. *)
Lemma fork_wait_died child code w' :
  S (length (w_blocked w)) < proc_max (w_cfg w) →
  child (with_blocked (w_cur w :: w_blocked w) w) = Died code w' →
  fork_wait child w
  = Ok (Some code) (with_blocked (w_blocked w) (with_cur (λ _, w_cur w) w')).
Proof. intros Hr Hc. unfold fork_wait. by rewrite bool_decide_eq_true_2, Hc. Qed.

Lemma fork_wait_hang child :
  S (length (w_blocked w)) < proc_max (w_cfg w) →
  child (with_blocked (w_cur w :: w_blocked w) w) = Hang →
  fork_wait child w = Hang.
Proof. intros Hr Hc. unfold fork_wait. by rewrite bool_decide_eq_true_2, Hc. Qed.

Lemma fork_wait_eagain child :
  ¬ S (length (w_blocked w)) < proc_max (w_cfg w) →
  fork_wait child w = Ok None (with_errno EAGAIN w).
Proof. intros Hr. unfold fork_wait. by rewrite bool_decide_eq_false_2. Qed.

(** Whatever the child does, a parent that gets its status back has its
    own process (descriptor table, errno) and its ancestors intact. *)
Lemma fork_wait_restores child code w' :
  fork_wait child w = Ok (Some code) w' →
  w_cur w' = w_cur w ∧ w_blocked w' = w_blocked w.
Proof.
  unfold fork_wait. case_bool_decide; [|done].
  destruct (child _) as [[]| |]; [|done].
  intros [= <- <-]. done.
Qed.
End syscalls.

(** The image of a program: its input read, its output written, its
    status as exit status. *)
Lemma run_program_spec (w w1 w2 : world) pr args input out code n :
  (if prog_reads pr then sys_read_all 0 w = Ok input w1 else input = EmptyString ∧ w1 = w) →
  prog_run pr args input = (out, code) →
  sys_write_all 1 out w1 = Ok n w2 →
  run_program pr args w = Died code w2.
Proof.
  intros Hr Hrun Hw. unfold run_program.
  destruct (prog_reads pr).
  - rewrite (bind_Ok _ _ _ _ _ Hr). rewrite Hrun. by rewrite (bind_Ok _ _ _ _ _ Hw).
  - destruct Hr as [-> ->]. rewrite st_bind_ret_l, Hrun. by rewrite (bind_Ok _ _ _ _ _ Hw).
Qed.

(** A program whose write blocks for ever blocks for ever. *)
Lemma run_program_hang (w w1 : world) pr args input out code :
  (if prog_reads pr then sys_read_all 0 w = Ok input w1 else input = EmptyString ∧ w1 = w) →
  prog_run pr args input = (out, code) →
  sys_write_all 1 out w1 = Hang →
  run_program pr args w = Hang.
Proof.
  intros Hr Hrun Hw. unfold run_program.
  destruct (prog_reads pr).
  - rewrite (bind_Ok _ _ _ _ _ Hr). rewrite Hrun. by rewrite (bind_Hang _ _ _ Hw).
  - destruct Hr as [-> ->]. rewrite st_bind_ret_l, Hrun. by rewrite (bind_Hang _ _ _ Hw).
Qed.

Lemma sys_execvp_hang (w : world) a0 rest pr :
  path_lookup (w_cfg w) a0 = Some pr → run_program pr (a0 :: rest) w = Hang →
  sys_execvp (a0 :: rest) w = Hang.
Proof. intros Hp Hr. unfold sys_execvp. by rewrite Hp, Hr. Qed.

Lemma sys_execvp_run (w : world) a0 rest pr code w' :
  path_lookup (w_cfg w) a0 = Some pr →
  run_program pr (a0 :: rest) w = Died code w' →
  sys_execvp (a0 :: rest) w = Died code w'.
Proof. intros Hp Hr. unfold sys_execvp. by rewrite Hp, Hr. Qed.

Lemma sys_execvp_enoent (w : world) a0 rest :
  path_lookup (w_cfg w) a0 = None →
  sys_execvp (a0 :: rest) w = Ok tt (with_errno ENOENT w).
Proof. intros Hp. unfold sys_execvp. by rewrite Hp. Qed.

(** ** Allocation lemmas *)

(** The configuration leaves a free descriptor in table [t]. *)
Definition fd_room (c : config) (t : gmap Z obj) : Prop :=
  ∃ k, (0 ≤ k < fd_max c)%Z ∧ t !! k = None.

(** Kernel invariant: every open descriptor is below [fd_max]. *)
Definition fds_bounded (c : config) (t : gmap Z obj) : Prop :=
  ∀ k o, t !! k = Some o → (0 ≤ k < fd_max c)%Z.

Lemma fds_bounded_open c t k : fds_bounded c t → is_Some (t !! k) → (0 ≤ k < fd_max c)%Z.
Proof. intros Hb [o Ho]. exact (Hb k o Ho). Qed.

Lemma fds_bounded_insert c t k o :
  fds_bounded c t → (0 ≤ k < fd_max c)%Z → fds_bounded c (<[k := o]> t).
Proof.
  intros Hb Hk i o' Hi. destruct (decide (i = k)) as [->|Hne]; [done|].
  rewrite lookup_insert_ne in Hi by done. exact (Hb i o' Hi).
Qed.

Lemma first_free_Some t k f j :
  first_free t k f = Some j →
  t !! j = None ∧ (k ≤ j < k + Z.of_nat f)%Z ∧
  ∀ i, (k ≤ i < j)%Z → is_Some (t !! i).
Proof.
  revert k. induction f as [|f IH]; intros k H; simpl in H; [done|].
  destruct (t !! k) eqn:Hk.
  - destruct (IH _ H) as (Hj & Hr & Hlow). split; [done|]. split; [lia|].
    intros i Hi. destruct (decide (i = k)) as [->|]; [by eexists|].
    apply Hlow. lia.
  - injection H as <-. split; [done|]. split; [lia|]. intros i Hi; lia.
Qed.

Lemma first_free_complete t k f j :
  (k ≤ j < k + Z.of_nat f)%Z → t !! j = None → is_Some (first_free t k f).
Proof.
  revert k. induction f as [|f IH]; intros k Hr Hj; [lia|]. simpl.
  destruct (t !! k) eqn:Hk; [|by eexists].
  apply IH; [|done]. assert (j ≠ k) by congruence. lia.
Qed.

(** [alloc_fd] returns the lowest free descriptor below [fd_max]. *)
Lemma alloc_fd_Some c t j :
  alloc_fd c t = Some j →
  t !! j = None ∧ (0 ≤ j < fd_max c)%Z ∧ ∀ i, (0 ≤ i < j)%Z → is_Some (t !! i).
Proof.
  unfold alloc_fd. intros (Hj & Hr & Hlow)%first_free_Some.
  split; [done|]. split; [|done]. lia.
Qed.

(** ... and fails only when every descriptor below [fd_max] is taken. *)
Lemma alloc_fd_room c t : fd_room c t → ∃ j, alloc_fd c t = Some j.
Proof.
  intros (k & Hk & Hfree). unfold alloc_fd.
  destruct (first_free_complete t 0 (Z.to_nat (fd_max c)) k) as [j Hj];
    [lia | done | by exists j].
Qed.

Lemma alloc_fd_full c t : ¬ fd_room c t → alloc_fd c t = None.
Proof.
  intros Hn. destruct (alloc_fd c t) as [j|] eqn:Ha; [|done].
  exfalso. apply Hn. apply alloc_fd_Some in Ha as (? & ? & _). by exists j.
Qed.

(** Rebinding an open descriptor leaves the room unchanged. *)
Lemma fd_room_insert_open c t k o :
  is_Some (t !! k) → fd_room c (<[k := o]> t) ↔ fd_room c t.
Proof.
  intros [o' Hk]. unfold fd_room.
  split; intros (j & Hj & Hfree); exists j; split; try done;
    destruct (decide (j = k)) as [->|Hne].
  - by rewrite lookup_insert_eq in Hfree.
  - by rewrite lookup_insert_ne in Hfree.
  - congruence.
  - by rewrite lookup_insert_ne.
Qed.

Lemma holds_spec o t : holds o t = true ↔ ∃ k, t !! k = Some o.
Proof.
  unfold holds. rewrite bool_decide_eq_true, list_elem_of_fmap. split.
  - intros ([k o'] & -> & Hin%elem_of_map_to_list). by exists k.
  - intros [k Hk]. exists (k, o). split; [done|]. by apply elem_of_map_to_list.
Qed.

Lemma holds_false o t : holds o t = false ↔ ∀ k, t !! k ≠ Some o.
Proof.
  split.
  - intros H k Hk. assert (holds o t = true) by (apply holds_spec; eauto). congruence.
  - intros H. destruct (holds o t) eqn:E; [|done].
    apply holds_spec in E as [k Hk]. by destruct (H k).
Qed.

Lemma live_holds_false o w :
  live_holds o w = false ↔ Forall (λ p, holds o (p_fds p) = false) (w_cur w :: w_blocked w).
Proof.
  unfold live_holds. generalize (w_cur w :: w_blocked w) as ps.
  induction ps as [|p ps IH]; simpl; [split; auto|].
  rewrite orb_false_iff, Forall_cons, IH. done.
Qed.

(** [dup2(j, target); close(j)]: [target] now refers to what [j] did, and
    [j] is closed. *)
Lemma move_fd (w : world) j target o :
  fds w !! j = Some o → j ≠ target → (0 ≤ target < fd_max (w_cfg w))%Z →
  (sys_dup2 j target;; sys_close j;; mret tt) w
  = Ok tt (with_fds (λ t, delete j (<[target := o]> t)) w).
Proof.
  intros Hj Hne Hr.
  rewrite (bind_Ok _ _ _ _ _ (sys_dup2_ok w j target o Hj Hr Hne)).
  assert (Hj' : fds (with_fds <[target := o]> w) !! j = Some o)
    by (by rewrite fds_with_fds, lookup_insert_ne).
  by rewrite (bind_Ok _ _ _ _ _ (sys_close_ok _ j o Hj')).
Qed.

Lemma holds_lookup o t k : t !! k = Some o → holds o t = true.
Proof. intros H. apply holds_spec. eauto. Qed.

Lemma holds_insert_false o t k x :
  x ≠ o → holds o t = false → holds o (<[k := x]> t) = false.
Proof.
  rewrite !holds_false. intros Hx Ht i.
  destruct (decide (i = k)) as [->|Hne].
  - rewrite lookup_insert_eq. congruence.
  - rewrite lookup_insert_ne by done. apply Ht.
Qed.

Lemma holds_delete_false o t k : holds o t = false → holds o (delete k t) = false.
Proof.
  rewrite !holds_false. intros Ht i.
  destruct (decide (i = k)) as [->|Hne].
  - by rewrite lookup_delete_eq.
  - rewrite lookup_delete_ne by done. apply Ht.
Qed.

Lemma live_holds_true o w p :
  p ∈ w_cur w :: w_blocked w → holds o (p_fds p) = true → live_holds o w = true.
Proof.
  intros Hp Ho. unfold live_holds. apply existsb_exists.
  exists p. split; [by apply list_elem_of_In | done].
Qed.

(** A write to a descriptor that is not a pipe returns and changes neither
    the descriptor tables nor the configuration. *)
Lemma sys_write_not_pipe (w : world) fd s :
  (∀ id, fds w !! fd ≠ Some (PipeWr id)) →
  ∃ n w', sys_write_all fd s w = Ok n w' ∧ fds w' = fds w ∧ w_cfg w' = w_cfg w ∧
          w_blocked w' = w_blocked w.
Proof.
  intros Hp. unfold sys_write_all. case_bool_decide; [by eexists _, _|].
  destruct (fds w !! fd) as [[]|] eqn:E;
    try (eexists _, _; split; [reflexivity | by destruct w as [[]]]).
  exfalso. by eapply Hp.
Qed.

(** A write never changes the descriptor tables. *)
Lemma sys_write_fds (w : world) fd s n w' : sys_write_all fd s w = Ok n w' → fds w' = fds w.
Proof.
  unfold sys_write_all. case_bool_decide; [by intros [= _ <-]|].
  destruct (fds w !! fd) as [[]|]; try (intros [= _ <-]; by destruct w as [[]]).
  destruct (negb _); [done|]. case_bool_decide; [|done].
  intros [= _ <-]. by destruct w as [[]].
Qed.

(** A table whose descriptors all lie below [n]. *)
Definition fds_below (t : gmap Z obj) (n : Z) : Prop :=
  ∀ k o, t !! k = Some o → (0 ≤ k < n)%Z.

(** With three slots between [n] and [fd_max], some slot stays free after
    any two more descriptors are taken. *)
Lemma fds_below_free c t n a b :
  fds_below t n → (0 ≤ n)%Z → (n + 3 ≤ fd_max c)%Z →
  ∃ k, t !! k = None ∧ (0 ≤ k < fd_max c)%Z ∧ k ≠ a ∧ k ≠ b.
Proof.
  intros Hb Hn Hmax.
  assert (Hfree : ∀ k, (n ≤ k)%Z → t !! k = None).
  { intros k Hk. destruct (t !! k) as [o|] eqn:E; [|done]. apply Hb in E. lia. }
  destruct (decide (n ≠ a ∧ n ≠ b)) as [[]|Hn0].
  { exists n. split; [apply Hfree; lia|]. split; [lia | done]. }
  destruct (decide ((n + 1)%Z ≠ a ∧ (n + 1)%Z ≠ b)) as [[]|Hn1].
  { exists (n + 1)%Z. split; [apply Hfree; lia|]. split; [lia | done]. }
  exists (n + 2)%Z. split; [apply Hfree; lia|]. split; [lia|]. split; lia.
Qed.

Lemma fds_below_room2 c t n a x b y :
  fds_below t n → (0 ≤ n)%Z → (n + 3 ≤ fd_max c)%Z →
  fd_room c (<[a := x]> (<[b := y]> t)).
Proof.
  intros Hb Hn Hmax. destruct (fds_below_free c t n a b Hb Hn Hmax) as (k & Hk & Hr & Ha & Hb').
  exists k. split; [done|]. by rewrite !lookup_insert_ne.
Qed.

Lemma fds_below_room c t n :
  fds_below t n → (0 ≤ n)%Z → (n + 3 ≤ fd_max c)%Z → fd_room c t.
Proof.
  intros Hb Hn Hmax. destruct (fds_below_free c t n 0 0 Hb Hn Hmax) as (k & Hk & Hr & _).
  by exists k.
Qed.

Lemma fds_below_room1 c t n a x :
  fds_below t n → (0 ≤ n)%Z → (n + 3 ≤ fd_max c)%Z → fd_room c (<[a := x]> t).
Proof.
  intros Hb Hn Hmax. destruct (fds_below_free c t n a a Hb Hn Hmax) as (k & Hk & Hr & Ha & _).
  exists k. split; [done|]. by rewrite lookup_insert_ne.
Qed.

(** [world_simpl] reduces field accesses of field updates. *)
Ltac world_simpl :=
  cbn [w_cur w_blocked w_files w_pipes w_next_pipe w_in w_out w_err w_cfg
       with_cur with_blocked with_files with_pipes with_next_pipe with_in with_out
       with_err with_fds with_errno fds errno_of p_fds p_errno] in *.

(** [holds_false_tac] proves [holds o t = false] for a table built from a
    base table by inserts of other objects and deletes. *)
Ltac holds_false_tac :=
  repeat first [ apply holds_delete_false
               | apply holds_insert_false; [congruence|] ].

#[export] Hint Resolve alloc_fd_room holds_lookup : sys.

End Os.
