(* ===== verification/Demo.v ===== *)
(** * A concrete system for the witnesses

    Three external programs ([echo], [cat], [tr]), a configuration and the
    world of a freshly started shell: stdin, stdout and stderr on the
    terminal, a file [in.txt], nothing else open.  Every witness of the
    development evaluates the shell's code on this system. *)

From S2P Require Import Prelude Os.
From stdpp Require Import base gmap strings list.
From Stdlib Require Import ZArith Lia.

Module Demo.
Import Os.

Definition echo_prog : program :=
  mkProgram false (λ args _, (String.concat " " (tail args) +:+ nl, 0%Z)).

Definition cat_prog : program := mkProgram true (λ _ inp, (inp, 0%Z)).

(** [tr a b]: replace the first character of [a] by the first of [b]. *)
Fixpoint tr_string (a b : Ascii.ascii) (s : string) : string :=
  match s with
  | EmptyString => EmptyString
  | String c s' => String (if Ascii.eqb c a then b else c) (tr_string a b s')
  end.

Definition tr_prog : program :=
  mkProgram true (λ args inp,
    match args with
    | [_; String a _; String b _] => (tr_string a b inp, 0%Z)
    | _ => (EmptyString, 1%Z)
    end).

Definition demo_path (name : string) : option program :=
  if String.eqb name "echo" then Some echo_prog
  else if String.eqb name "cat" then Some cat_prog
  else if String.eqb name "tr" then Some tr_prog
  else None.

(** 16 descriptors, 8 processes, pipes of 16 bytes. *)
Definition demo_cfg : config := mkConfig 16 8 16 ["/etc/passwd"] demo_path.

Definition std_fds : gmap Z obj :=
  <[0%Z := TermIn]> (<[1%Z := TermOut]> {[2%Z := TermErr]}).

Definition demo_world : world :=
  mkWorld (mkProc std_fds ENONE) [] {["in.txt" := "hello" +:+ nl]} ∅ 0
          "typed" EmptyString EmptyString demo_cfg.

(** A system with room for three descriptors only, and one with room
    for one process only (the shell itself). *)
Definition tight_world (fdm : Z) (pm : nat) : world :=
  mkWorld (mkProc std_fds ENONE) [] ∅ ∅ 0 EmptyString EmptyString EmptyString
          (mkConfig fdm pm 16 [] demo_path).

Lemma std_fds_Some (k : Z) o :
  std_fds !! k = Some o →
  (k = 0%Z ∧ o = TermIn) ∨ (k = 1%Z ∧ o = TermOut) ∨ (k = 2%Z ∧ o = TermErr).
Proof. unfold std_fds. rewrite !lookup_insert_Some, lookup_singleton_Some. naive_solver. Qed.

Lemma std_fds_bounded : fds_bounded demo_cfg std_fds.
Proof. intros k o Hk%std_fds_Some. simpl. naive_solver lia. Qed.

Lemma demo_room : fd_room demo_cfg std_fds.
Proof. exists 3%Z. split; [simpl; lia | reflexivity]. Qed.

End Demo.
