(* ===== verification/Redirection.v ===== *)
(** * Redirector: [redirection] (shell.c lines 22-41)

    [struct cmd_node] (include/command.h, not under src/: the fields the
    code reads) and [redirection], which rebinds the calling process's
    stdin to [in_file] and its stdout to [out_file].  The theorems: the
    effect on the descriptor table is the abstract rebinding
    [redir_table] (a refinement: the temporary descriptor is closed again),
    a file that cannot be opened makes the calling process exit with
    EXIT_FAILURE after [perror], and the edge case where [open] returns the
    target descriptor itself (stdin closed), which the code closes again. *)

From S2P Require Import Prelude Os Demo.
From stdpp Require Import base gmap strings list.
From Stdlib Require Import ZArith Lia.

Module Redirection.
Import Os.

(** One stage of a pipeline.  The [next] pointer of the C struct is the
    list structure of [list cmd_node]. *)
Record cmd_node := mkNode {
  args : list string;
  in_file : option string;
  out_file : option string
}.

(** Lines 23-31. *)
Definition redirect_in (f : string) : M unit :=
  fd ← sys_open_rd f;
  if bool_decide (fd = -1)%Z then perror "open";; st_exit EXIT_FAILURE
  else sys_dup2 fd STDIN_FILENO;; sys_close fd;; mret tt.

(** Lines 32-40. *)
Definition redirect_out (f : string) : M unit :=
  fd ← sys_open_wr_trunc f;
  if bool_decide (fd = -1)%Z then perror "open";; st_exit EXIT_FAILURE
  else sys_dup2 fd STDOUT_FILENO;; sys_close fd;; mret tt.

Definition redirection (p : cmd_node) : M unit :=
  match in_file p with Some f => redirect_in f | None => mret tt end;;
  match out_file p with Some f => redirect_out f | None => mret tt end.

(** ** Abstract specification *)

(** What [redirection] promises: fd 0 reads [in_file], fd 1 writes the
    truncated [out_file], nothing else changes. *)
Definition redir_table (p : cmd_node) (t : gmap Z obj) : gmap Z obj :=
  let t1 := match in_file p with Some f => <[0%Z := FileRd f]> t | None => t end in
  match out_file p with Some f => <[1%Z := FileWr f]> t1 | None => t1 end.

Definition redir_files (p : cmd_node) (fs : gmap string string) : gmap string string :=
  match out_file p with Some f => <[f := EmptyString]> fs | None => fs end.

(** The conditions under which every [open] of [redirection] succeeds. *)
Definition redir_ok (p : cmd_node) (w : world) : Prop :=
  fds_bounded (w_cfg w) (fds w) ∧ is_Some (fds w !! STDIN_FILENO) ∧ is_Some (fds w !! STDOUT_FILENO) ∧
  fd_room (w_cfg w) (fds w) ∧
  (∀ f, in_file p = Some f → is_Some (w_files w !! f)) ∧
  (∀ f, out_file p = Some f → f ∉ readonly (w_cfg w)).

(** ** Lemmas *)

(** Open a fresh descriptor, move it onto [target], close it: the net
    effect is the rebinding of [target]. *)
Lemma move_fd_ok (w : world) j target o :
  fds w !! j = None → is_Some (fds w !! target) → (0 ≤ target < fd_max (w_cfg w))%Z →
  (sys_dup2 j target;; sys_close j;; mret tt) (with_fds <[j := o]> w)
  = Ok tt (with_fds <[target := o]> w).
Proof.
  intros Hj Ht Hr.
  assert (j ≠ target) by (intros ->; destruct Ht; congruence).
  rewrite (bind_Ok _ _ _ _ _ (sys_dup2_ok (with_fds <[j := o]> w) j target o
                                (lookup_insert_eq _ _ _) Hr ltac:(done))).
  rewrite (bind_Ok _ _ _ _ _ (sys_close_ok (with_fds <[target := o]> (with_fds <[j := o]> w)) j o
            ltac:(by rewrite fds_with_fds, fds_with_fds, lookup_insert_ne, lookup_insert_eq))).
  rewrite ret_run, !with_fds_compose. f_equal. apply with_fds_ext. simpl.
  rewrite delete_insert_ne by done. by rewrite delete_insert_id.
Qed.

Lemma redirect_in_ok (w : world) f :
  fds_bounded (w_cfg w) (fds w) → is_Some (fds w !! STDIN_FILENO) → fd_room (w_cfg w) (fds w) →
  is_Some (w_files w !! f) →
  redirect_in f w = Ok tt (with_fds <[STDIN_FILENO := FileRd f]> w).
Proof.
  intros Hb H0 Hroom [c Hf]. destruct (alloc_fd_room _ _ Hroom) as [j Ha].
  pose proof (alloc_fd_Some _ _ _ Ha) as (Hj & Hr & _).
  unfold redirect_in. rewrite (bind_Ok _ _ _ _ _ (sys_open_rd_ok w f j c Ha Hf)).
  rewrite bool_decide_eq_false_2 by lia.
  apply move_fd_ok; [done | done |]. exact (fds_bounded_open _ _ _ Hb H0).
Qed.

Lemma redirect_out_ok (w : world) f :
  fds_bounded (w_cfg w) (fds w) → is_Some (fds w !! STDOUT_FILENO) → fd_room (w_cfg w) (fds w) →
  f ∉ readonly (w_cfg w) →
  redirect_out f w
  = Ok tt (with_fds <[STDOUT_FILENO := FileWr f]> (with_files <[f := EmptyString]> w)).
Proof.
  intros Hb H1 Hroom Hf. destruct (alloc_fd_room _ _ Hroom) as [j Ha].
  pose proof (alloc_fd_Some _ _ _ Ha) as (Hj & Hr & _).
  unfold redirect_out. rewrite (bind_Ok _ _ _ _ _ (sys_open_wr_ok w f j Ha Hf)).
  rewrite bool_decide_eq_false_2 by lia.
  apply (move_fd_ok (with_files _ w)); [done | done |].
  exact (fds_bounded_open _ _ _ Hb H1).
Qed.

(** ** Properties *)

Lemma redirection_refines_core (p : cmd_node) (w : world) :
  redir_ok p w →
  redirection p w
  = Ok tt (with_fds (λ _, redir_table p (fds w)) (with_files (redir_files p) w)).
Proof.
  intros (Hb & H0 & H1 & Hroom & Hin & Hout). unfold redirection, redir_table, redir_files.
  destruct (in_file p) as [fi|] eqn:Ei.
  - rewrite (bind_Ok _ _ _ _ _ (redirect_in_ok w fi Hb H0 Hroom (Hin fi eq_refl))).
    destruct (out_file p) as [fo|] eqn:Eo.
    + rewrite (redirect_out_ok (with_fds _ w) fo).
      * reflexivity.
      * apply fds_bounded_insert; [exact Hb | exact (fds_bounded_open _ _ _ Hb H0)].
      * rewrite fds_with_fds, lookup_insert_ne by done. exact H1.
      * apply fd_room_insert_open; [exact H0 | exact Hroom].
      * exact (Hout fo eq_refl).
    + rewrite ret_run. reflexivity.
  - rewrite st_bind_ret_l. destruct (out_file p) as [fo|] eqn:Eo.
    + by rewrite (redirect_out_ok w fo Hb H1 Hroom (Hout fo eq_refl)).
    + rewrite ret_run. by destruct w as [[]].
Qed.

(** C5: when every file opens, [redirection] rebinds exactly fd 0 and fd 1
    as [redir_table] says, truncates the output file, and leaves every
    other part of the process and of the system unchanged; in particular
    the descriptor it opened is closed again. *)
Theorem redirection_refines (p : cmd_node) (w : world) :
  redir_ok p w →
  redirection p w
  = Ok tt (with_fds (λ _, redir_table p (fds w)) (with_files (redir_files p) w)).
Proof. apply redirection_refines_core. Qed.

(** In the demo world: [in.txt] exists, only [/etc/passwd] is read-only. *)
Lemma demo_redir_ok p :
  (∀ f, in_file p = Some f → f = "in.txt") → (∀ f, out_file p = Some f → f ≠ "/etc/passwd") →
  redir_ok p Demo.demo_world.
Proof.
  intros Hi Ho. split; [|split; [|split; [|split; [|split]]]].
  - exact Demo.std_fds_bounded.
  - by eexists.
  - by eexists.
  - exact Demo.demo_room.
  - intros f ->%Hi. by eexists.
  - intros f Hf%Ho. simpl. set_solver.
Qed.

Lemma redirection_refines_witness :
  let p := mkNode ["cat"] (Some "in.txt") (Some "out.txt") in
  redir_ok p Demo.demo_world ∧
  redirection p Demo.demo_world
  = Ok tt (with_fds (λ _, redir_table p (fds Demo.demo_world))
                    (with_files (redir_files p) Demo.demo_world)).
Proof.
  intros p.
  assert (H : redir_ok p Demo.demo_world) by (apply demo_redir_ok; by intros f [= <-]).
  split; [exact H | apply redirection_refines; exact H].
Defined.

Lemma redirection_missing_input_exits_core (p : cmd_node) (w : world) f :
  in_file p = Some f → w_files w !! f = None → fd_room (w_cfg w) (fds w) →
  fds w !! STDERR_FILENO = Some TermErr →
  redirection p w
  = Died EXIT_FAILURE
      (with_err (w_err w +:+ ("open" +:+ ": " +:+ strerror ENOENT +:+ nl))
                (with_errno ENOENT w)).
Proof.
  intros Hin Hf Hroom Herr. destruct (alloc_fd_room _ _ Hroom) as [j Ha].
  unfold redirection. rewrite Hin.
  apply bind_Died. unfold redirect_in.
  rewrite (bind_Ok _ _ _ _ _ (sys_open_rd_enoent w f j Ha Hf)).
  rewrite bool_decide_eq_true_2 by done.
  by rewrite (bind_Ok _ _ _ _ _ (perror_ok (with_errno ENOENT w) "open" Herr)).
Qed.

(** C17: an input file that does not exist makes [redirection] print
    "open: No such file or directory" on stderr and exit the calling
    process with EXIT_FAILURE (in a child: the command is not run; in the
    shell itself, for a built-in: the shell exits). *)
Theorem redirection_missing_input_exits (p : cmd_node) (w : world) f :
  in_file p = Some f → w_files w !! f = None → fd_room (w_cfg w) (fds w) →
  fds w !! STDERR_FILENO = Some TermErr →
  redirection p w
  = Died EXIT_FAILURE
      (with_err (w_err w +:+ ("open" +:+ ": " +:+ strerror ENOENT +:+ nl))
                (with_errno ENOENT w)).
Proof. apply redirection_missing_input_exits_core. Qed.

Lemma redirection_missing_input_exits_witness :
  let p := mkNode ["cat"] (Some "missing.txt") None in
  redirection p Demo.demo_world
  = Died EXIT_FAILURE
      (with_err (w_err Demo.demo_world +:+ ("open" +:+ ": " +:+ strerror ENOENT +:+ nl))
                (with_errno ENOENT Demo.demo_world)).
Proof.
  apply (redirection_missing_input_exits _ _ "missing.txt").
  - reflexivity.
  - reflexivity.
  - exact Demo.demo_room.
  - reflexivity.
Defined.

(** C18: when stdin is closed, [open] returns descriptor 0 itself; the code
    then performs [dup2(0, 0)] (no effect) and [close(0)], so an input
    redirection leaves stdin closed: the descriptor table is exactly the
    one before the call. *)
Theorem redirection_closed_stdin (p : cmd_node) (w : world) f :
  in_file p = Some f → out_file p = None → is_Some (w_files w !! f) →
  fds w !! STDIN_FILENO = None → (0 < fd_max (w_cfg w))%Z →
  ∃ w', redirection p w = Ok tt w' ∧ fds w' = fds w ∧ fds w' !! STDIN_FILENO = None.
Proof.
  intros Hin Hout [c Hf] H0 Hmax. unfold STDIN_FILENO in *.
  assert (Ha : alloc_fd (w_cfg w) (fds w) = Some 0%Z).
  { unfold alloc_fd. destruct (Z.to_nat (fd_max (w_cfg w))) eqn:E; [lia|].
    cbn [first_free]. by rewrite H0. }
  assert (Hr : redirect_in f w = Ok tt (with_fds (delete 0%Z) (with_fds <[0%Z := FileRd f]> w))).
  { unfold redirect_in.
    rewrite (bind_Ok _ _ _ _ _ (sys_open_rd_ok w f 0 c Ha Hf)).
    rewrite bool_decide_eq_false_2 by lia.
    assert (H1 : fds (with_fds <[0%Z := FileRd f]> w) !! 0%Z = Some (FileRd f))
      by (by rewrite fds_with_fds, lookup_insert_eq).
    rewrite (bind_Ok _ _ _ _ _ (sys_dup2_same _ 0 (FileRd f) H1 (conj (Z.le_refl 0) Hmax))).
    by rewrite (bind_Ok _ _ _ _ _ (sys_close_ok _ 0 (FileRd f) H1)). }
  unfold redirection. rewrite Hin, Hout, (bind_Ok _ _ _ _ _ Hr).
  eexists. split; [reflexivity|].
  rewrite !fds_with_fds, delete_insert_id by exact H0. done.
Qed.

Lemma redirection_closed_stdin_witness :
  let w := with_fds (delete STDIN_FILENO) Demo.demo_world in
  ∃ w', redirection (mkNode ["cat"] (Some "in.txt") None) w = Ok tt w' ∧
        fds w' = fds w ∧ fds w' !! STDIN_FILENO = None.
Proof.
  apply (redirection_closed_stdin _ _ "in.txt").
  - reflexivity.
  - reflexivity.
  - by eexists.
  - reflexivity.
  - vm_compute. reflexivity.
Defined.

End Redirection.
