(* ===== verification/Spawn.v ===== *)
(** * Single-command spawner: [spawn_proc] (shell.c lines 55-77)

    [spawn_proc] forks; the child applies [redirection] and [execvp]s the
    command, reporting "execvp" and exiting with EXIT_FAILURE if that
    fails; the parent waits for the child and returns 1, or reports "fork"
    and returns -1 when the child cannot be created.  The theorems: the
    shell never exits inside [spawn_proc] and its descriptor table is the
    same afterwards; the functional behaviour on a command found in the
    search path, with the terminal or a file as stdout; an unknown command;
    a failed fork; and the redirection round trip of the spec (write a file
    with [>], read it back with [cat <]). *)

From S2P Require Import Prelude Os Demo Redirection.
From stdpp Require Import base gmap strings list.
From Stdlib Require Import ZArith Lia.

Module Spawn.
Import Os Redirection.

(** The child branch, lines 58-65: it never returns. *)
Definition spawn_child (p : cmd_node) : M Empty_set :=
  redirection p;;
  sys_execvp (args p);;
  perror "execvp";;
  st_exit EXIT_FAILURE.

(** Lines 55-77.  The final [return 1] (line 76) is reached only by a
    child whose [execvp] returned a value other than -1, which [execvp]
    never does; the model's child cannot return. *)
Definition spawn_proc (p : cmd_node) : M Z :=
  r ← fork_wait (spawn_child p);
  match r with
  | None => perror "fork";; mret (-1)%Z
  | Some _status => mret 1%Z
  end.

(** The output of program [pr] run on [args] with [input] on its stdin. *)
Definition prog_output (pr : program) (args : list string) (input : string) : string :=
  (prog_run pr args (if prog_reads pr then input else EmptyString)).1.

Definition prog_status (pr : program) (args : list string) (input : string) : Z :=
  (prog_run pr args (if prog_reads pr then input else EmptyString)).2.

(** The world the child of [spawn_proc] runs in. *)
Definition child_world (w : world) : world := with_blocked (w_cur w :: w_blocked w) w.

(** A command whose program is found, run on the terminal or on files:
    the child's run, in terms of the world after its redirection. *)
Lemma spawn_child_runs (w w1 w2 w3 : world) p a0 rest pr input n :
  args p = a0 :: rest → redirection p w = Ok tt w1 →
  path_lookup (w_cfg w1) a0 = Some pr →
  (if prog_reads pr then sys_read_all 0 w1 = Ok input w2
   else input = EmptyString ∧ w2 = w1) →
  sys_write_all 1 (prog_run pr (args p) input).1 w2 = Ok n w3 →
  spawn_child p w = Died (prog_run pr (args p) input).2 w3.
Proof.
  intros Ha Hr Hp Hread Hw. unfold spawn_child.
  rewrite (bind_Ok _ _ _ _ _ Hr). rewrite Ha in Hw |- *.
  apply bind_Died. apply (sys_execvp_run _ a0 rest pr); [exact Hp|].
  eapply run_program_spec; [exact Hread | | exact Hw].
  by destruct (prog_run pr (a0 :: rest) input).
Qed.

Lemma redirection_none (p : cmd_node) (w : world) :
  in_file p = None → out_file p = None → redirection p w = Ok tt w.
Proof. intros Hi Ho. unfold redirection. by rewrite Hi, Ho. Qed.

(** The parent's view of a child that exited: [spawn_proc] returns 1 in
    the world the child left, with the parent's own process restored. *)
Lemma spawn_proc_child_died (p : cmd_node) (w w' : world) code :
  S (length (w_blocked w)) < proc_max (w_cfg w) →
  spawn_child p (child_world w) = Died code w' →
  spawn_proc p w = Ok 1%Z (with_blocked (w_blocked w) (with_cur (λ _, w_cur w) w')).
Proof.
  intros Hr Hc. unfold spawn_proc.
  by rewrite (bind_Ok _ _ _ _ _ (fork_wait_died w _ code w' Hr Hc)).
Qed.

(** A plain command found in the search path, in a world [v]: the run of
    its image in the child, as the parent of [spawn_proc] sees it. *)
Lemma spawn_proc_runs (p : cmd_node) (v gw2 gw3 : world) a0 rest pr input n :
  in_file p = None → out_file p = None → args p = a0 :: rest →
  path_lookup (w_cfg v) a0 = Some pr →
  S (length (w_blocked v)) < proc_max (w_cfg v) →
  (if prog_reads pr then sys_read_all 0 (child_world v) = Ok input gw2
   else input = EmptyString ∧ gw2 = child_world v) →
  sys_write_all 1 (prog_run pr (args p) input).1 gw2 = Ok n gw3 →
  spawn_proc p v = Ok 1%Z (with_blocked (w_blocked v) (with_cur (λ _, w_cur v) gw3)).
Proof.
  intros Hi Ho Ha Hp Hroom Hread Hw.
  apply (spawn_proc_child_died p v gw3 (prog_run pr (args p) input).2 Hroom).
  exact (spawn_child_runs (child_world v) (child_world v) gw2 gw3 p a0 rest pr input n
           Ha (redirection_none _ _ Hi Ho) Hp Hread Hw).
Qed.

(** ... and when the command's output blocks, [spawn_proc] blocks. *)
Lemma spawn_proc_hangs (p : cmd_node) (v gw2 : world) a0 rest pr input :
  in_file p = None → out_file p = None → args p = a0 :: rest →
  path_lookup (w_cfg v) a0 = Some pr →
  S (length (w_blocked v)) < proc_max (w_cfg v) →
  (if prog_reads pr then sys_read_all 0 (child_world v) = Ok input gw2
   else input = EmptyString ∧ gw2 = child_world v) →
  sys_write_all 1 (prog_run pr (args p) input).1 gw2 = Hang →
  spawn_proc p v = Hang.
Proof.
  intros Hi Ho Ha Hp Hroom Hread Hw. unfold spawn_proc.
  apply bind_Hang. apply fork_wait_hang; [exact Hroom|].
  unfold spawn_child. rewrite (bind_Ok _ _ _ _ _ (redirection_none _ _ Hi Ho)), Ha.
  assert (Hx : sys_execvp (a0 :: rest) (child_world v) = Hang).
  { apply (sys_execvp_hang _ a0 rest pr); [exact Hp|].
    rewrite Ha in Hw.
    apply (run_program_hang _ gw2 pr (a0 :: rest) input (prog_run pr (a0 :: rest) input).1
             (prog_run pr (a0 :: rest) input).2 Hread); [|exact Hw].
    by destruct (prog_run pr (a0 :: rest) input). }
  by rewrite (bind_Hang _ _ _ Hx).
Qed.


(** What the child's program reads: the terminal input when stdin is the
    terminal ... *)
Lemma child_read_term (v : world) pr :
  fds v !! STDIN_FILENO = Some TermIn →
  if prog_reads pr
  then sys_read_all 0 v = Ok (if prog_reads pr then w_in v else EmptyString)
                             (if prog_reads pr then with_in EmptyString v else v)
  else (if prog_reads pr then w_in v else EmptyString) = EmptyString ∧
       (if prog_reads pr then with_in EmptyString v else v) = v.
Proof. intros H. destruct (prog_reads pr); [exact (sys_read_term v 0 H) | done]. Qed.

(** ... and the file's contents when stdin reads a file. *)
Lemma child_read_file (v : world) pr f c :
  fds v !! STDIN_FILENO = Some (FileRd f) → w_files v !! f = Some c →
  if prog_reads pr
  then sys_read_all 0 v = Ok (if prog_reads pr then c else EmptyString) v
  else (if prog_reads pr then c else EmptyString) = EmptyString ∧ v = v.
Proof. intros H Hf. destruct (prog_reads pr); [exact (sys_read_file v 0 f c H Hf) | done]. Qed.

(** ** Properties *)

(** The outcomes of [spawn_proc]: 1 or -1 with the descriptor table
    unchanged, or blocking with a child that blocks. *)
Lemma spawn_proc_outcome (p : cmd_node) (w : world) :
  fds w !! STDERR_FILENO = Some TermErr →
  match spawn_proc p w with
  | Ok r w' => (r = 1 ∨ r = -1)%Z ∧ fds w' = fds w
  | Died _ _ => False
  | Hang => True
  end.
Proof.
  intros Herr. unfold spawn_proc.
  destruct (fork_wait (spawn_child p) w) as [[code|] w'| |] eqn:Ef.
  - rewrite (bind_Ok _ _ _ _ _ Ef). apply fork_wait_restores in Ef as [Hc _].
    split; [by left|]. unfold fds. by rewrite Hc.
  - rewrite (bind_Ok _ _ _ _ _ Ef).
    unfold fork_wait in Ef. case_bool_decide; [destruct (spawn_child p _) as [[]| |]; done|].
    injection Ef as <-.
    rewrite (bind_Ok _ _ _ _ _ (perror_ok (with_errno EAGAIN w) "fork" Herr)).
    split; [by right | done].
  - unfold fork_wait in Ef. case_bool_decide; [|done].
    destruct (spawn_child p _) as [[]| |]; done.
  - by rewrite (bind_Hang _ _ _ Ef).
Qed.

(** C7: the shell never exits inside [spawn_proc] (given that its stderr
    is the terminal): it returns 1 or -1 with its descriptor table
    unchanged, or, when the child blocks for ever, blocks with it. *)
Theorem spawn_proc_safe (p : cmd_node) (w : world) :
  fds w !! STDERR_FILENO = Some TermErr →
  match spawn_proc p w with
  | Ok r w' => (r = 1 ∨ r = -1)%Z ∧ fds w' = fds w
  | Died _ _ => False
  | Hang => True
  end.
Proof. apply spawn_proc_outcome. Qed.

Lemma spawn_proc_safe_witness :
  match spawn_proc (mkNode ["cat"] None None) Demo.demo_world with
  | Ok r w' => (r = 1 ∨ r = -1)%Z ∧ fds w' = fds Demo.demo_world
  | Died _ _ => False
  | Hang => True
  end.
Proof. apply spawn_proc_safe. reflexivity. Defined.

(** C10: a command without redirection whose program is in the search path
    runs with the shell's terminal: its output (on the terminal input, if
    it reads stdin) is appended to the terminal, the terminal input it read
    is consumed, and nothing else of the shell changes; [spawn_proc]
    returns 1. *)
Theorem spawn_proc_terminal (p : cmd_node) (w : world) a0 rest pr :
  in_file p = None → out_file p = None → args p = a0 :: rest →
  path_lookup (w_cfg w) a0 = Some pr →
  S (length (w_blocked w)) < proc_max (w_cfg w) →
  fds w !! STDIN_FILENO = Some TermIn → fds w !! STDOUT_FILENO = Some TermOut →
  spawn_proc p w
  = Ok 1%Z (with_out (w_out w +:+ prog_output pr (args p) (w_in w))
                     (if prog_reads pr then with_in EmptyString w else w)).
Proof.
  intros Hi Ho Ha Hp Hroom H0 H1. unfold prog_output.
  destruct (prog_reads pr) eqn:Er.
  - destruct (sys_write_term_out (with_in EmptyString (child_world w)) 1
                (prog_run pr (args p) (w_in w)).1 H1) as [n Hw].
    assert (Hread : if prog_reads pr
                    then sys_read_all 0 (child_world w)
                         = Ok (w_in w) (with_in EmptyString (child_world w))
                    else w_in w = EmptyString ∧ with_in EmptyString (child_world w) = child_world w)
      by (rewrite Er; exact (sys_read_term (child_world w) 0 H0)).
    pose proof (spawn_child_runs (child_world w) (child_world w) _ _ p a0 rest pr _ n Ha
                  (redirection_none _ _ Hi Ho) Hp Hread Hw) as Hc.
    rewrite (spawn_proc_child_died p w _ _ Hroom Hc). reflexivity.
  - destruct (sys_write_term_out (child_world w) 1
                (prog_run pr (args p) EmptyString).1 H1) as [n Hw].
    assert (Hread : if prog_reads pr
                    then sys_read_all 0 (child_world w) = Ok EmptyString (child_world w)
                    else EmptyString = EmptyString ∧ child_world w = child_world w)
      by (by rewrite Er).
    pose proof (spawn_child_runs (child_world w) (child_world w) _ _ p a0 rest pr _ n Ha
                  (redirection_none _ _ Hi Ho) Hp Hread Hw) as Hc.
    rewrite (spawn_proc_child_died p w _ _ Hroom Hc). reflexivity.
Qed.

Lemma spawn_proc_terminal_witness :
  spawn_proc (mkNode ["tr"; "y"; "Y"] None None) Demo.demo_world
  = Ok 1%Z (with_out (w_out Demo.demo_world +:+
                      prog_output Demo.tr_prog ["tr"; "y"; "Y"] (w_in Demo.demo_world))
                     (with_in EmptyString Demo.demo_world)).
Proof.
  exact (spawn_proc_terminal (mkNode ["tr"; "y"; "Y"] None None) Demo.demo_world
           "tr" ["y"; "Y"] Demo.tr_prog eq_refl eq_refl eq_refl eq_refl
           ltac:(simpl; lia) eq_refl eq_refl).
Defined.

(** C21: a command that is not in the search path makes the child print
    "execvp: No such file or directory" and exit; the shell is unaffected
    (same descriptors, same errno, same terminal output) and [spawn_proc]
    still returns 1. *)
Theorem spawn_proc_not_found (p : cmd_node) (w : world) a0 rest :
  in_file p = None → out_file p = None → args p = a0 :: rest →
  path_lookup (w_cfg w) a0 = None →
  S (length (w_blocked w)) < proc_max (w_cfg w) →
  fds w !! STDERR_FILENO = Some TermErr →
  spawn_proc p w
  = Ok 1%Z (with_err (w_err w +:+ ("execvp" +:+ ": " +:+ strerror ENOENT +:+ nl)) w).
Proof.
  intros Hi Ho Ha Hp Hroom H2.
  assert (Hc : spawn_child p (child_world w) = Died EXIT_FAILURE
     (with_err (w_err w +:+ ("execvp" +:+ ": " +:+ strerror ENOENT +:+ nl))
               (with_errno ENOENT (child_world w)))).
  { unfold spawn_child. rewrite (bind_Ok _ _ _ _ _ (redirection_none p _ Hi Ho)), Ha.
    rewrite (bind_Ok _ _ _ _ _ (sys_execvp_enoent (child_world w) a0 rest Hp)).
    by rewrite (bind_Ok _ _ _ _ _ (perror_ok (with_errno ENOENT (child_world w)) "execvp" H2)). }
  rewrite (spawn_proc_child_died p w _ _ Hroom Hc). reflexivity.
Qed.

Lemma spawn_proc_not_found_witness :
  spawn_proc (mkNode ["ls"; "-l"] None None) Demo.demo_world
  = Ok 1%Z (with_err (w_err Demo.demo_world +:+ ("execvp" +:+ ": " +:+ strerror ENOENT +:+ nl))
                     Demo.demo_world).
Proof. apply (spawn_proc_not_found _ _ "ls" ["-l"]); try reflexivity. simpl. lia. Defined.

(** C22: when no process can be created, [spawn_proc] prints
    "fork: Resource temporarily unavailable" and returns -1; the shell
    keeps running with errno EAGAIN. *)
Theorem spawn_proc_fork_fails (p : cmd_node) (w : world) :
  ¬ S (length (w_blocked w)) < proc_max (w_cfg w) →
  fds w !! STDERR_FILENO = Some TermErr →
  spawn_proc p w
  = Ok (-1)%Z (with_err (w_err w +:+ ("fork" +:+ ": " +:+ strerror EAGAIN +:+ nl))
                        (with_errno EAGAIN w)).
Proof.
  intros Hroom H2. unfold spawn_proc.
  rewrite (bind_Ok _ _ _ _ _ (fork_wait_eagain w _ Hroom)).
  by rewrite (bind_Ok _ _ _ _ _ (perror_ok (with_errno EAGAIN w) "fork" H2)).
Qed.

Lemma spawn_proc_fork_fails_witness :
  let w := with_blocked [w_cur Demo.demo_world; w_cur Demo.demo_world; w_cur Demo.demo_world;
                         w_cur Demo.demo_world; w_cur Demo.demo_world; w_cur Demo.demo_world;
                         w_cur Demo.demo_world] Demo.demo_world in
  spawn_proc (mkNode ["cat"] None None) w
  = Ok (-1)%Z (with_err (w_err w +:+ ("fork" +:+ ": " +:+ strerror EAGAIN +:+ nl))
                        (with_errno EAGAIN w)).
Proof. apply spawn_proc_fork_fails; [simpl; lia | reflexivity]. Defined.

Lemma spawn_proc_to_file_core (p : cmd_node) (w : world) g a0 rest pr :
  in_file p = None → out_file p = Some g → args p = a0 :: rest →
  path_lookup (w_cfg w) a0 = Some pr →
  S (length (w_blocked w)) < proc_max (w_cfg w) → redir_ok p w →
  fds w !! STDIN_FILENO = Some TermIn →
  spawn_proc p w
  = Ok 1%Z (with_files <[g := prog_output pr (args p) (w_in w)]>
                       (if prog_reads pr then with_in EmptyString w else w)).
Proof.
  intros Hi Ho Ha Hp Hroom Hok H0.
  pose proof (redirection_refines_core p (child_world w) Hok) as Hr.
  set (w1 := with_fds _ _) in Hr.
  assert (Hf1 : fds w1 = <[1%Z := FileWr g]> (fds w))
    by (unfold w1, redir_table; rewrite Hi, Ho; reflexivity).
  assert (H0' : fds w1 !! STDIN_FILENO = Some TermIn)
    by (rewrite Hf1; unfold STDIN_FILENO in *; by rewrite lookup_insert_ne).
  pose proof (child_read_term w1 pr H0') as Hread.
  set (w2 := if prog_reads pr then with_in EmptyString w1 else w1) in Hread.
  assert (H1 : fds w2 !! 1%Z = Some (FileWr g))
    by (unfold w2; destruct (prog_reads pr); [change (fds w1 !! 1%Z = Some (FileWr g))|];
        by rewrite Hf1, lookup_insert_eq).
  assert (Hg : w_files w2 !! g = Some EmptyString)
    by (unfold w2, w1, redir_files; rewrite Ho; destruct (prog_reads pr); world_simpl;
        apply lookup_insert_eq).
  destruct (sys_write_file w2 1 g EmptyString
              (prog_run pr (args p) (if prog_reads pr then w_in w1 else EmptyString)).1 H1 Hg)
    as [n Hw].
  rewrite (spawn_proc_child_died p w _ _ Hroom
             (spawn_child_runs _ _ w2 _ p a0 rest pr _ n Ha Hr Hp Hread Hw)).
  unfold w2, w1, redir_files, prog_output, child_world. rewrite Ho.
  destruct w as [[]]; destruct (prog_reads pr);
    unfold with_blocked, with_cur, with_files, with_in, with_fds; cbn; by rewrite insert_insert_eq.
Qed.

(** C19: [cmd > g] (stdin the terminal) runs the command with its output
    in [g], truncated first: [g] holds exactly the command's output, the
    terminal input it read is consumed, nothing else changes. *)
Theorem spawn_proc_to_file (p : cmd_node) (w : world) g a0 rest pr :
  in_file p = None → out_file p = Some g → args p = a0 :: rest →
  path_lookup (w_cfg w) a0 = Some pr →
  S (length (w_blocked w)) < proc_max (w_cfg w) → redir_ok p w →
  fds w !! STDIN_FILENO = Some TermIn →
  spawn_proc p w
  = Ok 1%Z (with_files <[g := prog_output pr (args p) (w_in w)]>
                       (if prog_reads pr then with_in EmptyString w else w)).
Proof. apply spawn_proc_to_file_core. Qed.

Lemma spawn_proc_from_file_core (p : cmd_node) (w : world) f c a0 rest pr :
  in_file p = Some f → out_file p = None → args p = a0 :: rest →
  path_lookup (w_cfg w) a0 = Some pr →
  S (length (w_blocked w)) < proc_max (w_cfg w) → redir_ok p w →
  w_files w !! f = Some c → fds w !! STDOUT_FILENO = Some TermOut →
  spawn_proc p w = Ok 1%Z (with_out (w_out w +:+ prog_output pr (args p) c) w).
Proof.
  intros Hi Ho Ha Hp Hroom Hok Hf H1.
  pose proof (redirection_refines_core p (child_world w) Hok) as Hr.
  set (w1 := with_fds _ _) in Hr.
  assert (Hf1 : fds w1 = <[0%Z := FileRd f]> (fds w))
    by (unfold w1, redir_table; rewrite Hi, Ho; reflexivity).
  assert (H0' : fds w1 !! STDIN_FILENO = Some (FileRd f)) by (rewrite Hf1; apply lookup_insert_eq).
  assert (Hf' : w_files w1 !! f = Some c) by (unfold w1, redir_files; by rewrite Ho).
  pose proof (child_read_file w1 pr f c H0' Hf') as Hread.
  assert (H1' : fds w1 !! 1%Z = Some TermOut)
    by (rewrite Hf1; unfold STDOUT_FILENO in *; by rewrite lookup_insert_ne).
  destruct (sys_write_term_out w1 1 (prog_run pr (args p) (if prog_reads pr then c else EmptyString)).1
              H1') as [n Hw].
  rewrite (spawn_proc_child_died p w _ _ Hroom
             (spawn_child_runs _ _ w1 _ p a0 rest pr _ n Ha Hr Hp Hread Hw)).
  unfold w1, redir_files, prog_output, child_world. rewrite Ho.
  by destruct w as [[]].
Qed.

(** C20: [cmd < f] (stdout the terminal) runs the command on the contents
    of [f]; its output goes to the terminal and nothing else changes. *)
Theorem spawn_proc_from_file (p : cmd_node) (w : world) f c a0 rest pr :
  in_file p = Some f → out_file p = None → args p = a0 :: rest →
  path_lookup (w_cfg w) a0 = Some pr →
  S (length (w_blocked w)) < proc_max (w_cfg w) → redir_ok p w →
  w_files w !! f = Some c → fds w !! STDOUT_FILENO = Some TermOut →
  spawn_proc p w = Ok 1%Z (with_out (w_out w +:+ prog_output pr (args p) c) w).
Proof. apply spawn_proc_from_file_core. Qed.

Lemma spawn_proc_to_file_witness :
  let p := mkNode ["echo"; "hi"] None (Some "out.txt") in
  spawn_proc p Demo.demo_world
  = Ok 1%Z (with_files <[("out.txt")%string := prog_output Demo.echo_prog (args p)
                                                 (w_in Demo.demo_world)]>
                       Demo.demo_world).
Proof.
  intros p.
  apply (spawn_proc_to_file p Demo.demo_world "out.txt" "echo" ["hi"] Demo.echo_prog);
    try reflexivity.
  - simpl. lia.
  - apply demo_redir_ok; by intros f [= <-].
Defined.

Lemma spawn_proc_from_file_witness :
  let p := mkNode ["tr"; "l"; "L"] (Some "in.txt") None in
  spawn_proc p Demo.demo_world
  = Ok 1%Z (with_out (w_out Demo.demo_world +:+
                      prog_output Demo.tr_prog (args p) ("hello" +:+ nl)) Demo.demo_world).
Proof.
  intros p.
  apply (spawn_proc_from_file p Demo.demo_world "in.txt" _ "tr" ["l"; "L"] Demo.tr_prog);
    try reflexivity.
  - simpl. lia.
  - apply demo_redir_ok; by intros f [= <-].
Defined.

(** C6: the redirection round trip of the spec (section 8): [cmd > g]
    followed by [cat < g] shows on the terminal exactly what [cmd]
    printed, byte for byte, with nothing appended. *)
Theorem redirection_round_trip (p : cmd_node) (w : world) g a0 rest pr pc :
  in_file p = None → out_file p = Some g → args p = a0 :: rest →
  path_lookup (w_cfg w) a0 = Some pr →
  path_lookup (w_cfg w) "cat" = Some pc → (∀ inp, prog_output pc ["cat"] inp = inp) →
  S (length (w_blocked w)) < proc_max (w_cfg w) → redir_ok p w →
  fds w !! STDIN_FILENO = Some TermIn → fds w !! STDOUT_FILENO = Some TermOut →
  ∃ w', (spawn_proc p;; spawn_proc (mkNode ["cat"] (Some g) None)) w = Ok 1%Z w' ∧
        w_out w' = w_out w +:+ prog_output pr (args p) (w_in w).
Proof.
  intros Hi Ho Ha Hp Hc Hcat Hroom Hok H0 H1.
  rewrite (bind_Ok _ _ _ _ _ (spawn_proc_to_file_core p w g a0 rest pr Hi Ho Ha Hp Hroom Hok H0)).
  destruct Hok as (Hb & Hs0 & Hs1 & Hr & _).
  set (out := prog_output pr (args p) (w_in w)).
  set (w1 := with_files <[g := out]> (if prog_reads pr then with_in EmptyString w else w)).
  assert (Hw1 : fds w1 = fds w ∧ w_cfg w1 = w_cfg w ∧ w_blocked w1 = w_blocked w ∧
                w_out w1 = w_out w ∧ w_files w1 !! g = Some out)
    by (unfold w1; destruct (prog_reads pr); world_simpl; by rewrite lookup_insert_eq).
  destruct Hw1 as (Hf1 & Hc1 & Hb1 & Ho1 & Hg1).
  eexists. split.
  - apply (spawn_proc_from_file_core _ w1 g out "cat" [] pc); try done; rewrite ?Hc1, ?Hb1; try done.
    split; [by rewrite Hf1, Hc1|]. split; [by rewrite Hf1|]. split; [by rewrite Hf1|].
    split; [by rewrite Hf1, Hc1|]. split; [intros f [= <-]; by rewrite Hg1 | done].
    by rewrite Hf1.
  - change (w_out w1 +:+ prog_output pc ["cat"] out = w_out w +:+ out).
    by rewrite Hcat, Ho1.
Qed.

Lemma redirection_round_trip_witness :
  let p := mkNode ["echo"; "hi"] None (Some "out.txt") in
  ∃ w', (spawn_proc p;; spawn_proc (mkNode ["cat"] (Some "out.txt") None)) Demo.demo_world
        = Ok 1%Z w' ∧
        w_out w' = w_out Demo.demo_world +:+ prog_output Demo.echo_prog (args p) (w_in Demo.demo_world).
Proof.
  intros p.
  apply (redirection_round_trip p Demo.demo_world "out.txt" "echo" ["hi"] Demo.echo_prog
           Demo.cat_prog); try reflexivity.
  - simpl. lia.
  - apply demo_redir_ok; by intros f [= <-].
Defined.

End Spawn.
