(* ===== verification/Pipeline.v ===== *)
(** * Pipeline executor: [fork_cmd_node] (shell.c lines 90-147)

    For each node: a pipe when a node follows, a fork; the child moves the
    previous read end onto stdin and the new write end onto stdout, closes
    the originals and the unused read end, and calls [spawn_proc] (so the
    command runs in a grandchild of the shell) before exiting with
    EXIT_FAILURE; the parent waits for the child, closes the previous read
    end and the new write end, and keeps the new read end as the next
    stage's input.  A failed [pipe] or [fork] exits the shell.

    The loop is [fork_loop] over the remaining nodes, with the C locals
    [in_fd] and [pipefd] as arguments.  [pipefd] is declared without
    initialiser in the loop body; on the last iteration (no [pipe] call) it
    holds what the stack slot held, in practice the previous iteration's
    pair, and the final [in_fd = pipefd[0]] is dead: the model carries the
    pair from one iteration to the next and starts it at (-1, -1). *)

From S2P Require Import Prelude Os Demo Redirection Spawn.
From stdpp Require Import base gmap strings list.
From Stdlib Require Import ZArith Lia.

Module Pipeline.
Import Os Redirection Spawn.

(** The child of one stage, lines 108-122. *)
Definition stage_child (cur : cmd_node) (has_next : bool) (in_fd : Z) (pipefd : Z * Z)
    : M Empty_set :=
  (if bool_decide (in_fd ≠ STDIN_FILENO)
   then sys_dup2 in_fd STDIN_FILENO;; sys_close in_fd;; mret tt
   else mret tt);;
  (if has_next
   then sys_dup2 pipefd.2 STDOUT_FILENO;; sys_close pipefd.2;; sys_close pipefd.1;; mret tt
   else mret tt);;
  spawn_proc cur;;
  st_exit EXIT_FAILURE.

(** The loop, lines 95-144: [nodes] is the chain from [current] on. *)
Fixpoint fork_loop (nodes : list cmd_node) (in_fd : Z) (pipefd : Z * Z) : M unit :=
  match nodes with
  | [] => mret tt
  | cur :: rest =>
      let has_next := match rest with [] => false | _ => true end in
      pipefd ← (if has_next
                then r ← sys_pipe;
                     match r with
                     | None => perror "pipe";; st_exit EXIT_FAILURE
                     | Some pfd => mret pfd
                     end
                else mret pipefd);
      pid ← fork_wait (stage_child cur has_next in_fd pipefd);
      match pid with
      | None => perror "fork";; st_exit EXIT_FAILURE
      | Some _ =>
          (if bool_decide (in_fd ≠ STDIN_FILENO) then sys_close in_fd;; mret tt
           else mret tt);;
          (if has_next then sys_close pipefd.2;; mret tt else mret tt);;
          fork_loop rest pipefd.1 pipefd
      end
  end.

(** Lines 90-147. *)
Definition fork_cmd_node (cmd : list cmd_node) : M Z :=
  fork_loop cmd STDIN_FILENO (-1, -1)%Z;;
  mret 1%Z.

(** ** The functional specification of a pipeline *)

(** The output of one stage on [input]: its program's output, or nothing
    when the program is not in the search path. *)
Definition stage_output (c : config) (n : cmd_node) (input : string) : string :=
  match args n with
  | a0 :: _ =>
      match path_lookup c a0 with
      | Some pr => prog_output pr (args n) input
      | None => EmptyString
      end
  | [] => EmptyString
  end.

(** [cmd1 | cmd2 | ... | cmdN] on [input]: each stage's output is the next
    stage's input. *)
Fixpoint pipeline_output (c : config) (nodes : list cmd_node) (input : string) : string :=
  match nodes with
  | [] => input
  | n :: rest => pipeline_output c rest (stage_output c n input)
  end.

(** Every output that goes into a pipe fits in it. *)
Fixpoint pipeline_fits (c : config) (nodes : list cmd_node) (input : string) : Prop :=
  match nodes with
  | [] | [_] => True
  | n :: rest =>
      String.length (stage_output c n input) ≤ pipe_cap c ∧
      pipeline_fits c rest (stage_output c n input)
  end.

(** Some output that goes into a pipe does not fit in it, and every one
    before it does. *)
Fixpoint pipeline_overflows (c : config) (nodes : list cmd_node) (input : string) : Prop :=
  match nodes with
  | [] | [_] => False
  | n :: rest =>
      pipe_cap c < String.length (stage_output c n input) ∨
      (String.length (stage_output c n input) ≤ pipe_cap c ∧
       pipeline_overflows c rest (stage_output c n input))
  end.

(** ** The loop invariant *)

(** Where the current stage's stdin comes from: the shell's own stdin
    ([in_fd = STDIN_FILENO]) or the read end [fd] of pipe [q]. *)
Inductive source := FromTerm | FromPipe (fd : Z) (q : nat).

Definition src_fd (s : source) : Z :=
  match s with FromTerm => STDIN_FILENO | FromPipe fd _ => fd end.

(** The shell's descriptor table at the top of the loop: its table [t0]
    before the pipeline plus, after the first stage, the read end kept in
    [in_fd]. *)
Definition src_table (t0 : gmap Z obj) (s : source) : gmap Z obj :=
  match s with FromTerm => t0 | FromPipe fd q => <[fd := PipeRd q]> t0 end.

(** The stage child's table after lines 109-112. *)
Definition src_rewire (s : source) (t : gmap Z obj) : gmap Z obj :=
  match s with FromTerm => t | FromPipe fd q => delete fd (<[STDIN_FILENO := PipeRd q]> t) end.

Definition stage_reads (c : config) (n : cmd_node) : bool :=
  match args n with
  | a0 :: _ => match path_lookup c a0 with Some pr => prog_reads pr | None => false end
  | [] => false
  end.

(** A node without redirections whose program is in the search path. *)
Definition plain (c : config) (n : cmd_node) : Prop :=
  in_file n = None ∧ out_file n = None ∧
  ∃ a0 rest pr, args n = a0 :: rest ∧ path_lookup c a0 = Some pr.

(** The shell at the top of an iteration, about to run a stage whose
    input is [input]. *)
Definition loop_inv (c : config) (t0 : gmap Z obj) (s : source) (input : string)
    (w : world) : Prop :=
  w_cfg w = c ∧ w_blocked w = [] ∧ fds w = src_table t0 s ∧
  match s with
  | FromTerm => w_in w = input
  | FromPipe fd q => t0 !! fd = None ∧ w_pipes w !! q = Some input ∧ q < w_next_pipe w
  end.

(** The terminal input after a stage. *)
Definition in_after (c : config) (s : source) (n : cmd_node) (w : world) : string :=
  match s with
  | FromTerm => if stage_reads c n then EmptyString else w_in w
  | FromPipe _ _ => w_in w
  end.

(** The shell's descriptor table before a pipeline: stdin and stdout on
    the terminal, no pipe end, every descriptor below [n0], and room for
    three more below [fd_max]. *)
Definition shell_table (c : config) (t0 : gmap Z obj) (n0 : Z) : Prop :=
  t0 !! STDIN_FILENO = Some TermIn ∧ t0 !! STDOUT_FILENO = Some TermOut ∧
  (∀ k id, t0 !! k ≠ Some (PipeRd id) ∧ t0 !! k ≠ Some (PipeWr id)) ∧
  (∀ k o, t0 !! k = Some o → (0 ≤ k < n0)%Z) ∧
  (n0 + 3 ≤ fd_max c)%Z ∧ 3 ≤ proc_max c.

(** The shell's table after [pipe] in a stage that has a successor. *)
Definition pipe_table (t0 : gmap Z obj) (s : source) (r wr : Z) (id : nat) : gmap Z obj :=
  <[wr := PipeWr id]> (<[r := PipeRd id]> (src_table t0 s)).

(** The stage child's table after lines 109-118. *)
Definition child_table (t0 : gmap Z obj) (s : source) (r wr : Z) (id : nat) : gmap Z obj :=
  delete r (delete wr (<[STDOUT_FILENO := PipeWr id]> (src_rewire s (pipe_table t0 s r wr id)))).

Definition src_obj (s : source) : obj :=
  match s with FromTerm => TermIn | FromPipe _ q => PipeRd q end.

(** The grandchild's world after it read its stdin to end of file. *)
Definition after_read (s : source) (v : world) : world :=
  match s with
  | FromTerm => with_in EmptyString v
  | FromPipe _ q => with_pipes <[q := EmptyString]> v
  end.

(** The grandchild's stdin is ready to be read to end of file: the
    terminal input, or a pipe that no live process can still write. *)
Definition src_ready (s : source) (input : string) (v : world) : Prop :=
  match s with
  | FromTerm => w_in v = input
  | FromPipe _ q =>
      w_pipes v !! q = Some input ∧
      Forall (λ p, holds (PipeWr q) (p_fds p) = false) (w_cur v :: w_blocked v)
  end.

(** The grandchild's world once its image has read its input (if it
    reads). *)
Definition read_world (s : source) (reads : bool) (v : world) : world :=
  if reads then after_read s (child_world v) else child_world v.

Section pipeline_proof.
Context (c : config) (t0 : gmap Z obj) (n0 : Z).
Hypothesis Ht0 : shell_table c t0 n0.

Lemma t0_in : t0 !! STDIN_FILENO = Some TermIn.
Proof. apply Ht0. Qed.
Lemma t0_out : t0 !! STDOUT_FILENO = Some TermOut.
Proof. apply Ht0. Qed.
Lemma t0_no_pipe k id : t0 !! k ≠ Some (PipeRd id) ∧ t0 !! k ≠ Some (PipeWr id).
Proof. apply Ht0. Qed.
Lemma t0_below k o : t0 !! k = Some o → (0 ≤ k < n0)%Z.
Proof. apply Ht0. Qed.
Lemma t0_max : (n0 + 3 ≤ fd_max c)%Z.
Proof. apply Ht0. Qed.
Lemma t0_proc : 3 ≤ proc_max c.
Proof. apply Ht0. Qed.

Lemma t0_fd_range : (1 < fd_max c)%Z.
Proof. pose proof (t0_below _ _ t0_out). pose proof t0_max. unfold STDOUT_FILENO in *. lia. Qed.

Lemma t0_holds_pipe_false o : (∃ id, o = PipeRd id ∨ o = PipeWr id) → holds o t0 = false.
Proof.
  intros [id [-> | ->]]; apply holds_false; intros k; apply t0_no_pipe.
Qed.

(** Two descriptors [a], [b] aside, a descriptor above [n0] is free. *)
Lemma free_slot a b :
  ∃ k, t0 !! k = None ∧ (0 ≤ k < fd_max c)%Z ∧ k ≠ a ∧ k ≠ b.
Proof.
  apply (fds_below_free c t0 n0 a b t0_below); [|exact t0_max].
  pose proof (t0_below _ _ t0_in). unfold STDIN_FILENO in *. lia.
Qed.

Lemma room_src s : fd_room c (src_table t0 s).
Proof.
  destruct (free_slot 0 (src_fd s)) as (k & Hk & Hr & Ha & Hb).
  exists k. split; [done|]. destruct s; simpl in *; [done|].
  by rewrite lookup_insert_ne.
Qed.

Lemma room_src_ins s r x : fd_room c (<[r := x]> (src_table t0 s)).
Proof.
  destruct (free_slot r (src_fd s)) as (k & Hk & Hr & Ha & Hb).
  exists k. split; [done|]. rewrite lookup_insert_ne by done.
  destruct s; simpl in *; [done|]. by rewrite lookup_insert_ne.
Qed.
(** The descriptors [pipe] returned are fresh in the shell's table. *)
Definition fresh_pair (s : source) (r wr : Z) : Prop :=
  src_table t0 s !! r = None ∧ src_table t0 s !! wr = None ∧ r ≠ wr ∧
  (0 ≤ r < fd_max c)%Z ∧ (0 ≤ wr < fd_max c)%Z.

Lemma src_table_fd s : is_Some (src_table t0 s !! src_fd s).
Proof. destruct s; simpl; [rewrite t0_in | rewrite lookup_insert_eq]; by eexists. Qed.

Lemma src_table_0 s : is_Some (src_table t0 s !! STDIN_FILENO).
Proof.
  destruct s as [|fd q]; simpl; [rewrite t0_in; by eexists|].
  destruct (decide (fd = STDIN_FILENO)) as [->|]; [rewrite lookup_insert_eq; by eexists|].
  rewrite lookup_insert_ne by done. rewrite t0_in; by eexists.
Qed.

Lemma src_table_1 s : is_Some (src_table t0 s !! STDOUT_FILENO).
Proof.
  destruct s as [|fd q]; simpl; [rewrite t0_out; by eexists|].
  destruct (decide (fd = STDOUT_FILENO)) as [->|]; [rewrite lookup_insert_eq; by eexists|].
  rewrite lookup_insert_ne by done. rewrite t0_out; by eexists.
Qed.

(** A descriptor free in the shell's table is none of 0, 1 and [in_fd]. *)
Lemma fresh_ne s k :
  src_table t0 s !! k = None → k ≠ STDIN_FILENO ∧ k ≠ STDOUT_FILENO ∧ k ≠ src_fd s.
Proof.
  intros Hk. destruct (src_table_0 s), (src_table_1 s), (src_table_fd s).
  split; [|split]; intros ->; congruence.
Qed.

(** The pipe of a stage with a successor. *)
Lemma pipe_step s input w :
  loop_inv c t0 s input w →
  ∃ r wr, fresh_pair s r wr ∧
    sys_pipe w
    = Ok (Some (r, wr))
         (with_fds (λ t, <[wr := PipeWr (w_next_pipe w)]> (<[r := PipeRd (w_next_pipe w)]> t))
            (with_pipes <[w_next_pipe w := EmptyString]> (with_next_pipe (S (w_next_pipe w)) w))).
Proof.
  intros (Hc & _ & Hfds & _).
  destruct (alloc_fd_room (w_cfg w) (fds w)) as [r Hr].
  { rewrite Hc, Hfds. apply room_src. }
  destruct (alloc_fd_room (w_cfg w) (<[r := PipeRd (w_next_pipe w)]> (fds w))) as [wr Hwr].
  { rewrite Hc, Hfds. apply room_src_ins. }
  exists r, wr.
  pose proof (alloc_fd_Some _ _ _ Hr) as (Hr1 & Hr2 & _).
  pose proof (alloc_fd_Some _ _ _ Hwr) as (Hw1 & Hw2 & _).
  split; [|by apply sys_pipe_ok].
  rewrite Hc, Hfds in *.
  assert (wr ≠ r) by (intros ->; by rewrite lookup_insert_eq in Hw1).
  rewrite lookup_insert_ne in Hw1 by done.
  split; [done|]. split; [done|]. split; [done|]. by split.
Qed.

(** Lines 109-112 in the stage child. *)
Lemma rewire_in s (v : world) :
  (s = FromTerm ∨ src_fd s ≠ STDIN_FILENO) →
  fds v !! src_fd s = Some (src_obj s) → (0 < fd_max (w_cfg v))%Z →
  (if bool_decide (src_fd s ≠ STDIN_FILENO)
   then sys_dup2 (src_fd s) STDIN_FILENO;; sys_close (src_fd s);; mret tt
   else mret tt) v
  = Ok tt (with_fds (src_rewire s) v).
Proof.
  intros Hs Hfd Hmax. destruct s as [|fd q]; simpl.
  - by destruct v as [[]].
  - destruct Hs as [|Hne]; [done|]. simpl in Hne.
    rewrite bool_decide_eq_true_2 by done.
    rewrite (move_fd v fd STDIN_FILENO (PipeRd q) Hfd Hne); [done|].
    unfold STDIN_FILENO. lia.
Qed.

Lemma src_table_obj s : src_table t0 s !! src_fd s = Some (src_obj s).
Proof. destruct s; simpl; [apply t0_in | apply lookup_insert_eq]. Qed.

(** Lines 114-118 in the stage child. *)
Lemma rewire_out (v : world) r wr id :
  fds v !! wr = Some (PipeWr id) → is_Some (fds v !! r) →
  r ≠ wr → wr ≠ STDOUT_FILENO → (0 ≤ STDOUT_FILENO < fd_max (w_cfg v))%Z →
  (sys_dup2 wr STDOUT_FILENO;; sys_close wr;; sys_close r;; mret tt) v
  = Ok tt (with_fds (λ t, delete r (delete wr (<[STDOUT_FILENO := PipeWr id]> t))) v).
Proof.
  intros Hwr [o Hr] Hne Hne1 Hmax.
  rewrite (bind_Ok _ _ _ _ _ (sys_dup2_ok v wr STDOUT_FILENO (PipeWr id) Hwr Hmax Hne1)).
  assert (Hwr' : fds (with_fds <[STDOUT_FILENO := PipeWr id]> v) !! wr = Some (PipeWr id))
    by (by rewrite fds_with_fds, lookup_insert_ne).
  rewrite (bind_Ok _ _ _ _ _ (sys_close_ok _ wr _ Hwr')).
  destruct (decide (r = STDOUT_FILENO)) as [->|Hr1].
  - assert (Hr' : fds (with_fds (delete wr) (with_fds <[STDOUT_FILENO := PipeWr id]> v))
                    !! STDOUT_FILENO = Some (PipeWr id))
      by (by rewrite !fds_with_fds, lookup_delete_ne, lookup_insert_eq).
    by rewrite (bind_Ok _ _ _ _ _ (sys_close_ok _ STDOUT_FILENO _ Hr')).
  - assert (Hr' : fds (with_fds (delete wr) (with_fds <[STDOUT_FILENO := PipeWr id]> v))
                    !! r = Some o)
      by (by rewrite !fds_with_fds, lookup_delete_ne, lookup_insert_ne).
    by rewrite (bind_Ok _ _ _ _ _ (sys_close_ok _ r _ Hr')).
Qed.

Lemma stage_read s (v : world) input :
  fds v !! STDIN_FILENO = Some (src_obj s) →
  match s with
  | FromTerm => w_in v = input
  | FromPipe _ q => w_pipes v !! q = Some input ∧ live_holds (PipeWr q) v = false
  end →
  sys_read_all 0 v = Ok input (after_read s v).
Proof.
  destruct s as [|fd q]; simpl; intros H0 Hs.
  - rewrite (sys_read_term v 0 H0). by rewrite Hs.
  - destruct Hs as [Hq Hl]. exact (sys_read_pipe v 0 q input H0 Hl Hq).
Qed.

Lemma pipe_table_r s r wr id :
  fresh_pair s r wr → pipe_table t0 s r wr id !! r = Some (PipeRd id).
Proof.
  intros (_ & _ & Hne & _). unfold pipe_table.
  by rewrite lookup_insert_ne, lookup_insert_eq.
Qed.

Lemma child_table_0 s r wr id :
  fresh_pair s r wr → (s = FromTerm ∨ src_fd s ≠ STDIN_FILENO) →
  child_table t0 s r wr id !! STDIN_FILENO = Some (src_obj s).
Proof.
  intros (Hr & Hwr & Hne & _) Hs.
  destruct (fresh_ne s r Hr) as (Hr0 & Hr1 & Hrs).
  destruct (fresh_ne s wr Hwr) as (Hw0 & Hw1 & Hws).
  unfold child_table, pipe_table.
  rewrite lookup_delete_ne by done. rewrite lookup_delete_ne by done.
  rewrite lookup_insert_ne by (unfold STDIN_FILENO, STDOUT_FILENO; lia).
  destruct s as [|fd q]; simpl in *.
  - rewrite !lookup_insert_ne by done. apply t0_in.
  - destruct Hs as [|Hs]; [done|].
    rewrite lookup_delete_ne by done. apply lookup_insert_eq.
Qed.

Lemma child_table_1 s r wr id :
  fresh_pair s r wr → child_table t0 s r wr id !! STDOUT_FILENO = Some (PipeWr id).
Proof.
  intros (Hr & Hwr & Hne & _).
  destruct (fresh_ne s r Hr) as (Hr0 & Hr1 & Hrs).
  destruct (fresh_ne s wr Hwr) as (Hw0 & Hw1 & Hws).
  unfold child_table.
  rewrite lookup_delete_ne by done. rewrite lookup_delete_ne by done.
  apply lookup_insert_eq.
Qed.

(** Neither the stage child nor the shell holds a write end of the pipe
    the stage reads: the shell closed it after the previous stage. *)
Lemma no_writer_pipe_table fd q r wr id :
  q ≠ id → holds (PipeWr q) (pipe_table t0 (FromPipe fd q) r wr id) = false.
Proof.
  intros Hq. unfold pipe_table, src_table. holds_false_tac.
  apply t0_holds_pipe_false. eauto.
Qed.

Lemma no_writer_child_table fd q r wr id :
  q ≠ id → holds (PipeWr q) (child_table t0 (FromPipe fd q) r wr id) = false.
Proof.
  intros Hq. unfold child_table, src_rewire, pipe_table, src_table. holds_false_tac.
  apply t0_holds_pipe_false. eauto.
Qed.

Lemma inv_src_fd s input w :
  loop_inv c t0 s input w → s = FromTerm ∨ src_fd s ≠ STDIN_FILENO.
Proof.
  destruct s as [|fd q]; [by left|]. intros (_ & _ & _ & Hfd & _). right.
  simpl. intros ->. by rewrite t0_in in Hfd.
Qed.
Lemma src_rewire_lookup_ne s t k :
  k ≠ STDIN_FILENO → k ≠ src_fd s → src_rewire s t !! k = t !! k.
Proof.
  destruct s; simpl; intros H0 Hs; [done|].
  by rewrite lookup_delete_ne, lookup_insert_ne.
Qed.

(** Lines 109-118 of a stage with a successor: the stage child ends up
    with [child_table] and calls [spawn_proc]. *)
Lemma stage_child_rewire_mid s input w r wr cur (v0 : world) id :
  loop_inv c t0 s input w → fresh_pair s r wr →
  fds v0 = pipe_table t0 s r wr id → w_cfg v0 = c →
  stage_child cur true (src_fd s) (r, wr) v0
  = (spawn_proc cur;; st_exit EXIT_FAILURE)
      (with_fds (λ _, child_table t0 s r wr id) v0).
Proof.
  intros Hinv Hfr Hf Hc. pose proof Hfr as (Hr & Hwr & Hne & Hrr & Hwrr).
  destruct (fresh_ne s r Hr) as (Hr0 & Hr1 & Hrs).
  destruct (fresh_ne s wr Hwr) as (Hw0 & Hw1 & Hws).
  pose proof t0_fd_range.
  unfold stage_child.
  assert (H1 : fds v0 !! src_fd s = Some (src_obj s)).
  { rewrite Hf. unfold pipe_table. rewrite !lookup_insert_ne by done. apply src_table_obj. }
  rewrite (bind_Ok _ _ _ _ _ (rewire_in s v0 (inv_src_fd _ _ _ Hinv) H1
            ltac:(rewrite Hc; lia))).
  assert (H2 : fds (with_fds (src_rewire s) v0) !! wr = Some (PipeWr id)).
  { rewrite fds_with_fds, src_rewire_lookup_ne by done.
    rewrite Hf. apply lookup_insert_eq. }
  assert (H3 : is_Some (fds (with_fds (src_rewire s) v0) !! r)).
  { rewrite fds_with_fds, src_rewire_lookup_ne by done.
    rewrite Hf. rewrite (pipe_table_r s r wr id Hfr). by eexists. }
  rewrite (bind_Ok _ _ _ _ _ (rewire_out (with_fds (src_rewire s) v0) r wr id H2 H3 Hne Hw1
            ltac:(simpl; rewrite Hc; unfold STDOUT_FILENO; lia))).
  unfold child_table. rewrite !with_fds_compose. f_equal.
  apply with_fds_ext. simpl. by rewrite Hf.
Qed.

(** Lines 109-112 and 120-122 of the last stage. *)
Lemma stage_child_rewire_last s input w cur pf (v0 : world) :
  loop_inv c t0 s input w → fds v0 = src_table t0 s → w_cfg v0 = c →
  stage_child cur false (src_fd s) pf v0
  = (spawn_proc cur;; st_exit EXIT_FAILURE)
      (with_fds (λ _, src_rewire s (src_table t0 s)) v0).
Proof.
  intros Hinv Hf Hc. pose proof t0_fd_range. unfold stage_child.
  assert (H1 : fds v0 !! src_fd s = Some (src_obj s)) by (rewrite Hf; apply src_table_obj).
  rewrite (bind_Ok _ _ _ _ _ (rewire_in s v0 (inv_src_fd _ _ _ Hinv) H1
            ltac:(rewrite Hc; lia))).
  rewrite st_bind_ret_l. f_equal. apply with_fds_ext. by rewrite Hf.
Qed.

(** The grandchild: [spawn_proc] on a stage whose stdin is ready. *)
Lemma grandchild_spawn s input cur a0 rest pr (v gw3 : world) n :
  in_file cur = None → out_file cur = None → args cur = a0 :: rest →
  path_lookup (w_cfg v) a0 = Some pr →
  S (length (w_blocked v)) < proc_max (w_cfg v) →
  fds v !! STDIN_FILENO = Some (src_obj s) → src_ready s input v →
  sys_write_all 1 (prog_output pr (args cur) input) (read_world s (prog_reads pr) v)
    = Ok n gw3 →
  spawn_proc cur v = Ok 1%Z (with_blocked (w_blocked v) (with_cur (λ _, w_cur v) gw3)).
Proof.
  intros Hi Ho Ha Hp Hroom H0 Hready Hw.
  apply (spawn_proc_runs cur v (read_world s (prog_reads pr) v) gw3 a0 rest pr
           (if prog_reads pr then input else EmptyString) n Hi Ho Ha Hp Hroom);
    [|exact Hw].
  unfold read_world. destruct (prog_reads pr); [|done].
  apply stage_read; [exact H0|].
  destruct s as [|fd q]; [exact Hready|]. destruct Hready as [Hq Hf].
  split; [exact Hq|]. apply live_holds_false. unfold child_world. world_simpl.
  constructor; [|exact Hf]. by inversion Hf.
Qed.
Lemma stage_output_plain cur a0 rest pr input :
  args cur = a0 :: rest → path_lookup c a0 = Some pr →
  stage_output c cur input = prog_output pr (args cur) input ∧
  stage_reads c cur = prog_reads pr.
Proof. intros Ha Hp. unfold stage_output, stage_reads. by rewrite Ha, Hp. Qed.

(** The world of the grandchild of a stage with a successor: its stdin is
    ready, its stdout is the new pipe, which is empty and whose read end
    the shell holds. *)
Lemma mid_env s input w r wr cur pr (W1 : world) :
  loop_inv c t0 s input w → fresh_pair s r wr → stage_reads c cur = prog_reads pr →
  fds W1 = pipe_table t0 s r wr (w_next_pipe w) → w_cfg W1 = c → w_blocked W1 = [] →
  w_pipes W1 = <[w_next_pipe w := EmptyString]> (w_pipes w) → w_in W1 = w_in w →
  let v2 := with_fds (λ _, child_table t0 s r wr (w_next_pipe w)) (with_blocked [w_cur W1] W1) in
  let gw2 := read_world s (prog_reads pr) v2 in
  w_pipes gw2 !! w_next_pipe w = Some EmptyString ∧
  fds gw2 = child_table t0 s r wr (w_next_pipe w) ∧ w_in gw2 = in_after c s cur w ∧
  live_holds (PipeRd (w_next_pipe w)) gw2 = true ∧
  src_ready s input v2 ∧ fds v2 !! STDIN_FILENO = Some (src_obj s) ∧
  S (length (w_blocked v2)) < proc_max (w_cfg v2) ∧ w_cfg v2 = c ∧ w_cfg gw2 = c.
Proof.
  intros Hinv Hfr Hreads Hf Hc Hb Hpipes Hin v2 gw2.
  pose proof Hinv as (_ & _ & _ & Hsrc).
  pose proof (inv_src_fd _ _ _ Hinv) as Hs.
  set (id := w_next_pipe w) in *.
  split; [|split; [|split; [|split; [|split; [|split; [|split; [|split]]]]]]].
  - unfold gw2, read_world, v2, child_world, after_read.
    destruct (prog_reads pr), s; world_simpl; rewrite ?Hpipes; simplify_map_eq; try done;
      rewrite lookup_insert; case_decide; by simplify_map_eq.
  - unfold gw2, read_world, v2, child_world, after_read.
    destruct (prog_reads pr), s; world_simpl; done.
  - unfold gw2, read_world, v2, child_world, after_read, in_after. rewrite Hreads.
    destruct (prog_reads pr), s; world_simpl; rewrite ?Hin; done.
  - apply (live_holds_true _ _ (w_cur W1)).
    + unfold gw2, read_world, v2, child_world, after_read.
      destruct (prog_reads pr), s; world_simpl; set_solver.
    + apply (holds_lookup _ _ r). change (fds W1 !! r = Some (PipeRd id)).
      rewrite Hf. by apply pipe_table_r.
  - unfold src_ready, v2. destruct s as [|fd q]; world_simpl; [by rewrite Hin|].
    destruct Hsrc as (_ & Hq & Hlt). rewrite Hpipes, lookup_insert_ne by lia.
    split; [exact Hq|].
    constructor; [apply no_writer_child_table; lia|].
    constructor; [|constructor].
    change (holds (PipeWr q) (fds W1) = false). rewrite Hf.
    apply no_writer_pipe_table. lia.
  - unfold v2. world_simpl. by apply child_table_0.
  - unfold v2. world_simpl. rewrite Hc. simpl. pose proof t0_proc. lia.
  - unfold v2. world_simpl. done.
  - unfold gw2, read_world, v2, child_world, after_read.
    destruct (prog_reads pr), s; world_simpl; done.
Qed.

(** The child of a stage with a successor, run on a copy of the shell
    after [pipe]: it exits with EXIT_FAILURE once the command has written
    its whole output into the new pipe. *)
Lemma stage_child_mid_runs s input w r wr cur a0 rest pr (W1 : world) :
  loop_inv c t0 s input w → fresh_pair s r wr →
  in_file cur = None → out_file cur = None → args cur = a0 :: rest →
  path_lookup c a0 = Some pr →
  String.length (stage_output c cur input) ≤ pipe_cap c →
  fds W1 = pipe_table t0 s r wr (w_next_pipe w) → w_cfg W1 = c → w_blocked W1 = [] →
  w_pipes W1 = <[w_next_pipe w := EmptyString]> (w_pipes w) → w_in W1 = w_in w →
  ∃ V3, stage_child cur true (src_fd s) (r, wr) (with_blocked [w_cur W1] W1)
        = Died EXIT_FAILURE V3 ∧
    w_pipes V3 !! w_next_pipe w = Some (stage_output c cur input) ∧
    w_out V3 = w_out W1 ∧ w_files V3 = w_files W1 ∧ w_in V3 = in_after c s cur w ∧
    w_next_pipe V3 = w_next_pipe W1 ∧ w_cfg V3 = c.
Proof.
  intros Hinv Hfr Hi Ho Ha Hp Hcap Hf Hc Hb Hpipes Hin.
  destruct (stage_output_plain cur a0 rest pr input Ha Hp) as [Hout Hreads].
  destruct (mid_env s input w r wr cur pr W1 Hinv Hfr Hreads Hf Hc Hb Hpipes Hin)
    as (Hgp & Hgf & Hgi & Hlive & Hready & H0 & Hroom & Hc2 & Hcg).
  set (id := w_next_pipe w) in *.
  set (v2 := with_fds (λ _, child_table t0 s r wr id) (with_blocked [w_cur W1] W1)) in *.
  set (gw2 := read_world s (prog_reads pr) v2) in *.
  destruct (sys_write_pipe gw2 1 id EmptyString (prog_output pr (args cur) input))
    as [n Hw]; [rewrite Hgf; by apply child_table_1 | exact Hlive | exact Hgp |
                rewrite Hcg, <- Hout; simpl; lia |].
  pose proof (grandchild_spawn s input cur a0 rest pr v2 _ n Hi Ho Ha
                ltac:(by rewrite Hc2) Hroom H0 Hready Hw) as Hsp.
  eexists. split.
  { rewrite (stage_child_rewire_mid s input w r wr cur _ id Hinv Hfr); [|world_simpl; done | done].
    by rewrite (bind_Ok _ _ _ _ _ Hsp). }
  rewrite <- Hgi, <- Hout. unfold gw2, read_world, v2, child_world, after_read.
  world_simpl. split; [by rewrite lookup_insert_eq|].
  destruct (prog_reads pr), s; world_simpl; repeat split; done.
Qed.

(** ... and blocks for ever when that output does not fit in the pipe:
    the shell, which holds the read end, is waiting for the child. *)
Lemma stage_child_mid_hangs s input w r wr cur a0 rest pr (W1 : world) :
  loop_inv c t0 s input w → fresh_pair s r wr →
  in_file cur = None → out_file cur = None → args cur = a0 :: rest →
  path_lookup c a0 = Some pr →
  pipe_cap c < String.length (stage_output c cur input) →
  fds W1 = pipe_table t0 s r wr (w_next_pipe w) → w_cfg W1 = c → w_blocked W1 = [] →
  w_pipes W1 = <[w_next_pipe w := EmptyString]> (w_pipes w) → w_in W1 = w_in w →
  stage_child cur true (src_fd s) (r, wr) (with_blocked [w_cur W1] W1) = Hang.
Proof.
  intros Hinv Hfr Hi Ho Ha Hp Hcap Hf Hc Hb Hpipes Hin.
  destruct (stage_output_plain cur a0 rest pr input Ha Hp) as [Hout Hreads].
  destruct (mid_env s input w r wr cur pr W1 Hinv Hfr Hreads Hf Hc Hb Hpipes Hin)
    as (Hgp & Hgf & Hgi & Hlive & Hready & H0 & Hroom & Hc2 & Hcg).
  set (id := w_next_pipe w) in *.
  set (v2 := with_fds (λ _, child_table t0 s r wr id) (with_blocked [w_cur W1] W1)) in *.
  set (gw2 := read_world s (prog_reads pr) v2) in *.
  assert (Hw : sys_write_all 1 (prog_output pr (args cur) input) gw2 = Hang).
  { apply (sys_write_pipe_full gw2 1 id EmptyString); [rewrite Hgf; by apply child_table_1 |
      exact Hlive | exact Hgp | | rewrite Hcg, <- Hout; simpl; lia].
    intros He. rewrite Hout, He in Hcap. simpl in Hcap. lia. }
  rewrite (stage_child_rewire_mid s input w r wr cur _ id Hinv Hfr); [|world_simpl; done | done].
  apply bind_Hang. unfold prog_output in Hw.
  apply (spawn_proc_hangs cur v2 gw2 a0 rest pr (if prog_reads pr then input else EmptyString)
           Hi Ho Ha ltac:(by rewrite Hc2) Hroom); [|exact Hw].
  unfold gw2, read_world. destruct (prog_reads pr); [|done].
  apply stage_read; [exact H0|].
  destruct s as [|fd q]; [exact Hready|]. destruct Hready as [Hq Hfw].
  split; [exact Hq|]. apply live_holds_false. unfold child_world. world_simpl.
  constructor; [|exact Hfw]. by inversion Hfw.
Qed.

(** The child of the last stage: the command's output goes to the
    shell's stdout. *)
Lemma stage_child_last_runs s input w cur a0 rest pr pf :
  loop_inv c t0 s input w →
  in_file cur = None → out_file cur = None → args cur = a0 :: rest →
  path_lookup c a0 = Some pr →
  ∃ V3, stage_child cur false (src_fd s) pf (with_blocked [w_cur w] w)
        = Died EXIT_FAILURE V3 ∧
    w_out V3 = w_out w +:+ stage_output c cur input ∧ w_files V3 = w_files w ∧
    w_in V3 = in_after c s cur w ∧ w_next_pipe V3 = w_next_pipe w ∧ w_cfg V3 = c.
Proof.
  intros Hinv Hi Ho Ha Hp.
  destruct (stage_output_plain cur a0 rest pr input Ha Hp) as [Hout Hreads].
  pose proof Hinv as (Hc & Hb & Hf & Hsrc).
  pose proof (inv_src_fd _ _ _ Hinv) as Hs.
  set (v2 := with_fds (λ _, src_rewire s (src_table t0 s)) (with_blocked [w_cur w] w)).
  set (gw2 := read_world s (prog_reads pr) v2).
  assert (Hg1 : fds gw2 !! STDOUT_FILENO = Some TermOut).
  { unfold gw2, read_world, v2, child_world, after_read.
    destruct (prog_reads pr), s as [|fd q]; world_simpl; try apply t0_out;
      destruct Hsrc as (Hfd & _);
      assert (fd ≠ STDOUT_FILENO) by (intros ->; by rewrite t0_out in Hfd);
      cbn [src_rewire src_table];
      rewrite lookup_delete_ne by done;
      rewrite lookup_insert_ne by (unfold STDIN_FILENO, STDOUT_FILENO; lia);
      rewrite lookup_insert_ne by done; apply t0_out. }
  destruct (sys_write_term_out gw2 1 (prog_output pr (args cur) input) Hg1) as [n Hw].
  assert (Hsp : spawn_proc cur v2 = Ok 1%Z (with_blocked (w_blocked v2) (with_cur (λ _, w_cur v2)
             (with_out (w_out gw2 +:+ prog_output pr (args cur) input) gw2)))).
  { apply (grandchild_spawn s input cur a0 rest pr v2 _ n Hi Ho Ha).
    - unfold v2. world_simpl. by rewrite Hc.
    - unfold v2. world_simpl. rewrite Hc. simpl. pose proof t0_proc. lia.
    - unfold v2. world_simpl. destruct s as [|fd q]; simpl; [apply t0_in|].
      destruct Hs as [|Hs]; [done|].
      rewrite lookup_delete_ne by done. apply lookup_insert_eq.
    - unfold src_ready, v2. destruct s as [|fd q]; world_simpl; [done|].
      destruct Hsrc as (_ & Hq & _). split; [exact Hq|].
      constructor; [|constructor; [|constructor]].
      + simpl. holds_false_tac. apply t0_holds_pipe_false. eauto.
      + change (holds (PipeWr q) (fds w) = false). rewrite Hf. simpl.
        holds_false_tac. apply t0_holds_pipe_false. eauto.
    - exact Hw. }
  eexists. split.
  { rewrite (stage_child_rewire_last s input w cur pf _ Hinv); [|world_simpl; done | done].
    by rewrite (bind_Ok _ _ _ _ _ Hsp). }
  rewrite Hout. unfold gw2, read_world, v2, child_world, after_read, in_after.
  rewrite Hreads.
  destruct (prog_reads pr), s; world_simpl; repeat split; done.
Qed.

Lemma loop_step_last s input w cur pf :
  loop_inv c t0 s input w → plain c cur →
  ∃ w', fork_loop [cur] (src_fd s) pf w = Ok tt w' ∧
    fds w' = t0 ∧ w_blocked w' = [] ∧ w_cfg w' = c ∧
    w_out w' = w_out w +:+ stage_output c cur input ∧ w_files w' = w_files w ∧
    w_in w' = in_after c s cur w.
Proof.
  intros Hinv (Hi & Ho & a0 & rest & pr & Ha & Hp).
  pose proof Hinv as (Hc & Hb & Hf & Hsrc).
  destruct (stage_child_last_runs s input w cur a0 rest pr pf Hinv Hi Ho Ha Hp)
    as (V3 & Hrun & Hout & Hfiles & Hin & Hnext & Hc3).
  assert (Hroom : S (length (w_blocked w)) < proc_max (w_cfg w))
    by (rewrite Hb, Hc; pose proof t0_proc; simpl; lia).
  assert (Hrun' : stage_child cur false (src_fd s) pf (with_blocked (w_cur w :: w_blocked w) w)
                  = Died EXIT_FAILURE V3) by (rewrite Hb; exact Hrun).
  pose proof (fork_wait_died w _ _ _ Hroom Hrun') as Hfork.
  cbn [fork_loop]. rewrite st_bind_ret_l, (bind_Ok _ _ _ _ _ Hfork).
  destruct s as [|fd q].
  - eexists. split; [reflexivity|]. unfold fds in *. world_simpl. rewrite Hf.
    repeat split; done.
  - destruct Hsrc as (Hfd & _).
    assert (Hcl : fds (with_blocked (w_blocked w) (with_cur (λ _, w_cur w) V3)) !! fd
                  = Some (PipeRd q))
      by (unfold fds in *; world_simpl; rewrite Hf; apply lookup_insert_eq).
    assert (fd ≠ STDIN_FILENO) by (intros ->; by rewrite t0_in in Hfd).
    simpl. rewrite bool_decide_eq_true_2 by done.
    rewrite st_bind_assoc, (bind_Ok _ _ _ _ _ (sys_close_ok _ fd _ Hcl)).
    eexists. split; [reflexivity|]. unfold fds in *. world_simpl. rewrite Hf.
    cbn [src_table]. rewrite delete_insert_id by done. repeat split; done.
Qed.
(** Lines 133-139 in the parent: close the previous read end and the
    new write end; the table is [t0] plus the new read end. *)
Lemma parent_close s input w r wr id (P : world) (K : M unit) :
  loop_inv c t0 s input w → fresh_pair s r wr →
  fds P = pipe_table t0 s r wr id →
  ((if bool_decide (src_fd s ≠ STDIN_FILENO) then sys_close (src_fd s);; mret tt
    else mret tt);; (sys_close wr;; mret tt);; K) P
  = K (with_fds (λ _, <[r := PipeRd id]> t0) P).
Proof.
  intros Hinv Hfr Hf. pose proof Hfr as (Hr & Hwr & Hne & _).
  pose proof (inv_src_fd _ _ _ Hinv) as Hs. destruct Hinv as (_ & _ & _ & Hsrc).
  destruct (fresh_ne s r Hr) as (Hr0 & Hr1 & Hrs).
  destruct (fresh_ne s wr Hwr) as (Hw0 & Hw1 & Hws).
  destruct s as [|fd q]; cbn [src_fd src_table] in *.
  - rewrite bool_decide_eq_false_2 by (intros Hn; by apply Hn). rewrite st_bind_ret_l.
    assert (Hcl : fds P !! wr = Some (PipeWr id)) by (rewrite Hf; apply lookup_insert_eq).
    rewrite st_bind_assoc, (bind_Ok _ _ _ _ _ (sys_close_ok P wr _ Hcl)).
    f_equal. apply with_fds_ext. rewrite Hf. unfold pipe_table. simpl.
    rewrite delete_insert_eq, delete_insert_ne by done. by rewrite (delete_id t0 wr).
  - destruct Hs as [|Hs]; [done|]. destruct Hsrc as (Hfd & _).
    rewrite lookup_insert_ne in Hwr by done.
    rewrite bool_decide_eq_true_2 by done.
    assert (Hcl : fds P !! fd = Some (PipeRd q))
      by (rewrite Hf; unfold pipe_table; simpl; rewrite !lookup_insert_ne by done;
          apply lookup_insert_eq).
    rewrite st_bind_assoc, (bind_Ok _ _ _ _ _ (sys_close_ok P fd _ Hcl)).
    rewrite st_bind_ret_l.
    assert (Hcl2 : fds (with_fds (delete fd) P) !! wr = Some (PipeWr id))
      by (rewrite fds_with_fds, lookup_delete_ne, Hf by done; apply lookup_insert_eq).
    rewrite st_bind_assoc, (bind_Ok _ _ _ _ _ (sys_close_ok _ wr _ Hcl2)).
    rewrite with_fds_compose. f_equal. apply with_fds_ext.
    rewrite Hf. unfold pipe_table. simpl.
    rewrite (delete_insert_ne _ fd wr), (delete_insert_ne _ fd r) by done.
    rewrite (delete_insert_eq t0 fd), (delete_id t0 fd) by done.
    rewrite delete_insert_eq, delete_insert_ne by done. by rewrite (delete_id t0 wr).
Qed.
(** One iteration for a stage with a successor. *)
Lemma loop_step_mid s input w cur nxt rest pf :
  loop_inv c t0 s input w → plain c cur →
  String.length (stage_output c cur input) ≤ pipe_cap c →
  ∃ r wr w',
    fork_loop (cur :: nxt :: rest) (src_fd s) pf w = fork_loop (nxt :: rest) r (r, wr) w' ∧
    loop_inv c t0 (FromPipe r (w_next_pipe w)) (stage_output c cur input) w' ∧
    w_out w' = w_out w ∧ w_files w' = w_files w ∧ w_in w' = in_after c s cur w.
Proof.
  intros Hinv (Hi & Ho & a0 & rest' & pr & Ha & Hp) Hcap.
  pose proof Hinv as (Hc & Hb & Hf & Hsrc).
  destruct (pipe_step s input w Hinv) as (r & wr & Hfr & Hpipe).
  pose proof Hfr as (Hr & Hwr & Hne & _).
  set (W1 := with_fds _ _) in Hpipe.
  assert (HW1 : fds W1 = pipe_table t0 s r wr (w_next_pipe w))
    by (unfold W1, fds in *; world_simpl; by rewrite Hf).
  destruct (stage_child_mid_runs s input w r wr cur a0 rest' pr W1 Hinv Hfr Hi Ho Ha Hp Hcap HW1)
    as (V3 & Hrun & Hp3 & Ho3 & Hf3 & Hi3 & Hn3 & Hc3);
    [unfold W1; world_simpl; done .. |].
  assert (Hroom : S (length (w_blocked W1)) < proc_max (w_cfg W1))
    by (unfold W1; world_simpl; rewrite Hb, Hc; pose proof t0_proc; simpl; lia).
  assert (Hrun' : stage_child cur true (src_fd s) (r, wr) (with_blocked (w_cur W1 :: w_blocked W1) W1)
                  = Died EXIT_FAILURE V3)
    by (replace (w_blocked W1) with (@nil proc) by (unfold W1; world_simpl; done); exact Hrun).
  pose proof (fork_wait_died W1 _ _ _ Hroom Hrun') as Hfork.
  set (P := with_blocked (w_blocked W1) (with_cur (λ _, w_cur W1) V3)) in Hfork.
  assert (HP : fds P = pipe_table t0 s r wr (w_next_pipe w)) by exact HW1.
  exists r, wr, (with_fds (λ _, <[r := PipeRd (w_next_pipe w)]> t0) P).
  split.
  { cbn [fork_loop]. rewrite (bind_Ok _ _ w (r, wr) W1);
      [|by rewrite (bind_Ok _ _ _ _ _ Hpipe)].
    rewrite (bind_Ok _ _ _ _ _ Hfork). cbn [fst snd].
    exact (parent_close s input w r wr _ P _ Hinv Hfr HP). }
  unfold P, W1, loop_inv in *. world_simpl. rewrite Hb, Ho3, Hf3, Hi3, Hn3, Hc3.
  repeat split; try done.
  - destruct s as [|fd q]; [done|]. destruct Hsrc as (Hfd & _). simpl in Hr.
    rewrite lookup_insert_ne in Hr; [done|]. intros ->. by rewrite lookup_insert_eq in Hr.
  - lia.
Qed.

(** The loop from any stage on: the shell's table returns to [t0], the
    terminal gets the pipeline's output. *)
Lemma fork_loop_correct nodes : ∀ s input w pf,
  nodes ≠ [] → Forall (plain c) nodes → pipeline_fits c nodes input →
  loop_inv c t0 s input w →
  ∃ w', fork_loop nodes (src_fd s) pf w = Ok tt w' ∧
    fds w' = t0 ∧ w_blocked w' = [] ∧ w_cfg w' = c ∧
    w_out w' = w_out w +:+ pipeline_output c nodes input ∧ w_files w' = w_files w ∧
    w_in w' = match nodes with n :: _ => in_after c s n w | [] => w_in w end.
Proof.
  induction nodes as [|cur [|nxt rest] IH]; intros s input w pf Hne Hplain Hfits Hinv;
    [done| |].
  - apply Forall_cons in Hplain as [Hcur _].
    exact (loop_step_last s input w cur pf Hinv Hcur).
  - apply Forall_cons in Hplain as [Hcur Hrest]. destruct Hfits as [Hcap Hfits].
    destruct (loop_step_mid s input w cur nxt rest pf Hinv Hcur Hcap)
      as (r & wr & w1 & Hstep & Hinv1 & Hout1 & Hfiles1 & Hin1).
    destruct (IH (FromPipe r (w_next_pipe w)) _ w1 (r, wr) ltac:(done) Hrest Hfits Hinv1)
      as (w' & Hrun & Hf' & Hb' & Hc' & Hout' & Hfiles' & Hin').
    exists w'. rewrite Hstep. split; [exact Hrun|].
    rewrite Hout', Hout1, Hfiles', Hfiles1, Hin'. cbn [in_after pipeline_output].
    rewrite Hin1. done.
Qed.
(** A stage with a successor whose output does not fit: the loop blocks. *)
Lemma loop_step_mid_hangs s input w cur nxt rest pf :
  loop_inv c t0 s input w → plain c cur →
  pipe_cap c < String.length (stage_output c cur input) →
  fork_loop (cur :: nxt :: rest) (src_fd s) pf w = Hang.
Proof.
  intros Hinv (Hi & Ho & a0 & rest' & pr & Ha & Hp) Hcap.
  pose proof Hinv as (Hc & Hb & Hf & Hsrc).
  destruct (pipe_step s input w Hinv) as (r & wr & Hfr & Hpipe).
  set (W1 := with_fds _ _) in Hpipe.
  assert (HW1 : fds W1 = pipe_table t0 s r wr (w_next_pipe w))
    by (unfold W1, fds in *; world_simpl; by rewrite Hf).
  pose proof (stage_child_mid_hangs s input w r wr cur a0 rest' pr W1 Hinv Hfr Hi Ho Ha Hp Hcap HW1)
    as Hrun.
  assert (Hroom : S (length (w_blocked W1)) < proc_max (w_cfg W1))
    by (unfold W1; world_simpl; rewrite Hb, Hc; pose proof t0_proc; simpl; lia).
  assert (Hrun' : stage_child cur true (src_fd s) (r, wr) (with_blocked (w_cur W1 :: w_blocked W1) W1)
                  = Hang)
    by (replace (w_blocked W1) with (@nil proc) by (unfold W1; world_simpl; done);
        apply Hrun; unfold W1; world_simpl; done).
  cbn [fork_loop]. rewrite (bind_Ok _ _ w (r, wr) W1); [|by rewrite (bind_Ok _ _ _ _ _ Hpipe)].
  by rewrite (bind_Hang _ _ _ (fork_wait_hang W1 _ Hroom Hrun')).
Qed.

Lemma fork_loop_hangs nodes : ∀ s input w pf,
  Forall (plain c) nodes → pipeline_overflows c nodes input →
  loop_inv c t0 s input w → fork_loop nodes (src_fd s) pf w = Hang.
Proof.
  induction nodes as [|cur [|nxt rest] IH]; intros s input w pf Hplain Hover Hinv;
    [done | done |].
  apply Forall_cons in Hplain as [Hcur Hrest].
  destruct Hover as [Hcap | [Hcap Hover]].
  - exact (loop_step_mid_hangs s input w cur nxt rest pf Hinv Hcur Hcap).
  - destruct (loop_step_mid s input w cur nxt rest pf Hinv Hcur Hcap)
      as (r & wr & w1 & Hstep & Hinv1 & _).
    rewrite Hstep. exact (IH (FromPipe r (w_next_pipe w)) _ w1 (r, wr) Hrest Hover Hinv1).
Qed.
End pipeline_proof.

(** ** Properties *)

Lemma demo_shell_table : shell_table Demo.demo_cfg Demo.std_fds 3.
Proof.
  unfold shell_table, Demo.std_fds. split; [done|]. split; [done|].
  split; [|split; [|split]].
  - intros k id. split; intros Hk%Demo.std_fds_Some; naive_solver.
  - intros k o Hk%Demo.std_fds_Some. naive_solver lia.
  - simpl. lia.
  - simpl. lia.
Qed.

(** C1: [fork_cmd_node] implements the pipeline [cmd1 | ... | cmdN]: when
    every command is in the search path and has no redirection, and every
    output that goes into a pipe fits in it, it returns 1 after appending
    to the terminal exactly the output of cmdN fed with the output of
    cmdN-1 ... fed with the terminal input; the shell's descriptor table is
    the one it had before (every pipe end closed), the files are
    untouched, every child has been reaped, and the terminal input was
    consumed exactly when cmd1 reads it. *)
Theorem fork_cmd_node_output (nodes : list cmd_node) (w : world) n0 :
  shell_table (w_cfg w) (fds w) n0 → w_blocked w = [] →
  nodes ≠ [] → Forall (plain (w_cfg w)) nodes →
  pipeline_fits (w_cfg w) nodes (w_in w) →
  ∃ w', fork_cmd_node nodes w = Ok 1%Z w' ∧
    w_out w' = w_out w +:+ pipeline_output (w_cfg w) nodes (w_in w) ∧
    fds w' = fds w ∧ w_files w' = w_files w ∧ w_blocked w' = [] ∧
    w_in w' = match nodes with
              | n :: _ => if stage_reads (w_cfg w) n then EmptyString else w_in w
              | [] => w_in w
              end.
Proof.
  intros Ht0 Hb Hne Hplain Hfits.
  destruct (fork_loop_correct (w_cfg w) (fds w) n0 Ht0 nodes FromTerm (w_in w) w (-1, -1)%Z
              Hne Hplain Hfits (conj eq_refl (conj Hb (conj eq_refl eq_refl))))
    as (w' & Hrun & Hf & Hb' & _ & Hout & Hfiles & Hin).
  exists w'. split; [unfold fork_cmd_node; by rewrite (bind_Ok _ _ _ _ _ Hrun)|].
  split; [done|]. split; [done|]. split; [done|]. split; [done|].
  rewrite Hin. destruct nodes; done.
Qed.

Lemma fork_cmd_node_output_witness :
  let nodes := [mkNode ["echo"; "hi"] None None; mkNode ["tr"; "h"; "H"] None None] in
  ∃ w', fork_cmd_node nodes Demo.demo_world = Ok 1%Z w' ∧
    w_out w' = w_out Demo.demo_world +:+
               pipeline_output (w_cfg Demo.demo_world) nodes (w_in Demo.demo_world) ∧
    fds w' = fds Demo.demo_world ∧ w_files w' = w_files Demo.demo_world ∧ w_blocked w' = [] ∧
    w_in w' = match nodes with
              | n :: _ => if stage_reads (w_cfg Demo.demo_world) n then EmptyString
                          else w_in Demo.demo_world
              | [] => w_in Demo.demo_world
              end.
Proof.
  apply (fork_cmd_node_output _ Demo.demo_world 3 demo_shell_table eq_refl).
  - done.
  - repeat constructor; eexists _, _, _; split; reflexivity.
  - split; [vm_compute; lia | exact I].
Defined.

(** C2: the deliberate simplification of line 131 (wait for each stage
    before forking the next) blocks the shell for ever as soon as a stage
    writes more than a pipe holds: its reader has not been forked yet, and
    the shell, which holds the read end, is waiting for the writer. *)
Theorem fork_cmd_node_hangs (nodes : list cmd_node) (w : world) n0 :
  shell_table (w_cfg w) (fds w) n0 → w_blocked w = [] →
  Forall (plain (w_cfg w)) nodes → pipeline_overflows (w_cfg w) nodes (w_in w) →
  fork_cmd_node nodes w = Hang.
Proof.
  intros Ht0 Hb Hplain Hover. unfold fork_cmd_node. apply bind_Hang.
  exact (fork_loop_hangs (w_cfg w) (fds w) n0 Ht0 nodes FromTerm (w_in w) w (-1, -1)%Z
           Hplain Hover (conj eq_refl (conj Hb (conj eq_refl eq_refl)))).
Qed.

Lemma fork_cmd_node_hangs_witness :
  fork_cmd_node [mkNode ["echo"; "hello"; "world"; "again"] None None;
                 mkNode ["tr"; "l"; "L"] None None] Demo.demo_world = Hang.
Proof.
  apply (fork_cmd_node_hangs _ Demo.demo_world 3 demo_shell_table eq_refl).
  - repeat constructor; eexists _, _, _; split; reflexivity.
  - left. vm_compute. lia.
Defined.

(** C13: when the first pipe of a pipeline cannot be created (no free
    descriptor), the shell prints "pipe: Too many open files" and the shell
    process itself exits with status 1 (lines 100-103); the spec (section 7)
    asks for a return to the prompt. *)
Theorem fork_cmd_node_pipe_fails (n1 n2 : cmd_node) (rest : list cmd_node) (w : world) :
  alloc_fd (w_cfg w) (fds w) = None → fds w !! STDERR_FILENO = Some TermErr →
  fork_cmd_node (n1 :: n2 :: rest) w
  = Died EXIT_FAILURE (with_err (w_err w +:+ ("pipe" +:+ ": " +:+ strerror EMFILE +:+ nl))
                                (with_errno EMFILE w)).
Proof.
  intros Hr H2. unfold fork_cmd_node. apply bind_Died. cbn [fork_loop].
  rewrite st_bind_assoc. rewrite (bind_Ok _ _ _ _ _ (sys_pipe_emfile w Hr)).
  cbv beta iota. rewrite !st_bind_assoc.
  rewrite (bind_Ok _ _ _ _ _ (perror_ok (with_errno EMFILE w) "pipe" H2)).
  apply bind_Died, exit_run.
Qed.

Lemma fork_cmd_node_pipe_fails_witness :
  let w := Demo.tight_world 3 8 in
  fork_cmd_node [mkNode ["echo"; "x"] None None; mkNode ["cat"] None None] w
  = Died EXIT_FAILURE (with_err (w_err w +:+ ("pipe" +:+ ": " +:+ strerror EMFILE +:+ nl))
                                (with_errno EMFILE w)).
Proof. apply fork_cmd_node_pipe_fails; vm_compute; reflexivity. Defined.

(** C14: when the first stage of a pipeline cannot be forked, the shell
    prints "fork: Resource temporarily unavailable" and exits with status 1
    (lines 124-127), leaving the pipe it created open; the spec (section 7)
    asks for a return to the prompt. *)
Theorem fork_cmd_node_fork_fails (n1 n2 : cmd_node) (rest : list cmd_node) (w w1 : world)
    (r wr : Z) :
  sys_pipe w = Ok (Some (r, wr)) w1 →
  ¬ S (length (w_blocked w1)) < proc_max (w_cfg w1) →
  fds w1 !! STDERR_FILENO = Some TermErr →
  fork_cmd_node (n1 :: n2 :: rest) w
  = Died EXIT_FAILURE (with_err (w_err w1 +:+ ("fork" +:+ ": " +:+ strerror EAGAIN +:+ nl))
                                (with_errno EAGAIN w1)).
Proof.
  intros Hp Hroom H2. unfold fork_cmd_node. apply bind_Died. cbn [fork_loop].
  rewrite (bind_Ok _ _ w (r, wr) w1); [|by rewrite (bind_Ok _ _ _ _ _ Hp)].
  rewrite (bind_Ok _ _ _ _ _ (fork_wait_eagain w1 _ Hroom)).
  rewrite (bind_Ok _ _ _ _ _ (perror_ok (with_errno EAGAIN w1) "fork" H2)).
  apply exit_run.
Qed.

Lemma fork_cmd_node_fork_fails_witness :
  let w := Demo.tight_world 16 1 in
  let w1 := with_fds (λ t, <[4%Z := PipeWr 0]> (<[3%Z := PipeRd 0]> t))
              (with_pipes <[0 := EmptyString]> (with_next_pipe 1 w)) in
  fork_cmd_node [mkNode ["echo"; "x"] None None; mkNode ["cat"] None None] w
  = Died EXIT_FAILURE (with_err (w_err w1 +:+ ("fork" +:+ ": " +:+ strerror EAGAIN +:+ nl))
                                (with_errno EAGAIN w1)).
Proof.
  apply (fork_cmd_node_fork_fails _ _ _ _ _ 3 4); [vm_compute; reflexivity | simpl; lia | reflexivity].
Defined.

(** The scenario of the spec: [echo hi | tr h H] shows "Hi\n". *)
Example echo_tr_output :
  pipeline_output Demo.demo_cfg
    [mkNode ["echo"; "hi"] None None; mkNode ["tr"; "h"; "H"] None None] "typed"
  = "Hi" +:+ nl.
Proof. reflexivity. Qed.

End Pipeline.
