(* ===== verification/Builtin.v ===== *)
(** * The builtin registry and the builtin dispatcher

    [searchBuiltInCommand] and [execBuiltInCommand] are declared in
    include/builtin.h; their implementation is not part of src/.  The shell
    only relies on the contract of the class [BuiltinRegistry]: a builtin
    whose standard output is not a pipe returns a status and leaves the
    descriptor table alone.  [demo_registry] is an instance with the two
    builtins the witnesses use, [help] and [exit].

    The dispatcher is the block of [shell] at src/lab2/src/shell.c lines
    169-181: duplicate fds 0 and 1, apply [redirection], run the builtin,
    put fds 0 and 1 back when they were redirected, close the duplicates. *)

From S2P Require Import Prelude Os Demo Redirection.
From stdpp Require Import base gmap strings list.
From Stdlib Require Import ZArith Lia.

Module Builtin.
Import Os Redirection.

(** The standard output of the running process is not a pipe. *)
Definition out_safe (w : world) : Prop :=
  ∀ id, fds w !! STDOUT_FILENO ≠ Some (PipeWr id).

(** What the shell requires of the builtin registry (include/builtin.h). *)
Class BuiltinRegistry := {
  searchBuiltInCommand : cmd_node → Z;
  execBuiltInCommand : Z → cmd_node → M Z;
  exec_returns i p w : out_safe w →
    ∃ a w', execBuiltInCommand i p w = Ok a w' ∧
            fds w' = fds w ∧ w_cfg w' = w_cfg w ∧ w_blocked w' = w_blocked w
}.

Section dispatch.
Context `{R : BuiltinRegistry}.

(** Lines 175-181: restore what was redirected, close the duplicates. *)
Definition restore_streams (temp : cmd_node) (in_ out : Z) : M unit :=
  match in_file temp with Some _ => sys_dup2 in_ STDIN_FILENO;; mret tt | None => mret tt end;;
  match out_file temp with Some _ => sys_dup2 out STDOUT_FILENO;; mret tt | None => mret tt end;;
  sys_close in_;; sys_close out;; mret tt.

(** Lines 169-181, for a builtin [status] found by line 167. *)
Definition builtin_dispatch (status : Z) (temp : cmd_node) : M Z :=
  in_ ← sys_dup STDIN_FILENO;
  out ← sys_dup STDOUT_FILENO;
  (if bool_decide (in_ = -1)%Z || bool_decide (out = -1)%Z then perror "dup" else mret tt);;
  redirection temp;;
  status ← execBuiltInCommand status temp;
  restore_streams temp in_ out;;
  mret status.

End dispatch.

(** ** Specification of the dispatcher *)

(** The conditions under which the dispatcher's system calls succeed: fds
    0 and 1 open, stdout not a pipe, the open descriptors below [n0] with
    three free slots above (two duplicates and the redirection's [open]),
    the input file present and the output file writable. *)
Definition builtin_ok (p : cmd_node) (w : world) (n0 : Z) : Prop :=
  is_Some (fds w !! STDIN_FILENO) ∧ is_Some (fds w !! STDOUT_FILENO) ∧ out_safe w ∧
  fds_below (fds w) n0 ∧ (n0 + 3 ≤ fd_max (w_cfg w))%Z ∧
  (∀ f, in_file p = Some f → is_Some (w_files w !! f)) ∧
  (∀ f, out_file p = Some f → f ∉ readonly (w_cfg w)).

(** The table after lines 175-178: fds 0 and 1 rebound to their saved
    objects where the node redirected them. *)
Definition restore_table (p : cmd_node) (o0 o1 : obj) (T : gmap Z obj) : gmap Z obj :=
  let T1 := match in_file p with Some _ => <[0%Z := o0]> T | None => T end in
  match out_file p with Some _ => <[1%Z := o1]> T1 | None => T1 end.

(** ** Lemmas *)

Lemma dup2_ret_ok (W : world) j target o :
  fds W !! j = Some o → j ≠ target → (0 ≤ target < fd_max (w_cfg W))%Z →
  (sys_dup2 j target;; mret tt) W = Ok tt (with_fds <[target := o]> W).
Proof. intros Hj Hne Hr. by rewrite (bind_Ok _ _ _ _ _ (sys_dup2_ok W j target o Hj Hr Hne)). Qed.

Lemma close2_ok (W : world) j1 j2 :
  is_Some (fds W !! j1) → is_Some (fds W !! j2) → j1 ≠ j2 →
  (sys_close j1;; sys_close j2;; mret tt) W
  = Ok tt (with_fds (λ T, delete j2 (delete j1 T)) W).
Proof.
  intros [o1 H1] [o2 H2] Hne.
  rewrite (bind_Ok _ _ _ _ _ (sys_close_ok W j1 o1 H1)).
  assert (H2' : fds (with_fds (delete j1) W) !! j2 = Some o2)
    by (by rewrite fds_with_fds, lookup_delete_ne).
  by rewrite (bind_Ok _ _ _ _ _ (sys_close_ok _ j2 o2 H2')).
Qed.

Lemma redir_table_insert_ne p T k x :
  k ≠ 0%Z → k ≠ 1%Z → redir_table p (<[k := x]> T) = <[k := x]> (redir_table p T).
Proof.
  intros H0 H1. apply map_eq. intros j. unfold redir_table.
  destruct (in_file p), (out_file p); rewrite !lookup_insert; repeat case_decide; congruence.
Qed.

Lemma redir_table_lookup_ne p T k :
  k ≠ 0%Z → k ≠ 1%Z → redir_table p T !! k = T !! k.
Proof.
  intros H0 H1. unfold redir_table.
  destruct (in_file p), (out_file p); by rewrite ?lookup_insert_ne by done.
Qed.

Lemma redir_table_out_safe p T :
  (∀ id, T !! STDOUT_FILENO ≠ Some (PipeWr id)) →
  ∀ id, redir_table p T !! STDOUT_FILENO ≠ Some (PipeWr id).
Proof.
  intros HT id. unfold redir_table, STDOUT_FILENO in *.
  destruct (in_file p), (out_file p);
    rewrite ?lookup_insert_eq, ?lookup_insert_ne by lia; congruence || apply HT.
Qed.

Lemma restore_table_id p t o0 o1 j1 j2 :
  t !! 0%Z = Some o0 → t !! 1%Z = Some o1 → t !! j1 = None → <[j1 := o0]> t !! j2 = None →
  delete j2 (delete j1 (restore_table p o0 o1 (redir_table p (<[j2 := o1]> (<[j1 := o0]> t)))))
  = t.
Proof.
  intros H0 H1 Hj1 Hj2. apply map_eq. intros k.
  unfold restore_table, redir_table.
  destruct (in_file p), (out_file p);
    rewrite !lookup_delete, ?lookup_insert in *; repeat case_decide; simplify_eq; congruence.
Qed.

(** Lines 175-181 on a table where the duplicates are [j1] and [j2]. *)
Lemma restore_streams_ok p j1 j2 o0 o1 (W : world) :
  fds W !! j1 = Some o0 → fds W !! j2 = Some o1 →
  j1 ≠ 0%Z → j1 ≠ 1%Z → j2 ≠ 0%Z → j2 ≠ 1%Z → j1 ≠ j2 → (1 < fd_max (w_cfg W))%Z →
  restore_streams p j1 j2 W
  = Ok tt (with_fds (λ T, delete j2 (delete j1 (restore_table p o0 o1 T))) W).
Proof.
  intros Hj1 Hj2 ? ? ? ? Hne Hmax. unfold restore_streams, restore_table.
  set (W1 := with_fds (λ T, match in_file p with Some _ => <[0%Z := o0]> T | None => T end) W).
  assert (HW1 : (match in_file p with Some _ => sys_dup2 j1 STDIN_FILENO;; mret tt
                 | None => mret tt end) W = Ok tt W1).
  { unfold W1. destruct (in_file p); [apply dup2_ret_ok; done || lia | by rewrite with_fds_id]. }
  rewrite (bind_Ok _ _ _ _ _ HW1).
  assert (Hk : ∀ k, k ≠ 0%Z → fds W1 !! k = fds W !! k)
    by (intros k Hk; unfold W1; rewrite fds_with_fds; destruct (in_file p);
        [by rewrite lookup_insert_ne | done]).
  set (W2 := with_fds (λ T, match out_file p with Some _ => <[1%Z := o1]> T | None => T end) W1).
  assert (HW2 : (match out_file p with Some _ => sys_dup2 j2 STDOUT_FILENO;; mret tt
                 | None => mret tt end) W1 = Ok tt W2).
  { unfold W2. destruct (out_file p); [|by rewrite with_fds_id].
    apply dup2_ret_ok; [by rewrite Hk | done | unfold W1; world_simpl; unfold STDOUT_FILENO; lia]. }
  rewrite (bind_Ok _ _ _ _ _ HW2).
  assert (Hk2 : ∀ k, k ≠ 0%Z → k ≠ 1%Z → fds W2 !! k = fds W !! k)
    by (intros k ? ?; unfold W2; rewrite fds_with_fds; destruct (out_file p);
        [rewrite lookup_insert_ne by done|]; by apply Hk).
  rewrite (close2_ok W2 j1 j2); [| rewrite Hk2; eauto.. | done].
  unfold W2, W1. by rewrite !with_fds_compose.
Qed.

Section dispatch_proof.
Context `{R : BuiltinRegistry}.

(** Lines 169-171 when fds 0 and 1 are open and there is room: two fresh
    duplicates [j1] and [j2], and the check of line 169 passes. *)
Lemma builtin_dispatch_dups i p (w : world) n0 o0 o1 :
  fds w !! 0%Z = Some o0 → fds w !! 1%Z = Some o1 → fds_below (fds w) n0 →
  (n0 + 3 ≤ fd_max (w_cfg w))%Z →
  ∃ j1 j2, fds w !! j1 = None ∧ <[j1 := o0]> (fds w) !! j2 = None ∧
    j1 ≠ 0%Z ∧ j1 ≠ 1%Z ∧ j2 ≠ 0%Z ∧ j2 ≠ 1%Z ∧ j1 ≠ j2 ∧
    (0 ≤ j1 < fd_max (w_cfg w))%Z ∧ (0 ≤ j2 < fd_max (w_cfg w))%Z ∧
    builtin_dispatch i p w
    = (redirection p;; status ← execBuiltInCommand i p; restore_streams p j1 j2;; mret status)
        (with_fds (λ t, <[j2 := o1]> (<[j1 := o0]> t)) w).
Proof.
  intros H0 H1 Hb Hmax.
  assert (Hn : (0 ≤ n0)%Z) by (pose proof (Hb _ _ H0); lia).
  destruct (alloc_fd_room _ _ (fds_below_room _ _ _ Hb Hn Hmax)) as [j1 Ha1].
  destruct (alloc_fd_Some _ _ _ Ha1) as (Hj1 & Hr1 & _).
  set (w1 := with_fds <[j1 := o0]> w).
  destruct (alloc_fd_room (w_cfg w1) (fds w1) (fds_below_room1 _ _ _ j1 o0 Hb Hn Hmax))
    as [j2 Ha2].
  destruct (alloc_fd_Some _ _ _ Ha2) as (Hj2 & Hr2 & _).
  assert (j1 ≠ 0%Z ∧ j1 ≠ 1%Z) as [? ?] by (split; intros ->; congruence).
  assert (H1' : fds w1 !! 1%Z = Some o1) by (unfold w1; by rewrite fds_with_fds, lookup_insert_ne).
  pose proof Hj2 as Hj2'. unfold w1 in Hj2'. rewrite fds_with_fds in Hj2'.
  exists j1, j2. do 2 (split; [done|]).
  split; [done|]. split; [done|].
  split; [by intros ->; rewrite lookup_insert_ne in Hj2' by done; congruence|].
  split; [by intros ->; rewrite lookup_insert_ne in Hj2' by done; congruence|].
  split; [by intros ->; rewrite lookup_insert_eq in Hj2'|].
  do 2 (split; [done|]).
  unfold builtin_dispatch.
  rewrite (bind_Ok _ _ _ _ _ (sys_dup_ok w 0%Z o0 j1 H0 Ha1)).
  rewrite (bind_Ok _ _ _ _ _ (sys_dup_ok w1 1%Z o1 j2 H1' Ha2)).
  rewrite !bool_decide_eq_false_2 by lia. cbn [orb].
  by rewrite (bind_Ok _ _ _ _ _ (ret_run tt _)).
Qed.

Lemma builtin_dispatch_restores_core (i : Z) (p : cmd_node) (w : world) (n0 : Z) :
  builtin_ok p w n0 →
  ∃ W a W' w', execBuiltInCommand i p W = Ok a W' ∧
    fds W !! STDIN_FILENO = redir_table p (fds w) !! STDIN_FILENO ∧
    fds W !! STDOUT_FILENO = redir_table p (fds w) !! STDOUT_FILENO ∧
    builtin_dispatch i p w = Ok a w' ∧ fds w' = fds w.
Proof.
  intros ([o0 H0] & [o1 H1] & Hs & Hb & Hmax & Hin & Hout).
  unfold STDIN_FILENO, STDOUT_FILENO in *.
  destruct (builtin_dispatch_dups i p w n0 o0 o1 H0 H1 Hb Hmax)
    as (j1 & j2 & Hj1 & Hj2 & ? & ? & ? & ? & ? & Hr1 & Hr2 & Hd).
  set (w2 := with_fds _ w) in Hd.
  set (T2 := <[j2 := o1]> (<[j1 := o0]> (fds w))).
  assert (Hok : redir_ok p w2).
  { assert (Hbd : fds_bounded (w_cfg w) (fds w))
      by (intros k o Hk; pose proof (Hb _ _ Hk); pose proof (Hb _ _ H0); lia).
    unfold w2, redir_ok. world_simpl. rewrite !lookup_insert_ne by done.
    split; [by apply fds_bounded_insert; [apply fds_bounded_insert|]|].
    split; [by eexists|]. split; [by eexists|].
    split; [|done]. apply (fds_below_room2 _ _ n0); [done | pose proof (Hb _ _ H0); lia | done]. }
  pose proof (redirection_refines_core p w2 Hok) as Hred.
  set (w3 := with_fds (λ _, redir_table p (fds w2)) (with_files (redir_files p) w2)) in Hred.
  assert (Hw3 : fds w3 = redir_table p T2) by reflexivity.
  assert (Hs3 : out_safe w3).
  { unfold out_safe. rewrite Hw3. apply redir_table_out_safe.
    unfold T2, STDOUT_FILENO. rewrite !lookup_insert_ne by done. apply Hs. }
  destruct (exec_returns i p w3 Hs3) as (a & W' & Hex & HW' & Hc' & _).
  pose proof (restore_streams_ok p j1 j2 o0 o1 W') as Hrs.
  rewrite HW', Hw3, !redir_table_lookup_ne in Hrs by done. unfold T2 in Hrs.
  rewrite lookup_insert_eq, lookup_insert_ne, lookup_insert_eq in Hrs by done.
  specialize (Hrs eq_refl eq_refl ltac:(done) ltac:(done) ltac:(done) ltac:(done) ltac:(done)
                ltac:(rewrite Hc'; unfold w3, w2; world_simpl; lia)).
  exists w3, a, W', (with_fds (λ T, delete j2 (delete j1 (restore_table p o0 o1 T))) W').
  split; [done|]. rewrite Hw3. unfold T2.
  rewrite !redir_table_insert_ne by done. rewrite !lookup_insert_ne by done.
  split; [done|]. split; [done|]. split.
  - rewrite Hd, (bind_Ok _ _ _ _ _ Hred), (bind_Ok _ _ _ _ _ Hex).
    by rewrite (bind_Ok _ _ _ _ _ Hrs).
  - rewrite fds_with_fds, HW', Hw3. by apply restore_table_id.
Qed.

(** C4: a builtin runs with the node's redirections in force, and when
    it returns the shell's descriptor table is exactly what it was before
    (lines 169-181): the redirection lasts for that invocation only. *)
Theorem builtin_dispatch_restores (i : Z) (p : cmd_node) (w : world) (n0 : Z) :
  builtin_ok p w n0 →
  ∃ W a W' w', execBuiltInCommand i p W = Ok a W' ∧
    fds W !! STDIN_FILENO = redir_table p (fds w) !! STDIN_FILENO ∧
    fds W !! STDOUT_FILENO = redir_table p (fds w) !! STDOUT_FILENO ∧
    builtin_dispatch i p w = Ok a w' ∧ fds w' = fds w.
Proof. apply builtin_dispatch_restores_core. Qed.

(** C15: a builtin whose input file does not exist kills the shell
    itself: [redirection] runs in the shell's own process (line 172) and
    calls [exit(EXIT_FAILURE)] (line 27).  The spec (section 7) asks that
    the command fail cleanly and the shell keep its streams. *)
Theorem builtin_missing_input_kills_shell (i : Z) (p : cmd_node) (w : world) (n0 : Z) f :
  in_file p = Some f → w_files w !! f = None →
  is_Some (fds w !! STDIN_FILENO) → is_Some (fds w !! STDOUT_FILENO) →
  fds w !! STDERR_FILENO = Some TermErr →
  fds_below (fds w) n0 → (n0 + 3 ≤ fd_max (w_cfg w))%Z →
  ∃ w', builtin_dispatch i p w = Died EXIT_FAILURE w' ∧
        w_err w' = w_err w +:+ ("open" +:+ ": " +:+ strerror ENOENT +:+ nl).
Proof.
  intros Hi Hf [o0 H0] [o1 H1] H2 Hb Hmax. unfold STDIN_FILENO, STDOUT_FILENO in *.
  destruct (builtin_dispatch_dups i p w n0 o0 o1 H0 H1 Hb Hmax)
    as (j1 & j2 & Hj1 & Hj2 & ? & ? & ? & ? & ? & Hr1 & Hr2 & Hd).
  set (w2 := with_fds _ w) in Hd.
  assert (Hroom : fd_room (w_cfg w2) (fds w2))
    by (apply (fds_below_room2 _ _ n0); [done | pose proof (Hb _ _ H0); lia | done]).
  assert (H2' : fds w2 !! STDERR_FILENO = Some TermErr).
  { unfold w2. rewrite fds_with_fds. unfold STDERR_FILENO in *.
    rewrite !lookup_insert_ne; [done | intros ->; congruence |].
    intros ->. rewrite lookup_insert_ne in Hj2 by done. congruence. }
  eexists. split.
  - rewrite Hd. apply bind_Died. exact (redirection_missing_input_exits_core p w2 f Hi Hf Hroom H2').
  - reflexivity.
Qed.

End dispatch_proof.

(** ** A registry: [help] (0) prints the builtin names, [exit] (1) returns
    the status that ends the shell. *)

Definition builtin_str : list string := ["help"; "exit"].

Fixpoint index_of (a : string) (l : list string) (i : Z) : Z :=
  match l with
  | [] => (-1)%Z
  | b :: l' => if String.eqb a b then i else index_of a l' (i + 1)
  end.

Definition search_builtin (p : cmd_node) : Z :=
  match args p with a0 :: _ => index_of a0 builtin_str 0 | [] => (-1)%Z end.

Definition help_text : string := "help exit" +:+ nl.

Definition exec_builtin (i : Z) (p : cmd_node) : M Z :=
  if bool_decide (i = 0%Z) then sys_write_all STDOUT_FILENO help_text;; mret 1%Z
  else mret 0%Z.

#[export] Program Instance demo_registry : BuiltinRegistry := {
  searchBuiltInCommand := search_builtin;
  execBuiltInCommand := exec_builtin
}.
Next Obligation.
  intros i p w Hs. unfold exec_builtin. case_bool_decide.
  - destruct (sys_write_not_pipe w STDOUT_FILENO help_text Hs) as (n & w' & Hw & Hfw).
    exists 1%Z, w'. by rewrite (bind_Ok _ _ _ _ _ Hw).
  - by eexists _, _.
Qed.

(** ** Concrete runs *)

Lemma demo_builtin_ok p :
  in_file p = None → (∀ f, out_file p = Some f → f ∉ readonly Demo.demo_cfg) →
  builtin_ok p Demo.demo_world 3.
Proof.
  intros Hi Ho. split; [by eexists|]. split; [by eexists|].
  split; [intros id; vm_compute; congruence|].
  split; [intros k o Hk%Demo.std_fds_Some; naive_solver lia|].
  split; [simpl; lia|]. split; [by rewrite Hi|]. exact Ho.
Qed.

Lemma builtin_dispatch_restores_witness :
  let p := mkNode ["help"] None (Some "out.txt") in
  builtin_ok p Demo.demo_world 3 ∧
  ∃ W a W' w', execBuiltInCommand (BuiltinRegistry := demo_registry) 0 p W = Ok a W' ∧
    fds W !! STDIN_FILENO = redir_table p (fds Demo.demo_world) !! STDIN_FILENO ∧
    fds W !! STDOUT_FILENO = redir_table p (fds Demo.demo_world) !! STDOUT_FILENO ∧
    builtin_dispatch 0 p Demo.demo_world = Ok a w' ∧ fds w' = fds Demo.demo_world.
Proof.
  intros p. assert (H : builtin_ok p Demo.demo_world 3)
    by (apply demo_builtin_ok; [done | intros f [= <-]; vm_compute; set_solver]).
  split; [exact H | exact (builtin_dispatch_restores 0 p Demo.demo_world 3 H)].
Defined.

Lemma builtin_missing_input_kills_shell_witness :
  ∃ w', builtin_dispatch (R := demo_registry) 0 (mkNode ["help"] (Some "missing.txt") None)
          Demo.demo_world = Died EXIT_FAILURE w' ∧
        w_err w' = w_err Demo.demo_world +:+ ("open" +:+ ": " +:+ strerror ENOENT +:+ nl).
Proof.
  apply (builtin_missing_input_kills_shell 0 _ Demo.demo_world 3 "missing.txt");
    [reflexivity | reflexivity | by eexists | by eexists | reflexivity | | simpl; lia].
  intros k o Hk%Demo.std_fds_Some. naive_solver lia.
Defined.

(** [help > out.txt]: the text lands in the file, the terminal gets
    nothing, and the shell's table is the one it started with. *)
Example help_redirected :
  match builtin_dispatch (R := demo_registry) 0 (mkNode ["help"] None (Some "out.txt"))
          Demo.demo_world with
  | Ok st w' => st = 1%Z ∧ w_files w' !! "out.txt" = Some help_text ∧ w_out w' = EmptyString ∧
                fds w' = Demo.std_fds
  | _ => False
  end.
Proof. vm_compute. repeat split; reflexivity. Qed.

End Builtin.
