(* ===== verification/Shell.v ===== *)
(** * The shell loop: [shell] (shell.c lines 152-207)

    Each iteration prints the prompt, takes a line from [read_line] and
    [split_line] (not part of src/: the model receives their results as a
    script, [None] for a NULL line), and routes the command list: a single
    node goes to the builtin dispatcher when [searchBuiltInCommand] knows
    it and to [spawn_proc] otherwise, a longer list to [fork_cmd_node].
    The loop stops when the status is 0.  Freeing the command list (lines
    189-196) has no observable effect in the model.

    [shell_step] is the state machine of the spec (Prompt, Dispatch,
    Cleanup, Terminated); [shell_refines] shows that the loop reaches
    [Terminated] exactly when the machine does. *)

From S2P Require Import Prelude Os Demo Redirection Spawn Pipeline Builtin.
From stdpp Require Import base gmap strings list.
From Stdlib Require Import ZArith Lia.

Module Shell.
Import Os Redirection Spawn Pipeline Builtin.

(** What [read_line] and [split_line] return for one line. *)
Abbreviation line := (option (list cmd_node)).

(** [temp->next] with [temp == NULL]: the shell is killed by SIGSEGV. *)
Definition SIGSEGV_STATUS : Z := 139.

Definition prompt : string := ">>> $ ".

(** [k] copies of [s]. *)
Fixpoint repeat_str (s : string) (k : nat) : string :=
  match k with O => EmptyString | S k' => s +:+ repeat_str s k' end.

Section loop.
Context `{R : BuiltinRegistry}.

(** Lines 164-192: route one parsed command list, return its status. *)
Definition dispatch (cmd : list cmd_node) : M Z :=
  match cmd with
  | [] => st_exit SIGSEGV_STATUS
  | [temp] =>
      let status := searchBuiltInCommand temp in
      if bool_decide (status ≠ -1)%Z then builtin_dispatch status temp
      else spawn_proc temp
  | _ => fork_cmd_node cmd
  end.

(** Lines 155-158 and 159-203: one iteration.  [None] is the [continue] of
    line 158, [Some status] the status the [break] test looks at. *)
Definition shell_iter (l : line) : M (option Z) :=
  sys_write_all STDOUT_FILENO prompt;;
  match l with
  | None => mret None
  | Some cmd => status ← dispatch cmd; mret (Some status)
  end.

(** Lines 152-207 on a finite script of lines: [true] when the loop
    breaks on status 0, [false] when the script runs out first. *)
Fixpoint shell (ls : list line) : M bool :=
  match ls with
  | [] => mret false
  | l :: ls' =>
      r ← shell_iter l;
      if bool_decide (r = Some 0%Z) then mret true else shell ls'
  end.

(** A line that is NULL or a single command the registry does not know. *)
Definition external_line (l : line) : Prop :=
  ∀ cmd, l = Some cmd → ∃ t, cmd = [t] ∧ searchBuiltInCommand t = (-1)%Z.

(** ** The state machine of the spec *)

Inductive phase :=
| Prompt
| Dispatch (cmd : list cmd_node)
| Cleanup (status : Z)
| Terminated.

Record sstate := mkState { s_phase : phase; s_lines : list line; s_world : world }.

Inductive shell_step : sstate → sstate → Prop :=
| step_null ls w n w' :
    sys_write_all STDOUT_FILENO prompt w = Ok n w' →
    shell_step (mkState Prompt (None :: ls) w) (mkState Prompt ls w')
| step_read cmd ls w n w' :
    sys_write_all STDOUT_FILENO prompt w = Ok n w' →
    shell_step (mkState Prompt (Some cmd :: ls) w) (mkState (Dispatch cmd) ls w')
| step_dispatch cmd ls w st w' :
    dispatch cmd w = Ok st w' →
    shell_step (mkState (Dispatch cmd) ls w) (mkState (Cleanup st) ls w')
| step_stop ls w :
    shell_step (mkState (Cleanup 0) ls w) (mkState Terminated ls w)
| step_continue st ls w :
    st ≠ 0%Z → shell_step (mkState (Cleanup st) ls w) (mkState Prompt ls w).

(** What is left of the loop in each phase. *)
Definition phase_run (ph : phase) (ls : list line) : M bool :=
  match ph with
  | Prompt => shell ls
  | Dispatch cmd =>
      status ← dispatch cmd;
      if bool_decide (Some status = Some 0%Z) then mret true else shell ls
  | Cleanup status => if bool_decide (Some status = Some 0%Z) then mret true else shell ls
  | Terminated => mret true
  end.

(** ** Statuses *)

Lemma spawn_proc_status p w st w' :
  spawn_proc p w = Ok st w' → st = 1%Z ∨ st = (-1)%Z.
Proof.
  unfold spawn_proc, mbind, st_mbind, st_bind.
  destruct (fork_wait _ w) as [[c|] w1| |]; [by intros [= <- _]; left | | done | done].
  destruct (perror "fork" w1) as [[] w2| |]; [by intros [= <- _]; right | done | done].
Qed.

Lemma fork_cmd_node_status cmd w st w' :
  fork_cmd_node cmd w = Ok st w' → st = 1%Z.
Proof.
  unfold fork_cmd_node, mbind, st_mbind, st_bind.
  destruct (fork_loop _ _ _ w) as [[] w1| |]; [by intros [= <- _] | done | done].
Qed.

(** Only a known builtin can produce status 0. *)
Lemma dispatch_zero cmd w w' :
  dispatch cmd w = Ok 0%Z w' →
  ∃ temp, cmd = [temp] ∧ searchBuiltInCommand temp ≠ (-1)%Z.
Proof.
  destruct cmd as [|temp [|n2 rest]]; simpl; [done| |].
  - case_bool_decide as Hs; [by eauto|].
    intros H%spawn_proc_status. lia.
  - intros H%fork_cmd_node_status. lia.
Qed.

(** ** The loop refines the machine *)

Lemma shell_iter_inv (l : line) w r w1 :
  shell_iter l w = Ok r w1 →
  ∃ n w0, sys_write_all STDOUT_FILENO prompt w = Ok n w0 ∧
    ((l = None ∧ r = None ∧ w1 = w0) ∨
     ∃ cmd st, l = Some cmd ∧ dispatch cmd w0 = Ok st w1 ∧ r = Some st).
Proof.
  unfold shell_iter, mbind, st_mbind, st_bind. intros H.
  destruct (sys_write_all _ _ w) as [n w0| |] eqn:Hw; [|done|done].
  exists n, w0. split; [done|]. destruct l as [cmd|].
  - destruct (dispatch cmd w0) as [st w2| |] eqn:Hd; [|done|done].
    injection H as <- <-. right. eauto.
  - injection H as <- <-. by left.
Qed.

(** Every step of the machine leaves what remains of the loop unchanged. *)
Lemma shell_step_run s s' :
  shell_step s s' →
  phase_run (s_phase s) (s_lines s) (s_world s) = phase_run (s_phase s') (s_lines s') (s_world s').
Proof.
  destruct 1 as [ls w n w' Hw|cmd ls w n w' Hw|cmd ls w st w' Hd|ls w|st ls w Hst]; simpl.
  - unfold shell_iter. rewrite st_bind_assoc, (bind_Ok _ _ _ _ _ Hw). done.
  - unfold shell_iter. rewrite st_bind_assoc, (bind_Ok _ _ _ _ _ Hw).
    unfold mbind, st_mbind, st_bind. by destruct (dispatch cmd w').
  - by rewrite (bind_Ok _ _ _ _ _ Hd).
  - done.
  - rewrite bool_decide_eq_false_2; [done | congruence].
Qed.

Lemma star_shell_run s s' :
  star shell_step s s' →
  phase_run (s_phase s) (s_lines s) (s_world s) = phase_run (s_phase s') (s_lines s') (s_world s').
Proof. induction 1 as [|a b c Hab _ IH]; [done|]. by rewrite (shell_step_run a b Hab). Qed.

(** The machine's final states for a run of [shell] that returns [b]. *)
Definition final_state (b : bool) (ls : list line) (w : world) : sstate :=
  if b then mkState Terminated ls w else mkState Prompt [] w.

Lemma shell_star ls : ∀ w b w',
  shell ls w = Ok b w' → ∃ ls', star shell_step (mkState Prompt ls w) (final_state b ls' w').
Proof.
  induction ls as [|l ls IH]; intros w b w' Hrun.
  - simpl in Hrun. injection Hrun as <- <-. exists []. constructor.
  - simpl in Hrun. unfold mbind, st_mbind, st_bind in Hrun.
    destruct (shell_iter l w) as [r w1| |] eqn:Hi; [|done|done].
    destruct (shell_iter_inv l w r w1 Hi) as (n & w0 & Hw & [(-> & -> & ->)|(cmd & st & -> & Hd & ->)]).
    + rewrite bool_decide_eq_false_2 in Hrun by done.
      destruct (IH _ _ _ Hrun) as [ls' Hs]. exists ls'.
      eapply star_step; [exact (step_null ls w n w0 Hw)|exact Hs].
    + assert (Hpre : star shell_step (mkState Prompt (Some cmd :: ls) w) (mkState (Cleanup st) ls w1))
        by (eapply star_step; [exact (step_read cmd ls w n w0 Hw)|];
            apply star_one; by constructor).
      case_bool_decide as Hst.
      * injection Hst as ->. injection Hrun as <- <-. exists ls.
        eapply star_trans; [exact Hpre | apply star_one; constructor].
      * destruct (IH _ _ _ Hrun) as [ls' Hs]. exists ls'.
        eapply star_trans; [exact Hpre|].
        eapply star_step; [apply step_continue; congruence | exact Hs].
Qed.

(** C3: the loop of lines 152-207 implements the state machine of the
    spec: it breaks with [true] exactly when the machine, started at
    Prompt on the same lines, reaches Terminated in the same world, and
    runs out of lines exactly when the machine is back at Prompt with no
    line left. *)
Theorem shell_refines (ls : list line) (w w' : world) (b : bool) :
  shell ls w = Ok b w' ↔
  ∃ ls', star shell_step (mkState Prompt ls w) (final_state b ls' w').
Proof.
  split; [apply shell_star|].
  intros [ls' Hs]. apply star_shell_run in Hs. simpl in Hs. rewrite Hs.
  by destruct b.
Qed.

(** C16: a NULL line from [read_line] (end of input) makes the loop print
    the prompt again and go on (line 158): after any number of them the
    shell is still running.  The spec (section 6) asks that end of input
    terminate the loop like a termination pipeline. *)
Theorem shell_null_lines_loop (k : nat) (w : world) :
  fds w !! STDOUT_FILENO = Some TermOut →
  shell (repeat None k) w = Ok false (with_out (w_out w +:+ repeat_str prompt k) w).
Proof.
  revert w. induction k as [|k IH]; intros w H1; simpl.
  - by rewrite string_app_empty_r; destruct w.
  - unfold shell_iter. destruct (sys_write_term_out w _ prompt H1) as [n Hw].
    rewrite st_bind_assoc, (bind_Ok _ _ _ _ _ Hw), (bind_Ok _ _ _ _ _ (ret_run None _)).
    rewrite bool_decide_eq_false_2 by done.
    rewrite (IH (with_out (w_out w +:+ prompt) w) H1). cbn. by rewrite <- string_app_assoc.
Qed.

(** C11: the loop ends only on a line that is a single command the
    builtin registry knows: [spawn_proc] returns 1 or -1 and
    [fork_cmd_node] returns 1, never the terminating status 0. *)
Theorem shell_only_builtin_ends (ls : list line) (w w' : world) :
  shell ls w = Ok true w' →
  ∃ temp, Some [temp] ∈ ls ∧ searchBuiltInCommand temp ≠ (-1)%Z.
Proof.
  revert w. induction ls as [|l ls IH]; intros w Hrun; [done|].
  simpl in Hrun. unfold mbind, st_mbind, st_bind in Hrun.
  destruct (shell_iter l w) as [r w1| |] eqn:Hi; [|done|done].
  destruct (shell_iter_inv l w r w1 Hi) as (n & w0 & Hw & [(-> & -> & ->)|(cmd & st & -> & Hd & ->)]).
  - rewrite bool_decide_eq_false_2 in Hrun by done.
    destruct (IH _ Hrun) as (temp & Hin & Hs). exists temp. split; [by right|done].
  - case_bool_decide as Hst.
    + injection Hst as ->. destruct (dispatch_zero _ _ _ Hd) as (temp & -> & Hs).
      exists temp. split; [left | done].
    + destruct (IH _ Hrun) as (temp & Hin & Hs). exists temp. split; [by right|done].
Qed.

Lemma shell_exit_builtin_core (temp : cmd_node) (ls : list line) (w : world) (n0 : Z) :
  searchBuiltInCommand temp ≠ (-1)%Z →
  (∀ W, ∃ W', execBuiltInCommand (searchBuiltInCommand temp) temp W = Ok 0%Z W') →
  fds w !! STDOUT_FILENO = Some TermOut → builtin_ok temp w n0 →
  ∃ w', shell (Some [temp] :: ls) w = Ok true w' ∧ fds w' = fds w.
Proof.
  intros Hs Hexit H1 Hok.
  destruct (sys_write_term_out w _ prompt H1) as [n Hw].
  set (w0 := with_out _ w) in Hw.
  destruct (builtin_dispatch_restores_core (searchBuiltInCommand temp) temp w0 n0 Hok)
    as (W & a & W' & w' & Hex & _ & _ & Hd & Hf).
  destruct (Hexit W) as [W'' Hex']. rewrite Hex in Hex'. injection Hex' as -> _.
  exists w'. split; [|done].
  simpl. unfold shell_iter. rewrite st_bind_assoc, (bind_Ok _ _ _ _ _ Hw).
  cbn [dispatch]. rewrite bool_decide_eq_true_2 by done.
  rewrite st_bind_assoc, (bind_Ok _ _ _ _ _ Hd). done.
Qed.

(** C12: a line that is a termination builtin ends the loop at once,
    with the shell's descriptor table as it was (spec section 8). *)
Theorem shell_exit_builtin (temp : cmd_node) (ls : list line) (w : world) (n0 : Z) :
  searchBuiltInCommand temp ≠ (-1)%Z →
  (∀ W, ∃ W', execBuiltInCommand (searchBuiltInCommand temp) temp W = Ok 0%Z W') →
  fds w !! STDOUT_FILENO = Some TermOut → builtin_ok temp w n0 →
  ∃ w', shell (Some [temp] :: ls) w = Ok true w' ∧ fds w' = fds w.
Proof. apply shell_exit_builtin_core. Qed.

Lemma shell_iter_external_fds (l : line) w r w1 :
  external_line l → fds w !! STDERR_FILENO = Some TermErr →
  shell_iter l w = Ok r w1 → fds w1 = fds w.
Proof.
  intros Hl H2 Hi.
  destruct (shell_iter_inv l w r w1 Hi) as (n & w0 & Hw & [(-> & -> & ->)|(cmd & st & -> & Hd & ->)]);
    pose proof (sys_write_fds _ _ _ _ _ Hw) as Hf0; [done|].
  destruct (Hl cmd eq_refl) as (t & -> & Hs). simpl in Hd.
  rewrite bool_decide_eq_false_2 in Hd by (intros Hn; by apply Hn).
  pose proof (spawn_proc_outcome t w0 ltac:(by rewrite Hf0)) as Ho. rewrite Hd in Ho.
  destruct Ho as [_ ->]. done.
Qed.

(** C8: no descriptor leaks over a session (spec section 8): after any
    number of lines that are NULL or single external commands, with or
    without redirections, the shell's descriptor table is the one it
    started with. *)
Theorem shell_no_fd_leak (ls : list line) (w w' : world) (b : bool) :
  fds w !! STDERR_FILENO = Some TermErr → Forall external_line ls →
  shell ls w = Ok b w' → fds w' = fds w.
Proof.
  revert w. induction ls as [|l ls IH]; intros w H2 Hls Hrun.
  - by injection Hrun as _ <-.
  - apply Forall_cons in Hls as [Hl Hls]. simpl in Hrun.
    unfold mbind, st_mbind, st_bind in Hrun.
    destruct (shell_iter l w) as [r w1| |] eqn:Hi; [|done|done].
    pose proof (shell_iter_external_fds l w r w1 Hl H2 Hi) as Hf1.
    case_bool_decide.
    + by injection Hrun as _ <-.
    + rewrite (IH w1 ltac:(by rewrite Hf1) Hls Hrun). done.
Qed.

(** C9: the shell and the pipeline executor together (spec sections 4.3
    and 8): a line [cmd1 | ... | cmdN] inside a session prints the prompt
    and then the pipeline's output on the terminal, returns status 1 so
    the loop goes on with the descriptor table as it was, and a following
    termination builtin, which finds the shell's streams intact, ends the
    loop with that table. *)
Theorem shell_pipeline_session (nodes : list cmd_node) (temp : cmd_node) (ls : list line)
    (w : world) n0 :
  2 ≤ length nodes → shell_table (w_cfg w) (fds w) n0 → w_blocked w = [] →
  Forall (plain (w_cfg w)) nodes → pipeline_fits (w_cfg w) nodes (w_in w) →
  searchBuiltInCommand temp ≠ (-1)%Z →
  (∀ W, ∃ W', execBuiltInCommand (searchBuiltInCommand temp) temp W = Ok 0%Z W') →
  (∀ f, in_file temp = Some f → is_Some (w_files w !! f)) →
  (∀ f, out_file temp = Some f → f ∉ readonly (w_cfg w)) →
  ∃ w1 w', shell_iter (Some nodes) w = Ok (Some 1%Z) w1 ∧
    w_out w1 = w_out w +:+ prompt +:+ pipeline_output (w_cfg w) nodes (w_in w) ∧
    fds w1 = fds w ∧
    shell (Some nodes :: Some [temp] :: ls) w = Ok true w' ∧ fds w' = fds w.
Proof.
  intros Hlen Ht0 Hb Hplain Hfits Hs Hexit Hin Hout.
  pose proof Ht0 as (H0 & H1 & Hnp & Hbelow & Hmax & _).
  destruct (sys_write_term_out w _ prompt H1) as [k Hw].
  set (w0 := with_out _ w) in Hw.
  destruct (fork_loop_correct (w_cfg w) (fds w) n0 Ht0 nodes FromTerm (w_in w) w0 (-1, -1)%Z
              ltac:(intros ->; simpl in Hlen; lia) Hplain Hfits (conj eq_refl (conj Hb (conj eq_refl eq_refl))))
    as (w1 & Hrun & Hf1 & _ & Hc1 & Hout1 & Hfiles1 & _).
  assert (Hi : shell_iter (Some nodes) w = Ok (Some 1%Z) w1).
  { unfold shell_iter. rewrite (bind_Ok _ _ _ _ _ Hw).
    destruct nodes as [|n1 [|n2 rest]]; simpl in Hlen; [lia | lia|].
    cbn [dispatch]. unfold fork_cmd_node. rewrite !st_bind_assoc, (bind_Ok _ _ _ _ _ Hrun).
    done. }
  assert (Hok : builtin_ok temp w1 n0).
  { unfold builtin_ok, out_safe. rewrite Hf1, Hfiles1, Hc1.
    split; [by rewrite H0|]. split; [by rewrite H1|]. split; [intros id; by rewrite H1|].
    split; [exact Hbelow|]. split; [exact Hmax|]. split; [exact Hin | exact Hout]. }
  destruct (shell_exit_builtin_core temp ls w1 n0 Hs Hexit ltac:(by rewrite Hf1) Hok) as (w' & Hrun' & Hf').
  exists w1, w'. split; [done|]. split; [by rewrite Hout1, string_app_assoc|]. split; [done|].
  split; [|by rewrite Hf', Hf1].
  cbn [shell]. rewrite (bind_Ok _ _ _ _ _ Hi).
  rewrite bool_decide_eq_false_2 by congruence. exact Hrun'.
Qed.

End loop.

(** ** Concrete sessions *)

Definition echo_hi : cmd_node := mkNode ["echo"; "hi"] None None.
Definition tr_hH : cmd_node := mkNode ["tr"; "h"; "H"] None None.
Definition exit_node : cmd_node := mkNode ["exit"] None None.
Lemma shell_null_lines_loop_witness :
  shell (R := demo_registry) (repeat None 3) Demo.demo_world
  = Ok false (with_out (w_out Demo.demo_world +:+ repeat_str prompt 3) Demo.demo_world).
Proof. apply (shell_null_lines_loop 3 Demo.demo_world). reflexivity. Defined.
Lemma shell_only_builtin_ends_witness :
  ∃ temp, Some [temp] ∈ [Some [echo_hi; tr_hH]; Some [exit_node]] ∧
          searchBuiltInCommand (BuiltinRegistry := demo_registry) temp ≠ (-1)%Z.
Proof.
  apply (shell_only_builtin_ends (R := demo_registry) _ Demo.demo_world
           (match shell (R := demo_registry) [Some [echo_hi; tr_hH]; Some [exit_node]]
                    Demo.demo_world with Ok _ w' => w' | _ => Demo.demo_world end)).
  vm_compute. reflexivity.
Defined.
Lemma shell_exit_builtin_witness :
  ∃ w', shell (R := demo_registry) [Some [exit_node]; None] Demo.demo_world = Ok true w' ∧
        fds w' = fds Demo.demo_world.
Proof.
  apply (shell_exit_builtin exit_node _ Demo.demo_world 3).
  - vm_compute. congruence.
  - intros W. exists W. reflexivity.
  - reflexivity.
  - by apply demo_builtin_ok; [|intros f [=]].
Defined.

Lemma shell_no_fd_leak_witness :
  let ls := [Some [echo_hi]; None; Some [mkNode ["cat"] (Some "in.txt") (Some "out.txt")]] in
  let w' := match shell (R := demo_registry) ls Demo.demo_world with
            | Ok _ w' => w' | _ => Demo.demo_world end in
  Forall (external_line (R := demo_registry)) ls ∧ fds w' = fds Demo.demo_world.
Proof.
  intros ls w'.
  assert (Hls : Forall (external_line (R := demo_registry)) ls).
  { repeat constructor; intros cmd [= <-]; eexists; split; reflexivity. }
  split; [exact Hls|].
  apply (shell_no_fd_leak (R := demo_registry) ls Demo.demo_world w' false eq_refl Hls).
  vm_compute. reflexivity.
Defined.

Lemma shell_pipeline_session_witness :
  ∃ w1 w', shell_iter (R := demo_registry) (Some [echo_hi; tr_hH]) Demo.demo_world = Ok (Some 1%Z) w1 ∧
    w_out w1 = w_out Demo.demo_world +:+ prompt +:+
               pipeline_output (w_cfg Demo.demo_world) [echo_hi; tr_hH] (w_in Demo.demo_world) ∧
    fds w1 = fds Demo.demo_world ∧
    shell (R := demo_registry) [Some [echo_hi; tr_hH]; Some [exit_node]] Demo.demo_world = Ok true w' ∧
    fds w' = fds Demo.demo_world.
Proof.
  apply (shell_pipeline_session [echo_hi; tr_hH] exit_node [] Demo.demo_world 3).
  - simpl. lia.
  - exact demo_shell_table.
  - reflexivity.
  - repeat constructor; eexists _, _, _; split; reflexivity.
  - split; [vm_compute; lia | exact I].
  - vm_compute. congruence.
  - intros W. exists W. reflexivity.
  - intros f [=].
  - intros f [=].
Defined.

(** The scenario of the spec as a session: [echo hi | tr h H], then
    [exit]; the terminal shows two prompts and "Hi". *)
Example session_echo_tr_exit :
  match shell (R := demo_registry) [Some [echo_hi; tr_hH]; Some [exit_node]] Demo.demo_world with
  | Ok b w' => b = true ∧ w_out w' = prompt +:+ "Hi" +:+ nl +:+ prompt ∧ fds w' = Demo.std_fds
  | _ => False
  end.
Proof. vm_compute. repeat split; reflexivity. Qed.

End Shell.
