(* ===== verification/Ipc.v ===== *)
(** * The lab1 IPC demo: [src/sender.c] and [src/lab1/receiver.c]

    Two processes exchange the lines of a file through a mailbox, a POSIX
    message queue ([flag] 1) or a System V shared-memory segment ([flag]
    2), in strict alternation enforced by two named semaphores:
    [sem_sender] (initially 1) and [sem_receiver] (initially 0).  The
    sender reads the file with [fgets] into a 100-byte buffer and, for each
    chunk, waits on [sem_sender], [send]s, prints and posts
    [sem_receiver]; at end of file it sends "EXIT" the same way.  The
    receiver waits on [sem_receiver], [receive]s, stops on "EXIT",
    otherwise prints and posts [sem_sender].

    The two loops are the step relations [sender_step] (sender.c lines
    55-71) and [receiver_step] (receiver.c lines 49-63) over the joint
    state [ipc]: both program counters, both semaphores, the mailbox
    contents, the receiver's message buffer and what each process printed.
    [ipc_step] is their union: every step is one atomic action of one
    process, in any interleaving.  The timing calls and the final
    statistics line are not modelled.

    The invariant [good] lists the reachable shapes of the joint state;
    from it follow semaphore conservation (mutual exclusion on the
    mailbox), progress, a decreasing measure (termination) and the
    delivery of every chunk of the file in order.

    The set-up and clean-up code of the two [main]s is in [IpcMain]. *)

From S2P Require Import Prelude.
From stdpp Require Import base gmap strings list.
From Stdlib Require Import ZArith Lia Ascii.

Module Ipc.

(** ** Messages and [fgets] *)

(** [message_t] (receiver.h lines 26-28): [char text[100]], read as the C
    string it holds. *)
Definition TEXT_SIZE : nat := 100.
Record message_t := mkMessage { text : string }.

Definition EXIT_TEXT : string := "EXIT".

Definition newline : Ascii.ascii := "010"%char.

(** One [fgets(buf, k + 1, fp)]: at most [k] characters, up to and
    including a newline. *)
Fixpoint take_line (k : nat) (s : string) : string * string :=
  match k, s with
  | O, _ => (EmptyString, s)
  | _, EmptyString => (EmptyString, EmptyString)
  | S k', String c s' =>
      if Ascii.eqb c newline then (String c EmptyString, s')
      else let '(l, r) := take_line k' s' in (String c l, r)
  end.

(** The loop condition of sender.c line 56: the chunks [fgets(message.text,
    100, fp)] returns until it returns NULL at end of file.  Every chunk is
    non-empty, so [String.length s] calls are enough. *)
Fixpoint fgets_all (fuel : nat) (s : string) : list string :=
  match fuel with
  | O => []
  | S f =>
      match s with
      | EmptyString => []
      | _ => let '(l, r) := take_line (TEXT_SIZE - 1) s in l :: fgets_all f r
      end
  end.

Definition file_messages (s : string) : list string := fgets_all (String.length s) s.

(** ** The mailbox *)

(** [attr.mq_msgsize] of the queue both programs create (line 29). *)
Definition MQ_MSGSIZE : nat := 256.

(** The contents behind the mailbox: the message queue's messages, each
    as the C string its bytes hold and the number of bytes [mq_send] was
    given, and the shared segment's string. *)
Record chan := mkChan { ch_queue : list (string * nat); ch_shm : string }.

(** [send] (sender.c lines 3-11): [mq_send(mqd, message.text,
    sizeof(message.text), 0)] appends a message of [TEXT_SIZE] bytes (it
    fails with EMSGSIZE, ignored, above [mq_msgsize]); [strcpy]
    overwrites the segment; any other flag does nothing. *)
Definition send (message : message_t) (flag : Z) (c : chan) : chan :=
  if bool_decide (flag = 1%Z) then
    let len := TEXT_SIZE in
    if bool_decide (len ≤ MQ_MSGSIZE) then mkChan (ch_queue c ++ [(text message, len)]) (ch_shm c)
    else c
  else if bool_decide (flag = 2%Z) then mkChan (ch_queue c) (text message)
  else c.

(** [receive] (receiver.c lines 3-11): [mq_receive] takes the oldest
    message, copying its bytes into [message.text], and blocks ([None]) on
    an empty queue (its length argument 256 is not below [mq_msgsize], so
    it never fails with EMSGSIZE); [strcpy] copies the segment; any other
    flag leaves the buffer as it was. *)
Definition receive (message : message_t) (flag : Z) (c : chan) : option (message_t * chan) :=
  if bool_decide (flag = 1%Z) then
    match ch_queue c with
    | [] => None
    | (m, _) :: q => Some (mkMessage m, mkChan q (ch_shm c))
    end
  else if bool_decide (flag = 2%Z) then Some (mkMessage (ch_shm c), c)
  else Some (message, c).

(** ** What the two processes print *)

Definition esc (code : string) : string := String "027"%char ("[" +:+ code +:+ "m").

Definition send_banner (m : string) : string :=
  esc "36" +:+ "Sending message: " +:+ esc "0" +:+ m.
Definition eof_banner : string :=
  esc "31" +:+ String newline "End of input file! exit!" +:+ esc "0".
Definition recv_banner (m : string) : string :=
  esc "36" +:+ "Receiving message: " +:+ esc "0" +:+ m.
Definition exit_banner : string :=
  esc "31" +:+ String newline "Sender exit!" +:+ esc "0".

(** ** The joint state and its steps *)

(** The sender's position: in the [fgets] loop with the chunks still to
    read, between [sem_wait] and [send], between [send] and [sem_post],
    and the same three points for the "EXIT" message. *)
Inductive spc :=
| SLoop (rest : list string)
| SSend (m : string) (rest : list string)
| SPost (rest : list string)
| SExitWait
| SExitSend
| SExitPost
| SDone.

(** The receiver's position in its [do ... while] loop. *)
Inductive rpc := RWait | RRecv | RCheck | RPost | RDone.

Record ipc := mkIpc {
  sp : spc; rp : rpc;
  sem_s : nat; sem_r : nat;
  ch : chan;
  r_msg : message_t;
  out_s : string; out_r : string
}.

Section step.
Variable flag : Z.

(** The sender's atomic actions, sender.c lines 55-71. *)
Inductive sender_step : ipc → ipc → Prop :=
(* lines 56-57: a chunk was read, [sem_wait(sem_sender)] *)
| s_wait m rest r n sr c msg os or :
    sender_step (mkIpc (SLoop (m :: rest)) r (S n) sr c msg os or)
             (mkIpc (SSend m rest) r n sr c msg os or)
(* lines 59-62: [send] and its printout *)
| s_send m rest r ss sr c msg os or :
    sender_step (mkIpc (SSend m rest) r ss sr c msg os or)
             (mkIpc (SPost rest) r ss sr (send (mkMessage m) flag c) msg (os +:+ send_banner m) or)
(* line 63 *)
| s_post rest r ss sr c msg os or :
    sender_step (mkIpc (SPost rest) r ss sr c msg os or)
             (mkIpc (SLoop rest) r ss (S sr) c msg os or)
(* lines 56 and 67: [fgets] returns NULL *)
| s_eof r ss sr c msg os or :
    sender_step (mkIpc (SLoop []) r ss sr c msg os or)
             (mkIpc SExitWait r ss sr c msg (os +:+ eof_banner) or)
(* lines 68-69 *)
| s_exit_wait r n sr c msg os or :
    sender_step (mkIpc SExitWait r (S n) sr c msg os or)
             (mkIpc SExitSend r n sr c msg os or)
(* line 70 *)
| s_exit_send r ss sr c msg os or :
    sender_step (mkIpc SExitSend r ss sr c msg os or)
             (mkIpc SExitPost r ss sr (send (mkMessage EXIT_TEXT) flag c) msg os or)
(* line 71 *)
| s_exit_post r ss sr c msg os or :
    sender_step (mkIpc SExitPost r ss sr c msg os or)
             (mkIpc SDone r ss (S sr) c msg os or).

(** The receiver's atomic actions, receiver.c lines 49-63. *)
Inductive receiver_step : ipc → ipc → Prop :=
(* line 50 *)
| r_wait s ss n c msg os or :
    receiver_step (mkIpc s RWait ss (S n) c msg os or)
             (mkIpc s RRecv ss n c msg os or)
(* line 52 *)
| r_recv s ss sr c msg msg' c' os or :
    receive msg flag c = Some (msg', c') →
    receiver_step (mkIpc s RRecv ss sr c msg os or)
             (mkIpc s RCheck ss sr c' msg' os or)
(* lines 56-58 *)
| r_exit s ss sr c msg os or :
    text msg = EXIT_TEXT →
    receiver_step (mkIpc s RCheck ss sr c msg os or)
             (mkIpc s RDone ss sr c msg os (or +:+ exit_banner))
(* line 60 *)
| r_print s ss sr c msg os or :
    text msg ≠ EXIT_TEXT →
    receiver_step (mkIpc s RCheck ss sr c msg os or)
             (mkIpc s RPost ss sr c msg os (or +:+ recv_banner (text msg)))
(* line 62 *)
| r_post s ss sr c msg os or :
    receiver_step (mkIpc s RPost ss sr c msg os or)
             (mkIpc s RWait (S ss) sr c msg os or).

(** One step of either process. *)
Definition ipc_step (a b : ipc) : Prop := sender_step a b ∨ receiver_step a b.

End step.

(** Both processes at the top of their loops: [sem_sender] = 1 and
    [sem_receiver] = 0 (lines 20-21), an empty mailbox. *)
Definition ipc_init (file : string) : ipc :=
  mkIpc (SLoop (file_messages file)) RWait 1 0 (mkChan [] EmptyString)
        (mkMessage EmptyString) EmptyString EmptyString.

(** What the receiver prints for the messages [ms]. *)
Definition render (ms : list string) : string :=
  foldr (λ m acc, recv_banner m +:+ acc) EmptyString ms.

(** ** [fgets]: the chunks are the file *)

Lemma take_line_spec k s l r :
  take_line k s = (l, r) →
  l +:+ r = s ∧ String.length l ≤ k ∧ (0 < k → s ≠ EmptyString → 0 < String.length l).
Proof.
  revert k l r. induction s as [|c s IH]; intros [|k] l r H; simpl in H.
  1-3: injection H as <- <-; split; [done|]; split; [simpl; lia|]; intros ? Hs; simpl;
    first [lia | by destruct Hs].
  destruct (Ascii.eqb c newline).
  - injection H as <- <-. split; [done|]. simpl. lia.
  - destruct (take_line k s) as [l' r'] eqn:E. injection H as <- <-.
    destruct (IH _ _ _ E) as (Happ & Hlen & _).
    split; [by rewrite <- Happ|]. simpl. lia.
Qed.

Definition concat_str (ms : list string) : string := foldr String.append EmptyString ms.

Lemma fgets_all_spec fuel s :
  String.length s ≤ fuel →
  concat_str (fgets_all fuel s) = s ∧
  Forall (λ m, 0 < String.length m ≤ TEXT_SIZE - 1) (fgets_all fuel s).
Proof.
  revert s. induction fuel as [|f IH]; intros s Hs.
  - destruct s; simpl in *; [split; constructor | lia].
  - destruct s as [|c s']; [split; [done | constructor]|].
    cbn [fgets_all]. destruct (take_line (TEXT_SIZE - 1) (String c s')) as [l r] eqn:E.
    destruct (take_line_spec _ _ _ _ E) as (Happ & Hlen & Hpos).
    assert (Hl : 0 < String.length l) by (apply Hpos; [unfold TEXT_SIZE; lia | done]).
    assert (Hr : String.length r ≤ f).
    { rewrite <- Happ, string_app_length in Hs. lia. }
    destruct (IH r Hr) as [Hc Hf]. split.
    + simpl. by rewrite Hc.
    + constructor; [lia | done].
Qed.

(** C36: reading a file with [fgets(message.text, 100, fp)] until NULL
    (sender.c line 56) cuts it into chunks of 1 to 99 characters whose
    concatenation is the file: nothing is lost, duplicated or reordered. *)
Theorem file_messages_roundtrip (file : string) :
  concat_str (file_messages file) = file ∧
  Forall (λ m, 0 < String.length m ≤ TEXT_SIZE - 1) (file_messages file).
Proof. apply fgets_all_spec. lia. Qed.


(** ** Measures of a state *)

(** 1 when the process is between its [sem_wait] and its [sem_post]. *)
Definition cs_s (s : spc) : nat :=
  match s with SSend _ _ | SPost _ | SExitSend | SExitPost => 1 | _ => 0 end.
Definition cs_r (r : rpc) : nat :=
  match r with RRecv | RCheck | RPost => 1 | _ => 0 end.

(** The steps the sender has left. *)
Definition sender_rem (s : spc) : nat :=
  match s with
  | SLoop rest => 3 * length rest + 4
  | SSend _ rest => 3 * length rest + 6
  | SPost rest => 3 * length rest + 5
  | SExitWait => 3 | SExitSend => 2 | SExitPost => 1 | SDone => 0
  end.

(** The messages, "EXIT" included, the sender has not sent yet. *)
Definition unsent (s : spc) : nat :=
  match s with
  | SLoop rest => length rest + 1
  | SSend _ rest => length rest + 2
  | SPost rest => length rest + 1
  | SExitWait | SExitSend => 1
  | SExitPost | SDone => 0
  end.

(** A message sent and not yet fully handled by the receiver. *)
Definition in_flight (st : ipc) : nat :=
  match sp st with SPost _ | SExitPost => 1 | _ => 0 end +
  match rp st with RRecv | RCheck | RPost => 1 | RWait => sem_r st | RDone => 0 end.

Definition r_phase (r : rpc) : nat :=
  match r with RWait => 0 | RRecv => 1 | RCheck => 2 | RPost => 3 | RDone => 0 end.

(** The steps the receiver has left: four per message, three for "EXIT". *)
Definition receiver_rem (st : ipc) : nat :=
  match rp st with
  | RDone => 0
  | r => 4 * (unsent (sp st) + in_flight st) - 1 - r_phase r
  end.

Definition ipc_measure (st : ipc) : nat := sender_rem (sp st) + receiver_rem st.

(** ** The protocol *)

Lemma render_snoc pre m : render (pre ++ [m]) = render pre +:+ recv_banner m.
Proof.
  induction pre as [|x pre IH]; simpl; [by rewrite string_app_empty_r|].
  by rewrite IH, string_app_assoc.
Qed.

Section protocol.
Variable flag : Z.
Hypothesis Hflag : flag = 1%Z ∨ flag = 2%Z.
(** The chunks of the file; none of them is the sentinel. *)
Variable msgs : list string.
Hypothesis Hmsgs : Forall (λ m, m ≠ EXIT_TEXT) msgs.

(** The mailbox holds no message for the receiver ... *)
Definition ch_empty (c : chan) : Prop := flag = 1%Z → ch_queue c = [].
(** ... or exactly the message [m]. *)
Definition ch_holds (c : chan) (m : string) : Prop :=
  (flag = 1%Z → ch_queue c = [(m, TEXT_SIZE)]) ∧ (flag = 2%Z → ch_shm c = m).

(** The sender blocked in [sem_wait] with [rest] still to send. *)
Definition waiting (rest : list string) (s : spc) : Prop :=
  s = SLoop rest ∨ (rest = [] ∧ s = SExitWait).

(** The reachable states, one constructor per point of a round: the
    receiver has printed the messages [pre], [m] is the message of the
    current round and [rest] follows it. *)
Inductive good : ipc → Prop :=
| g_turn_s pre rest s c msg os or :
    msgs = pre ++ rest → waiting rest s → ch_empty c → or = render pre →
    good (mkIpc s RWait 1 0 c msg os or)
| g_sending pre m rest c msg os or :
    msgs = pre ++ m :: rest → ch_empty c → or = render pre →
    good (mkIpc (SSend m rest) RWait 0 0 c msg os or)
| g_sent pre m rest c msg os or :
    msgs = pre ++ m :: rest → ch_holds c m → or = render pre →
    good (mkIpc (SPost rest) RWait 0 0 c msg os or)
| g_turn_r pre m rest s c msg os or :
    msgs = pre ++ m :: rest → waiting rest s → ch_holds c m → or = render pre →
    good (mkIpc s RWait 0 1 c msg os or)
| g_recv pre m rest s c msg os or :
    msgs = pre ++ m :: rest → waiting rest s → ch_holds c m → or = render pre →
    good (mkIpc s RRecv 0 0 c msg os or)
| g_check pre m rest s c os or :
    msgs = pre ++ m :: rest → waiting rest s → ch_empty c → or = render pre →
    good (mkIpc s RCheck 0 0 c (mkMessage m) os or)
| g_print pre m rest s c msg os or :
    msgs = pre ++ m :: rest → waiting rest s → ch_empty c → or = render (pre ++ [m]) →
    good (mkIpc s RPost 0 0 c msg os or)
| g_exit_sending c msg os or :
    ch_empty c → or = render msgs → good (mkIpc SExitSend RWait 0 0 c msg os or)
| g_exit_sent c msg os or :
    ch_holds c EXIT_TEXT → or = render msgs → good (mkIpc SExitPost RWait 0 0 c msg os or)
| g_exit_turn_r c msg os or :
    ch_holds c EXIT_TEXT → or = render msgs → good (mkIpc SDone RWait 0 1 c msg os or)
| g_exit_recv c msg os or :
    ch_holds c EXIT_TEXT → or = render msgs → good (mkIpc SDone RRecv 0 0 c msg os or)
| g_exit_check c os or :
    or = render msgs → good (mkIpc SDone RCheck 0 0 c (mkMessage EXIT_TEXT) os or)
| g_final c msg os or :
    or = render msgs +:+ exit_banner → good (mkIpc SDone RDone 0 0 c msg os or).

Lemma send_holds c m : ch_empty c → ch_holds (send (mkMessage m) flag c) m.
Proof.
  intros He. unfold send. split; intros ->; simpl; [by rewrite He | done].
Qed.

Lemma receive_holds c m msg msg' c' :
  ch_holds c m → receive msg flag c = Some (msg', c') → msg' = mkMessage m ∧ ch_empty c'.
Proof.
  intros [H1 H2]. unfold receive, ch_empty.
  destruct Hflag as [-> | ->]; simpl.
  - rewrite H1 by done. intros [= <- <-]. done.
  - rewrite H2 by done. intros [= <- <-]. split; [done | discriminate].
Qed.

Lemma receive_some c m msg :
  ch_holds c m → ∃ c', receive msg flag c = Some (mkMessage m, c').
Proof.
  intros [H1 H2]. unfold receive.
  destruct Hflag as [-> | ->]; simpl; [rewrite H1 by done | rewrite H2 by done]; eauto.
Qed.

Lemma msgs_not_exit pre m rest : msgs = pre ++ m :: rest → m ≠ EXIT_TEXT.
Proof.
  intros Hm. rewrite Hm in Hmsgs. apply Forall_app in Hmsgs as [_ H]. by inversion H.
Qed.

Lemma good_step st st' : good st → ipc_step flag st st' → good st'.
Proof.
  intros Hg Hs.
  destruct Hg as [pre rest s c msg os or Hm Hw He Ho|pre m rest c msg os or Hm He Ho
                 |pre m rest c msg os or Hm Hh Ho|pre m rest s c msg os or Hm Hw Hh Ho
                 |pre m rest s c msg os or Hm Hw Hh Ho|pre m rest s c os or Hm Hw He Ho
                 |pre m rest s c msg os or Hm Hw He Ho|c msg os or He Ho|c msg os or Hh Ho
                 |c msg os or Hh Ho|c msg os or Hh Ho|c os or Ho|c msg os or Ho].
  - destruct Hw as [-> | [-> ->]]; destruct Hs as [Hs|Hs]; inversion Hs; subst.
    + by eapply g_sending.
    + eapply (g_turn_s pre []); [done | by right | done | done].
    + apply g_exit_sending; [done|]. by rewrite app_nil_r in Hm; subst.
  - destruct Hs as [Hs|Hs]; inversion Hs; subst. eapply g_sent; [done | by apply send_holds | done].
  - destruct Hs as [Hs|Hs]; inversion Hs; subst. eapply g_turn_r; [done | by left | done | done].
  - destruct Hw as [-> | [-> ->]]; destruct Hs as [Hs|Hs]; inversion Hs; subst.
    + eapply (g_turn_r pre m []); [done | by right | done | done].
    + eapply g_recv; [done | by left | done | done].
    + eapply g_recv; [done | by right | done | done].
  - destruct Hw as [-> | [-> ->]]; destruct Hs as [Hs|Hs]; inversion Hs; subst.
    + eapply (g_recv pre m []); [done | by right | done | done].
    + destruct (receive_holds _ _ _ _ _ Hh ltac:(eassumption)) as [-> He'].
      eapply g_check; [done | by left | done | done].
    + destruct (receive_holds _ _ _ _ _ Hh ltac:(eassumption)) as [-> He'].
      eapply g_check; [done | by right | done | done].
  - pose proof (msgs_not_exit _ _ _ Hm) as Hne.
    destruct Hw as [-> | [-> ->]]; destruct Hs as [Hs|Hs]; inversion Hs; subst; try done.
    + eapply (g_check pre m []); [done | by right | done | done].
    + eapply g_print; [done | by left | done | by rewrite render_snoc].
    + eapply g_print; [done | by right | done | by rewrite render_snoc].
  - destruct Hw as [-> | [-> ->]]; destruct Hs as [Hs|Hs]; inversion Hs; subst.
    + eapply (g_print pre m []); [done | by right | done | done].
    + eapply (g_turn_s (pre ++ [m]) rest); [by rewrite <- app_assoc | by left | done | done].
    + eapply (g_turn_s (pre ++ [m]) []); [by rewrite <- app_assoc | by right | done | done].
  - destruct Hs as [Hs|Hs]; inversion Hs; subst. apply g_exit_sent; [by apply send_holds | done].
  - destruct Hs as [Hs|Hs]; inversion Hs; subst. by apply g_exit_turn_r.
  - destruct Hs as [Hs|Hs]; inversion Hs; subst. by apply g_exit_recv.
  - destruct Hs as [Hs|Hs]; inversion Hs; subst. destruct (receive_holds _ _ _ _ _ Hh ltac:(eassumption)) as [-> _].
    by apply g_exit_check.
  - destruct Hs as [Hs|Hs]; inversion Hs; subst; [by apply g_final | done].
  - destruct Hs as [Hs|Hs]; inversion Hs.
Qed.

Lemma good_init c msg : ch_empty c → good (mkIpc (SLoop msgs) RWait 1 0 c msg EmptyString EmptyString).
Proof. intros He. by apply (g_turn_s [] msgs); [| left | |]. Qed.

Lemma good_star st st' : good st → star (ipc_step flag) st st' → good st'.
Proof. intros Hg Hs. induction Hs; eauto using good_step. Qed.

(** Semaphore conservation: the two counts and the two critical sections
    add up to one until the receiver has stopped. *)
Lemma good_conservation st :
  good st →
  sem_s st + sem_r st + cs_s (sp st) + cs_r (rp st) = match rp st with RDone => 0 | _ => 1 end.
Proof.
  destruct 1; simpl;
    repeat match goal with H : waiting _ _ |- _ => destruct H as [-> | [-> ->]] end; done.
Qed.

Lemma good_progress st :
  good st → (sp st = SDone ∧ rp st = RDone) ∨ ∃ st', ipc_step flag st st'.
Proof.
  destruct 1 as [pre rest s c msg os or Hm Hw He Ho|pre m rest c msg os or Hm He Ho
                 |pre m rest c msg os or Hm Hh Ho|pre m rest s c msg os or Hm Hw Hh Ho
                 |pre m rest s c msg os or Hm Hw Hh Ho|pre m rest s c os or Hm Hw He Ho
                 |pre m rest s c msg os or Hm Hw He Ho|c msg os or He Ho|c msg os or Hh Ho
                 |c msg os or Hh Ho|c msg os or Hh Ho|c os or Ho|c msg os or Ho];
    try (right; eexists; first [left; constructor; done | right; constructor; done]).
  - right. destruct Hw as [-> | [-> ->]]; [destruct rest|]; eexists; left; constructor.
  - right. destruct (receive_some c m msg Hh) as [c' Hc]. eexists. right. by constructor.
  - right. eexists. right. apply r_print. simpl. exact (msgs_not_exit _ _ _ Hm).
  - right. destruct (receive_some c EXIT_TEXT msg Hh) as [c' Hc]. eexists. right. by constructor.
  - left. done.
Qed.

Lemma good_measure st st' : good st → ipc_step flag st st' → ipc_measure st' < ipc_measure st.
Proof.
  intros Hg Hs.
  destruct Hg as [pre rest s c msg os or Hm Hw He Ho|pre m rest c msg os or Hm He Ho
                 |pre m rest c msg os or Hm Hh Ho|pre m rest s c msg os or Hm Hw Hh Ho
                 |pre m rest s c msg os or Hm Hw Hh Ho|pre m rest s c os or Hm Hw He Ho
                 |pre m rest s c msg os or Hm Hw He Ho|c msg os or He Ho|c msg os or Hh Ho
                 |c msg os or Hh Ho|c msg os or Hh Ho|c os or Ho|c msg os or Ho];
    try destruct Hw as [-> | [-> ->]]; destruct Hs as [Hs|Hs]; inversion Hs; subst;
    unfold ipc_measure, receiver_rem, in_flight; simpl; lia.
Qed.

Lemma good_acc st : good st → Acc (λ b a, ipc_step flag a b) st.
Proof.
  remember (ipc_measure st) as n eqn:Hn. revert st Hn.
  induction n as [n IH] using lt_wf_ind. intros st -> Hg.
  constructor. intros st' Hs.
  exact (IH _ (good_measure _ _ Hg Hs) st' eq_refl (good_step _ _ Hg Hs)).
Qed.

(** A good state from which no step is possible is the final one. *)
Lemma good_stuck st :
  good st → (∀ st', ¬ ipc_step flag st st') →
  sp st = SDone ∧ rp st = RDone ∧ out_r st = render msgs +:+ exit_banner.
Proof.
  intros Hg Hno. destruct (good_progress st Hg) as [[Hs Hr] | [st' Hst]];
    [| by destruct (Hno st')].
  split; [done|]. split; [done|].
  destruct Hg; simpl in *; try congruence.
Qed.

Lemma good_completes st :
  good st → ∃ st', star (ipc_step flag) st st' ∧ (∀ st'', ¬ ipc_step flag st' st'').
Proof.
  intros Hg. induction (good_acc st Hg) as [st _ IH].
  destruct (good_progress st Hg) as [[Hs Hr] | [st' Hst]].
  - exists st. split; [constructor|]. intros st'' Hst.
    destruct st as [? ? ? ? ? ? ? ?]; simpl in *; subst. destruct Hst as [Hst|Hst]; inversion Hst.
  - destruct (IH st' Hst (good_step _ _ Hg Hst)) as (st'' & Hs & Hno).
    exists st''. split; [by eapply star_step | done].
Qed.

End protocol.

Section runs.
Variable flag : Z.
Hypothesis Hflag : flag = 1%Z ∨ flag = 2%Z.

(** One round of the protocol for a message [m] that is not "EXIT". *)
Lemma run_round m rest c msg os or :
  m ≠ EXIT_TEXT → ch_empty flag c →
  ∃ c' os', ch_empty flag c' ∧
    star (ipc_step flag) (mkIpc (SLoop (m :: rest)) RWait 1 0 c msg os or)
         (mkIpc (SLoop rest) RWait 1 0 c' (mkMessage m) os' (or +:+ recv_banner m)).
Proof.
  intros Hm He.
  destruct (receive_some flag Hflag _ m msg (send_holds flag Hflag c m He)) as [c' Hc].
  pose proof (receive_holds flag Hflag _ m msg _ c' (send_holds flag Hflag c m He) Hc) as [_ He'].
  exists c', (os +:+ send_banner m). split; [done|].
  eapply star_step; [left; apply s_wait|].
  eapply star_step; [left; apply s_send|].
  eapply star_step; [left; apply s_post|].
  eapply star_step; [right; apply r_wait|].
  eapply star_step; [right; apply r_recv; exact Hc|].
  eapply star_step; [right; apply r_print; exact Hm|].
  apply star_one. right. apply r_post.
Qed.

Lemma run_rounds pre : ∀ rest c msg os or,
  Forall (λ m, m ≠ EXIT_TEXT) pre → ch_empty flag c →
  ∃ c' msg' os', ch_empty flag c' ∧
    star (ipc_step flag) (mkIpc (SLoop (pre ++ rest)) RWait 1 0 c msg os or)
         (mkIpc (SLoop rest) RWait 1 0 c' msg' os' (or +:+ render pre)).
Proof.
  induction pre as [|m pre IH]; intros rest c msg os or Hpre He.
  - exists c, msg, os. split; [done|]. rewrite string_app_empty_r. constructor.
  - apply Forall_cons in Hpre as [Hm Hpre].
    destruct (run_round m (pre ++ rest) c msg os or Hm He) as (c1 & os1 & He1 & Hs1).
    destruct (IH rest c1 (mkMessage m) os1 (or +:+ recv_banner m) Hpre He1) as (c2 & msg2 & os2 & He2 & Hs2).
    exists c2, msg2, os2. split; [done|]. simpl. rewrite string_app_assoc.
    eapply star_trans; [exact Hs1 | exact Hs2].
Qed.

End runs.

(** ** The C buffers are never overrun *)

(** A string fits [char text[100]] with its terminating NUL. *)
Definition fits (m : string) : Prop := String.length m < TEXT_SIZE.

(** A queued message's bytes fit [char text[100]], which [mq_receive]
    fills with them, and include the string's NUL. *)
Definition mq_fits (mn : string * nat) : Prop := mn.2 ≤ TEXT_SIZE ∧ String.length mn.1 < mn.2.

(** The chunks the sender still holds or will read. *)
Definition pending (s : spc) : list string :=
  match s with SLoop rest | SPost rest => rest | SSend m rest => m :: rest | _ => [] end.

Definition buffers_fit (st : ipc) : Prop :=
  Forall fits (pending (sp st)) ∧ Forall mq_fits (ch_queue (ch st)) ∧ fits (ch_shm (ch st)) ∧
  fits (text (r_msg st)).

Lemma send_fits m flag c :
  fits m → Forall mq_fits (ch_queue c) → fits (ch_shm c) →
  Forall mq_fits (ch_queue (send (mkMessage m) flag c)) ∧ fits (ch_shm (send (mkMessage m) flag c)).
Proof.
  intros Hm Hq Hs. unfold send. repeat case_bool_decide; simpl; try done.
  split; [apply Forall_app; split; [done | constructor; [split; simpl; [lia | exact Hm] | constructor]] | done].
Qed.

Lemma receive_fits msg flag c msg' c' :
  fits (text msg) → Forall mq_fits (ch_queue c) → fits (ch_shm c) →
  receive msg flag c = Some (msg', c') →
  fits (text msg') ∧ Forall mq_fits (ch_queue c') ∧ fits (ch_shm c').
Proof.
  intros Hm Hq Hs. unfold receive. repeat case_bool_decide.
  - destruct (ch_queue c) as [|[m n] q] eqn:E; [done|]. intros [= <- <-]. simpl.
    apply Forall_cons in Hq as [[Hn Hl] ?]. unfold fits. simpl in *. split; [lia | done].
  - by intros [= <- <-].
  - by intros [= <- <-].
Qed.

Lemma buffers_fit_step flag st st' : buffers_fit st → ipc_step flag st st' → buffers_fit st'.
Proof.
  intros (Hp & Hq & Hs & Hm) [Hst|Hst]; inversion Hst; subst; simpl in *; try by repeat split.
  - apply Forall_cons in Hp as [Hp1 Hp2]. destruct (send_fits m flag c Hp1 Hq Hs). by repeat split.
  - destruct (send_fits EXIT_TEXT flag c ltac:(unfold fits, TEXT_SIZE; simpl; lia) Hq Hs).
    by repeat split.
  - match goal with Hr : receive _ _ _ = Some _ |- _ =>
      destruct (receive_fits _ _ _ _ _ Hm Hq Hs Hr) as (? & ? & ?) end.
    by repeat split.
Qed.

(** ** What the sender prints *)

Definition send_render (ms : list string) : string :=
  foldr (λ m acc, send_banner m +:+ acc) EmptyString ms.

Lemma send_render_snoc pre m : send_render (pre ++ [m]) = send_render pre +:+ send_banner m.
Proof.
  induction pre as [|x pre IH]; simpl; [by rewrite string_app_empty_r|].
  by rewrite IH, string_app_assoc.
Qed.

(** The sender's printout is fixed by its position: one banner per chunk
    already sent, then the end-of-file banner. *)
Definition sender_out (msgs : list string) (st : ipc) : Prop :=
  match sp st with
  | SLoop rest | SPost rest => ∃ pre, msgs = pre ++ rest ∧ out_s st = send_render pre
  | SSend m rest => ∃ pre, msgs = pre ++ m :: rest ∧ out_s st = send_render pre
  | _ => out_s st = send_render msgs +:+ eof_banner
  end.

Lemma sender_out_step flag msgs st st' : sender_out msgs st → ipc_step flag st st' → sender_out msgs st'.
Proof.
  unfold sender_out. intros Ho [Hs|Hs]; inversion Hs; subst; simpl in *; try done;
    destruct Ho as (pre & Hm & Ho).
  - exists (pre ++ [m]). rewrite <- app_assoc. split; [done|]. by rewrite send_render_snoc, Ho.
  - rewrite app_nil_r in Hm. by subst.
Qed.

(** ** Properties of the protocol *)

Lemma good_init_file flag file :
  good flag (file_messages file) (ipc_init file).
Proof. apply good_init. by intros. Qed.

(** C25: semaphore conservation and mutual exclusion: in every state
    reachable from the start (both mechanisms), [sem_sender] +
    [sem_receiver] + the number of processes between their [sem_wait] and
    [sem_post] is 1 until the receiver stops; so the sender and the
    receiver never touch the mailbox at the same time. *)
Theorem ipc_mutual_exclusion (flag : Z) (file : string) (st : ipc) :
  flag = 1%Z ∨ flag = 2%Z → Forall (λ m, m ≠ EXIT_TEXT) (file_messages file) →
  star (ipc_step flag) (ipc_init file) st →
  sem_s st + sem_r st + cs_s (sp st) + cs_r (rp st) = match rp st with RDone => 0 | _ => 1 end.
Proof.
  intros Hf Hm Hs. apply (good_conservation flag (file_messages file)).
  exact (good_star flag Hf _ Hm _ _ (good_init_file flag file) Hs).
Qed.

(** C23: the exchange completes and delivers the file: some execution
    reaches a state where neither process can move, and every such state
    has both processes finished, the receiver having printed every chunk
    of the file in order, each once, then "Sender exit!". *)
Theorem ipc_delivers (flag : Z) (file : string) :
  flag = 1%Z ∨ flag = 2%Z → Forall (λ m, m ≠ EXIT_TEXT) (file_messages file) →
  (∃ st, star (ipc_step flag) (ipc_init file) st ∧ ∀ st', ¬ ipc_step flag st st') ∧
  ∀ st, star (ipc_step flag) (ipc_init file) st → (∀ st', ¬ ipc_step flag st st') →
    sp st = SDone ∧ rp st = RDone ∧ out_r st = render (file_messages file) +:+ exit_banner.
Proof.
  intros Hf Hm. split.
  - exact (good_completes flag Hf _ Hm _ (good_init_file flag file)).
  - intros st Hs Hno.
    exact (good_stuck flag Hf _ Hm st (good_star flag Hf _ Hm _ _ (good_init_file flag file) Hs) Hno).
Qed.

(** C29: no execution of the two processes is infinite. *)
Theorem ipc_terminates (flag : Z) (file : string) :
  flag = 1%Z ∨ flag = 2%Z → Forall (λ m, m ≠ EXIT_TEXT) (file_messages file) →
  Acc (λ b a, ipc_step flag a b) (ipc_init file).
Proof. intros Hf Hm. exact (good_acc flag Hf _ Hm _ (good_init_file flag file)). Qed.

(** C30: a chunk equal to "EXIT" (a file whose last line is "EXIT" without
    a newline) ends the receiver early, and the sender then blocks for
    ever on [sem_wait(sem_sender)] (line 57 or 69): the exchange
    deadlocks with the rest of the file undelivered. *)
Theorem ipc_exit_line_deadlock (flag : Z) (file : string) pre post :
  flag = 1%Z ∨ flag = 2%Z → Forall (λ m, m ≠ EXIT_TEXT) pre →
  file_messages file = pre ++ EXIT_TEXT :: post →
  ∃ st, star (ipc_step flag) (ipc_init file) st ∧ (∀ st', ¬ ipc_step flag st st') ∧
        rp st = RDone ∧ sp st ≠ SDone ∧ out_r st = render pre +:+ exit_banner.
Proof.
  intros Hf Hpre Hfile. unfold ipc_init. rewrite Hfile.
  destruct (run_rounds flag Hf pre (EXIT_TEXT :: post) (mkChan [] EmptyString)
              (mkMessage EmptyString) EmptyString EmptyString Hpre ltac:(by intros))
    as (c1 & msg1 & os1 & He1 & Hs1).
  pose proof (send_holds flag Hf c1 EXIT_TEXT He1) as Hh.
  destruct (receive_some flag Hf _ EXIT_TEXT msg1 Hh) as [c2 Hc].
  set (os2 := os1 +:+ send_banner EXIT_TEXT).
  assert (Hrun : star (ipc_step flag)
            (mkIpc (SLoop (pre ++ EXIT_TEXT :: post)) RWait 1 0 (mkChan [] EmptyString)
                   (mkMessage EmptyString) EmptyString EmptyString)
            (mkIpc (SLoop post) RDone 0 0 c2 (mkMessage EXIT_TEXT) os2
                   (render pre +:+ exit_banner))).
  { eapply star_trans; [exact Hs1|].
    eapply star_step; [left; apply s_wait|]. eapply star_step; [left; apply s_send|].
    eapply star_step; [left; apply s_post|]. eapply star_step; [right; apply r_wait|].
    eapply star_step; [right; apply r_recv; exact Hc|].
    apply star_one. right. by apply r_exit. }
  destruct post as [|x post].
  - eexists. split; [eapply star_trans; [exact Hrun | apply star_one; left; apply s_eof]|].
    split; [intros st' [Hst|Hst]; inversion Hst|]. done.
  - eexists. split; [exact Hrun|].
    split; [intros st' [Hst|Hst]; inversion Hst|]. done.
Qed.

(** C27: the buffers of the C code are never overrun: in every state the
    two processes reach, whatever the flag, every message in the queue
    has at most 100 bytes, the size of the [message.text] that
    [mq_receive] (receiver.c line 6) copies them into, and its string's
    NUL is among them; the string in the shared segment (a segment of
    [sizeof(message_t)] = 100 bytes) and the receiver's [message.text]
    have fewer than 100 characters, so the [strcpy]s of sender.c line 9
    and receiver.c line 9 stay inside their 100-byte buffers.  This rests
    on [mq_send] being given [sizeof(message.text)] bytes and on
    [fgets(message.text, 100, fp)] reading at most 99 characters. *)
Theorem ipc_buffers_fit (flag : Z) (file : string) (st : ipc) :
  star (ipc_step flag) (ipc_init file) st →
  Forall (λ mn, mn.2 ≤ TEXT_SIZE ∧ String.length mn.1 < mn.2) (ch_queue (ch st)) ∧
  String.length (ch_shm (ch st)) < TEXT_SIZE ∧ String.length (text (r_msg st)) < TEXT_SIZE.
Proof.
  intros Hs. assert (Hi : buffers_fit (ipc_init file)).
  { split; [|split; [constructor | split; unfold fits, TEXT_SIZE; simpl; lia]].
    destruct (fgets_all_spec (String.length file) file ltac:(lia)) as [_ Hf].
    eapply Forall_impl; [exact Hf | unfold fits, TEXT_SIZE; simpl; lia]. }
  assert (Hg : buffers_fit st) by (induction Hs; eauto using buffers_fit_step).
  destruct Hg as (_ & Hq & Hsh & Hm). done.
Qed.

(** C26: the receiver's printout is at every moment a faithful prefix:
    in every reachable state it is the banners of the first chunks of the
    file, in order, each once, followed by "Sender exit!" only once every
    chunk has been printed. *)
Theorem ipc_receiver_prints_prefix (flag : Z) (file : string) (st : ipc) :
  flag = 1%Z ∨ flag = 2%Z → Forall (λ m, m ≠ EXIT_TEXT) (file_messages file) →
  star (ipc_step flag) (ipc_init file) st →
  ∃ pre post, file_messages file = pre ++ post ∧
    (out_r st = render pre ∨ (post = [] ∧ out_r st = render pre +:+ exit_banner)).
Proof.
  intros Hf Hm Hs.
  destruct (good_star flag Hf _ Hm _ _ (good_init_file flag file) Hs); simpl; subst;
    first [ by eexists _, _; split; [eassumption | left]
          | match goal with
            | H : _ = ?p ++ ?m :: ?r |- context [render (?p ++ [?m])] =>
                exists (p ++ [m]), r; split; [by rewrite <- app_assoc | by left]
            end
          | by eexists _, []; split; [rewrite app_nil_r | left]
          | by eexists _, []; split; [rewrite app_nil_r | right] ].
Qed.

(** C28: the sender prints one "Sending message" banner per chunk of the
    file, in order, then the end-of-file banner: in every reachable state
    where it has finished, whatever the flag, its printout is exactly
    that. *)
Theorem ipc_sender_output (flag : Z) (file : string) (st : ipc) :
  star (ipc_step flag) (ipc_init file) st → sp st = SDone →
  out_s st = send_render (file_messages file) +:+ eof_banner.
Proof.
  intros Hs Hd. assert (Hi : sender_out (file_messages file) (ipc_init file)) by (by exists []).
  assert (Ho : sender_out (file_messages file) st) by (induction Hs; eauto using sender_out_step).
  unfold sender_out in Ho. by rewrite Hd in Ho.
Qed.

(** ** Concrete runs *)

Definition demo_file : string := "hi" +:+ String newline ("yo" +:+ String newline EmptyString).

Lemma demo_file_ok : Forall (λ m, m ≠ EXIT_TEXT) (file_messages demo_file).
Proof. apply (bool_decide_unpack _). vm_compute. reflexivity. Qed.

Lemma ipc_mutual_exclusion_witness :
  let st := mkIpc (SSend ("hi" +:+ String newline EmptyString) ["yo" +:+ String newline EmptyString])
                  RWait 0 0 (mkChan [] EmptyString) (mkMessage EmptyString) EmptyString EmptyString in
  star (ipc_step 2) (ipc_init demo_file) st ∧
  sem_s st + sem_r st + cs_s (sp st) + cs_r (rp st) = match rp st with RDone => 0 | _ => 1 end.
Proof.
  intros st. assert (Hs : star (ipc_step 2) (ipc_init demo_file) st) by (apply star_one; left; apply s_wait).
  split; [exact Hs | exact (ipc_mutual_exclusion 2 demo_file st (or_intror eq_refl) demo_file_ok Hs)].
Defined.

Lemma ipc_delivers_witness :
  (∃ st, star (ipc_step 1) (ipc_init demo_file) st ∧ ∀ st', ¬ ipc_step 1 st st') ∧
  ∀ st, star (ipc_step 1) (ipc_init demo_file) st → (∀ st', ¬ ipc_step 1 st st') →
    sp st = SDone ∧ rp st = RDone ∧ out_r st = render (file_messages demo_file) +:+ exit_banner.
Proof. exact (ipc_delivers 1 demo_file (or_introl eq_refl) demo_file_ok). Defined.

Lemma ipc_terminates_witness : Acc (λ b a, ipc_step 2 a b) (ipc_init demo_file).
Proof. exact (ipc_terminates 2 demo_file (or_intror eq_refl) demo_file_ok). Defined.

Lemma ipc_exit_line_deadlock_witness :
  let file := "hi" +:+ String newline "EXIT" in
  ∃ st, star (ipc_step 2) (ipc_init file) st ∧ (∀ st', ¬ ipc_step 2 st st') ∧
        rp st = RDone ∧ sp st ≠ SDone ∧
        out_r st = render ["hi" +:+ String newline EmptyString] +:+ exit_banner.
Proof.
  intros file.
  apply (ipc_exit_line_deadlock 2 file ["hi" +:+ String newline EmptyString] []).
  - by right.
  - apply (bool_decide_unpack _). vm_compute. reflexivity.
  - vm_compute. reflexivity.
Defined.

(** A 120-character line is read in two chunks, of 99 and 21 characters. *)
Example fgets_long_line :
  map String.length (file_messages (String.concat EmptyString (repeat "abcdefghij" 12))) = [99; 21].
Proof. vm_compute. reflexivity. Qed.

Lemma ipc_buffers_fit_witness :
  let st := mkIpc (SPost ["yo" +:+ String newline EmptyString]) RWait 0 0
                  (mkChan [] ("hi" +:+ String newline EmptyString)) (mkMessage EmptyString)
                  (EmptyString +:+ send_banner ("hi" +:+ String newline EmptyString)) EmptyString in
  star (ipc_step 2) (ipc_init demo_file) st ∧
  String.length (ch_shm (ch st)) < TEXT_SIZE ∧ String.length (text (r_msg st)) < TEXT_SIZE.
Proof.
  intros st. assert (Hs : star (ipc_step 2) (ipc_init demo_file) st).
  { eapply star_step; [left; apply s_wait|]. apply star_one. left. apply s_send. }
  split; [exact Hs | exact (proj2 (ipc_buffers_fit 2 demo_file st Hs))].
Defined.

Lemma ipc_receiver_prints_prefix_witness :
  let st := mkIpc (SSend ("hi" +:+ String newline EmptyString) ["yo" +:+ String newline EmptyString])
                  RWait 0 0 (mkChan [] EmptyString) (mkMessage EmptyString) EmptyString EmptyString in
  star (ipc_step 1) (ipc_init demo_file) st ∧
  ∃ pre post, file_messages demo_file = pre ++ post ∧
    (out_r st = render pre ∨ (post = [] ∧ out_r st = render pre +:+ exit_banner)).
Proof.
  intros st. assert (Hs : star (ipc_step 1) (ipc_init demo_file) st) by (apply star_one; left; apply s_wait).
  split; [exact Hs | exact (ipc_receiver_prints_prefix 1 demo_file st (or_introl eq_refl) demo_file_ok Hs)].
Defined.

Lemma ipc_sender_output_witness :
  ∃ st, star (ipc_step 2) (ipc_init demo_file) st ∧ sp st = SDone ∧
        out_s st = send_render (file_messages demo_file) +:+ eof_banner.
Proof.
  destruct (good_completes 2 (or_intror eq_refl) _ demo_file_ok _ (good_init_file 2 demo_file))
    as (st & Hs & Hno).
  destruct (good_stuck 2 (or_intror eq_refl) _ demo_file_ok st
              (good_star 2 (or_intror eq_refl) _ demo_file_ok _ _ (good_init_file 2 demo_file) Hs) Hno)
    as (Hd & _ & _).
  exists st. split; [exact Hs|]. split; [exact Hd|]. exact (ipc_sender_output 2 demo_file st Hs Hd).
Defined.

End Ipc.
