(* ===== verification/IpcMain.v ===== *)
(** * The [main]s of the IPC demo: set-up, clean-up and a whole session

    The code around the two loops of [Ipc]: [atoi] of the mechanism flag,
    [sem_open] of the two named semaphores, the creation of the mailbox (a
    message queue or a shared-memory segment), [fopen] of the input file
    (sender), and at the end the mailbox's removal and [sem_unlink].  The
    kernel's IPC name spaces are the record [kernel]: System V keys and
    segments, message-queue names, named semaphores with their counts.
    [mailbox_t]'s union of an [mqd_t] and a [char *] is one 64-bit word. *)

From S2P Require Import Prelude Ipc.
From stdpp Require Import base gmap strings list.
From Stdlib Require Import ZArith Lia Ascii.

Module IpcMain.
Import Ipc.

(** ** The mailbox union *)

(** [mailbox_t] (receiver.h lines 16-22): [flag] and the union of an
    [mqd_t] (a 32-bit int) and a [char *] (64 bits) sharing their low four
    bytes (x86-64), kept as the 64-bit word they occupy. *)
Record mailbox_t := mkMailbox { flag : Z; storage : Z }.

(** A 32-bit two's-complement reading of the low 32 bits. *)
Definition to_int32 (z : Z) : Z :=
  let u := Z.land z (Z.ones 32) in if Z.ltb u (2 ^ 31) then u else u - 2 ^ 32.

(** [mailbox.storage.mqd = v]: the low four bytes change. *)
Definition set_mqd (v : Z) (mb : mailbox_t) : mailbox_t :=
  mkMailbox (flag mb)
    (Z.lor (Z.land (storage mb) (Z.lxor (Z.ones 64) (Z.ones 32))) (Z.land v (Z.ones 32))).
Definition get_mqd (mb : mailbox_t) : Z := to_int32 (storage mb).

(** [mailbox.storage.shm_addr = a]: all eight bytes change. *)
Definition set_shm_addr (a : Z) (mb : mailbox_t) : mailbox_t :=
  mkMailbox (flag mb) (Z.land a (Z.ones 64)).

(** ** [atoi] *)

Definition is_space (c : ascii) : bool :=
  let n := nat_of_ascii c in (n =? 32) || ((9 <=? n) && (n <=? 13)).

(** The decimal digits [strtol] accumulates, up to the first non-digit. *)
Fixpoint strtol_digits (acc : Z) (s : string) : Z :=
  match s with
  | String c s' =>
      let n := Z.of_nat (nat_of_ascii c) in
      if (48 <=? n)%Z && (n <=? 57)%Z then strtol_digits (10 * acc + (n - 48)) s' else acc
  | EmptyString => acc
  end.

(** [strtol(s, NULL, 10)] before saturation: leading white space, a sign,
    the digits. *)
Fixpoint strtol (s : string) : Z :=
  match s with
  | String c s' =>
      if is_space c then strtol s'
      else if Ascii.eqb c "-" then - strtol_digits 0 s'
      else if Ascii.eqb c "+" then strtol_digits 0 s'
      else strtol_digits 0 s
  | EmptyString => 0
  end.

Definition LONG_MIN : Z := - 2 ^ 63.
Definition LONG_MAX : Z := 2 ^ 63 - 1.

(** [mailbox.flag = atoi(argv[1])] (line 18 of both programs): glibc's
    [atoi] is [(int) strtol(s, NULL, 10)]; [strtol] saturates at the
    [long] bounds and the cast keeps the low 32 bits. *)
Definition atoi (s : string) : Z := to_int32 (Z.max LONG_MIN (Z.min LONG_MAX (strtol s))).

(** ** The kernel's IPC name spaces *)

(** System V shared memory: key to id, live ids, the next id and the
    system's limit on segments (SHMMNI). *)
Record shm_space := mkShm { k_keys : gmap Z Z; k_segs : gset Z; k_next_id : Z; k_seg_max : nat }.

(** POSIX message queues: the names and the limit [queues_max]. *)
Record mq_space := mkMq { k_queues : gset string; k_queue_max : nat }.

(** Named POSIX semaphores and their counts. *)
Record kernel := mkKernel { k_shm : shm_space; k_mq : mq_space; k_sems : gmap string nat }.

Definition with_shm (s : shm_space) (k : kernel) : kernel := mkKernel s (k_mq k) (k_sems k).
Definition with_mq (q : mq_space) (k : kernel) : kernel := mkKernel (k_shm k) q (k_sems k).
Definition with_sems (m : gmap string nat) (k : kernel) : kernel := mkKernel (k_shm k) (k_mq k) m.

(** [shmget(key, size, IPC_CREAT)]: the segment of [key], created if
    needed; ENOSPC (-1) when a new segment would exceed the limit. *)
Definition shmget (key : Z) (s : shm_space) : Z * shm_space :=
  match k_keys s !! key with
  | Some id => (id, s)
  | None =>
      if bool_decide (k_seg_max s ≤ size (k_segs s)) then ((-1)%Z, s)
      else (k_next_id s, mkShm (<[key := k_next_id s]> (k_keys s)) ({[k_next_id s]} ∪ k_segs s)
                               (k_next_id s + 1) (k_seg_max s))
  end.

(** [shmctl(id, IPC_RMID, NULL)]: the segment and its key go; EINVAL (-1)
    when [id] is no segment. *)
Definition shmctl_rmid (id : Z) (s : shm_space) : Z * shm_space :=
  if bool_decide (id ∈ k_segs s)
  then (0%Z, mkShm (filter (λ kv, kv.2 ≠ id) (k_keys s)) (k_segs s ∖ {[id]}) (k_next_id s)
                   (k_seg_max s))
  else ((-1)%Z, s).

(** [mq_open(name, O_CREAT | ..., 0666, &attr)]: the descriptor [d] on the
    queue [name], created if needed; ENOSPC (-1) when a new queue would
    exceed [queues_max]. *)
Definition mq_open_creat (name : string) (d : Z) (q : mq_space) : Z * mq_space :=
  if bool_decide (name ∈ k_queues q) then (d, q)
  else if bool_decide (k_queue_max q ≤ size (k_queues q)) then ((-1)%Z, q)
  else (d, mkMq ({[name]} ∪ k_queues q) (k_queue_max q)).

(** [mq_unlink(name)]: ENOENT (-1) when no queue has that name. *)
Definition mq_unlink (name : string) (q : mq_space) : Z * mq_space :=
  if bool_decide (name ∈ k_queues q)
  then (0%Z, mkMq (k_queues q ∖ {[name]}) (k_queue_max q))
  else ((-1)%Z, q).

(** [sem_open(name, O_CREAT, 0666, v)]: without [O_EXCL] an existing
    semaphore is opened with the count it has; [v] is used only when the
    name is new. *)
Definition sem_open_creat (name : string) (v : nat) (k : kernel) : kernel :=
  match k_sems k !! name with
  | Some _ => k
  | None => with_sems (<[name := v]> (k_sems k)) k
  end.

(** [sem_unlink(name)]: the name goes (ENOENT, ignored, when absent). *)
Definition sem_unlink (name : string) (k : kernel) : kernel := with_sems (delete name (k_sems k)) k.

Definition MQ_NAME : string := "/mymq".
Definition MQ_UNLINK_NAME : string := "/my_mq".
Definition SEM_SENDER : string := "sem_sender".
Definition SEM_RECEIVER : string := "sem_receiver".

(** ** The [main]s *)

(** What the kernel chooses for one process, and the union's initial
    (uninitialised) contents: the descriptor [mq_open] returns, the
    address [shmat] returns. *)
Record choices := mkChoices { c_mqd : Z; c_addr : Z; c_junk : Z }.

Definition mq_banner : string := esc "36" +:+ "Message Passing" +:+ String newline (esc "0").
Definition shm_banner : string := esc "36" +:+ "Shared Memory" +:+ String newline (esc "0").

(** Lines 23-45 of sender.c: the mailbox of the mechanism [flag] ([key] is
    [ftok("input.txt", 14)]); [inl 1] is the [return 1] of lines 34 and
    42.  The [shmat] result is not checked by the code. *)
Definition open_mailbox (key : Z) (cs : choices) (mb : mailbox_t) (k : kernel)
    : (Z + mailbox_t) * kernel * string :=
  if bool_decide (flag mb = 1%Z) then
    let '(r, q) := mq_open_creat MQ_NAME (c_mqd cs) (k_mq k) in
    let mb1 := set_mqd r mb in
    ((if bool_decide (get_mqd mb1 = (-1)%Z) then inl 1%Z else inr mb1), with_mq q k, mq_banner)
  else if bool_decide (flag mb = 2%Z) then
    let '(id, s) := shmget key (k_shm k) in
    let mb1 := set_mqd id mb in
    ((if bool_decide (get_mqd mb1 = (-1)%Z) then inl 1%Z
      else inr (set_shm_addr (c_addr cs) mb1)), with_shm s k, shm_banner)
  else (inr mb, k, EmptyString).

(** Lines 18-45 of sender.c: the flag, the two semaphores, the mailbox. *)
Definition main_setup (argv1 : string) (key : Z) (cs : choices) (k : kernel)
    : (Z + mailbox_t) * kernel * string :=
  let mb := mkMailbox (atoi argv1) (c_junk cs) in
  let k1 := sem_open_creat SEM_RECEIVER 0 (sem_open_creat SEM_SENDER 1 k) in
  open_mailbox key cs mb k1.

(** The sender up to its loop (sender.c lines 13-54): the common set-up,
    then [fopen(argv[2], "r")]; the file system [fs] maps names to
    contents, and a missing file is the [return 1] of line 52. *)
Definition sender_setup (argv1 argv2 : string) (fs : gmap string string) (key : Z) (cs : choices)
    (k : kernel) : (Z + mailbox_t * string) * kernel * string :=
  match main_setup argv1 key cs k with
  | (inl c, k1, o) => (inl c, k1, o)
  | (inr mb, k1, o) =>
      match fs !! argv2 with
      | None => (inl 1%Z, k1, o)
      | Some file => (inr (mb, file), k1, o)
      end
  end.

(** The receiver up to its loop (receiver.c lines 13-45): the same code. *)
Definition receiver_setup (argv1 : string) (key : Z) (cs : choices) (k : kernel)
    : (Z + mailbox_t) * kernel * string :=
  main_setup argv1 key cs k.

(** Lines 79-82 of sender.c: [shmdt], then [shmctl(storage.mqd,
    IPC_RMID)]; the status is ignored. *)
Definition cleanup_shm (mb : mailbox_t) (k : kernel) : kernel :=
  with_shm (snd (shmctl_rmid (get_mqd mb) (k_shm k))) k.

(** Lines 76-78: [mq_close], then [mq_unlink("/my_mq")]. *)
Definition cleanup_mq (k : kernel) : kernel := with_mq (snd (mq_unlink MQ_UNLINK_NAME (k_mq k))) k.

(** The sender's tear-down (sender.c lines 75-89); [fclose] and
    [sem_close] release only the process's handles. *)
Definition sender_teardown (mb : mailbox_t) (k : kernel) : kernel :=
  let k1 := if bool_decide (flag mb = 1%Z) then cleanup_mq k
            else if bool_decide (flag mb = 2%Z) then cleanup_shm mb k else k in
  sem_unlink SEM_RECEIVER (sem_unlink SEM_SENDER k1).

(** The receiver's tear-down (receiver.c lines 66-78). *)
Definition receiver_teardown (mb : mailbox_t) (k : kernel) : kernel :=
  let k1 := if bool_decide (flag mb = 1%Z) then cleanup_mq k
            else if bool_decide (flag mb = 2%Z) then cleanup_shm mb k else k in
  sem_unlink SEM_RECEIVER (sem_unlink SEM_SENDER k1).

(** ** A session: [./sender argv1 argv2] and [./receiver argv1] *)

Definition sem_count (name : string) (k : kernel) : nat := default 0 (k_sems k !! name).

(** Both [main]s past their set-up, the sender's first: the two mailboxes,
    the file and the kernel; [None] when one of them returned early. *)
Definition session_start (argv1 argv2 : string) (fs : gmap string string) (key : Z)
    (cs cr : choices) (k : kernel) : option (mailbox_t * mailbox_t * string * kernel) :=
  match sender_setup argv1 argv2 fs key cs k with
  | (inr (mbs, file), k1, _) =>
      match receiver_setup argv1 key cr k1 with
      | (inr mbr, k2, _) => Some (mbs, mbr, file, k2)
      | _ => None
      end
  | _ => None
  end.

(** The two loops start with the counts the kernel's semaphores have. *)
Definition protocol_start (file : string) (k : kernel) : ipc :=
  mkIpc (SLoop (file_messages file)) RWait (sem_count SEM_SENDER k) (sem_count SEM_RECEIVER k)
        (mkChan [] EmptyString) (mkMessage EmptyString) EmptyString EmptyString.

(** The kernel's semaphores hold the counts of the protocol state [st]:
    what the kernel keeps when the processes stop at [st]. *)
Definition sync_sems (st : ipc) (k : kernel) : kernel :=
  with_sems (<[SEM_SENDER := sem_s st]> (<[SEM_RECEIVER := sem_r st]> (k_sems k))) k.

(** Both loops ended at [st]: both tear-downs. *)
Definition session_end (mbs mbr : mailbox_t) (st : ipc) (k : kernel) : kernel :=
  receiver_teardown mbr (sender_teardown mbs (sync_sems st k)).

(** ** Lemmas on the name spaces *)

(** Every key names a live segment, and fresh ids are not in use. *)
Definition shm_wf (s : shm_space) : Prop :=
  (∀ key id, k_keys s !! key = Some id → id ∈ k_segs s) ∧ (k_next_id s ∉ k_segs s) ∧
  (∀ id, id ∈ k_segs s → (id < k_next_id s)%Z).

Lemma shmget_spec key s id s1 :
  shm_wf s → shmget key s = (id, s1) →
  shm_wf s1 ∧ ((id ∈ k_segs s1 ∧ k_keys s1 !! key = Some id) ∨ (id = (-1)%Z ∧ s1 = s)).
Proof.
  intros (Hk & Hn & Hlt). unfold shmget. destruct (k_keys s !! key) as [i|] eqn:E.
  - intros [= <- <-]. split; [done|]. left. split; [by apply (Hk key) | done].
  - case_bool_decide; intros [= <- <-]; [split; [done | by right]|].
    unfold shm_wf. cbn [k_keys k_segs k_next_id].
    split; [|left; split; [set_solver | apply lookup_insert_eq]].
    split; [|split].
    + intros key' id'. rewrite lookup_insert_Some. intros [[_ <-] | [_ H']]; [set_solver|].
      apply elem_of_union_r. by apply (Hk key').
    + rewrite elem_of_union, elem_of_singleton. intros [H' | H']; [lia|]. apply Hlt in H'. lia.
    + intros id'. rewrite elem_of_union, elem_of_singleton. intros [-> | H']; [lia|].
      apply Hlt in H'. lia.
Qed.

Lemma shmget_again key s id : k_keys s !! key = Some id → shmget key s = (id, s).
Proof. intros H. unfold shmget. by rewrite H. Qed.

Lemma shmctl_other id x s : id ∈ k_segs s → x ≠ id → id ∈ k_segs (snd (shmctl_rmid x s)).
Proof. intros H Hne. unfold shmctl_rmid. case_bool_decide; simpl; set_solver. Qed.

Lemma mq_open_creat_spec name d q r q1 :
  mq_open_creat name d q = (r, q1) → (name ∈ k_queues q1 ∧ r = d) ∨ (r = (-1)%Z ∧ q1 = q).
Proof.
  unfold mq_open_creat. repeat case_bool_decide; intros [= <- <-]; [by left | by right |].
  left. split; [simpl; set_solver | done].
Qed.

Lemma mq_unlink_other name q : name ≠ MQ_UNLINK_NAME → name ∈ k_queues q →
  name ∈ k_queues (snd (mq_unlink MQ_UNLINK_NAME q)).
Proof. intros Hne H. unfold mq_unlink. case_bool_decide; simpl; set_solver. Qed.

(** The union: what [storage.mqd] reads after each write. *)
Lemma get_mqd_set_mqd v mb : get_mqd (set_mqd v mb) = to_int32 v.
Proof.
  unfold get_mqd, set_mqd, to_int32. simpl.
  replace (Z.land (Z.lor (Z.land (storage mb) (Z.lxor (Z.ones 64) (Z.ones 32))) (Z.land v (Z.ones 32)))
             (Z.ones 32)) with (Z.land v (Z.ones 32)); [done|].
  apply Z.bits_inj'. intros n Hn.
  rewrite !Z.land_spec, Z.lor_spec, !Z.land_spec, Z.lxor_spec, !Z.testbit_ones by lia.
  destruct (Z.ltb_spec n 32), (Z.ltb_spec n 64), (Z.leb_spec 0 n); try lia;
    destruct (Z.testbit v n), (Z.testbit (storage mb) n); reflexivity.
Qed.

Lemma get_mqd_set_shm_addr a mb : get_mqd (set_shm_addr a mb) = to_int32 a.
Proof.
  unfold get_mqd, set_shm_addr, to_int32. simpl.
  rewrite <- Z.land_assoc. change (Z.land (Z.ones 64) (Z.ones 32)) with (Z.ones 32). done.
Qed.

Lemma to_int32_minus_one z : to_int32 z ≠ (-1)%Z → z ≠ (-1)%Z.
Proof. intros H ->. by apply H. Qed.

(** A page-aligned address has a page-aligned low half. *)
Lemma to_int32_page (a : Z) : (a mod 4096 = 0)%Z → (to_int32 a mod 4096 = 0)%Z.
Proof.
  intros Ha. unfold to_int32. rewrite Z.land_ones by lia.
  assert (H : ((a mod 2 ^ 32) mod 4096 = 0)%Z).
  { rewrite Z.mod_mod_divide; [done | by exists (2 ^ 20)%Z]. }
  destruct (Z.ltb_spec (a mod 2 ^ 32) (2 ^ 31)); [done|].
  rewrite Zminus_mod, H. reflexivity.
Qed.

Lemma sem_open_creat_shm n v k : k_shm (sem_open_creat n v k) = k_shm k.
Proof. unfold sem_open_creat. by destruct (k_sems k !! n). Qed.
Lemma sem_open_creat_mq n v k : k_mq (sem_open_creat n v k) = k_mq k.
Proof. unfold sem_open_creat. by destruct (k_sems k !! n). Qed.
Lemma sem_open_creat_present n v k : is_Some (k_sems k !! n) → sem_open_creat n v k = k.
Proof. unfold sem_open_creat. by intros [? ->]. Qed.
Lemma sem_open_creat_sems n v k :
  k_sems (sem_open_creat n v k) = <[n := default v (k_sems k !! n)]> (k_sems k).
Proof.
  unfold sem_open_creat. destruct (k_sems k !! n) eqn:E; simpl; [|done].
  by rewrite insert_id.
Qed.

#[export] Hint Rewrite sem_open_creat_shm sem_open_creat_mq sem_open_creat_sems : sys_rw.

Lemma sem_names_ne : SEM_SENDER ≠ SEM_RECEIVER.
Proof. discriminate. Qed.

(** The semaphores after both [sem_open]s of a [main]. *)
Definition opened (k : kernel) : kernel := sem_open_creat SEM_RECEIVER 0 (sem_open_creat SEM_SENDER 1 k).

Lemma opened_present k :
  is_Some (k_sems (opened k) !! SEM_SENDER) ∧ is_Some (k_sems (opened k) !! SEM_RECEIVER).
Proof.
  unfold opened. autorewrite with sys_rw.
  split; [rewrite lookup_insert_ne by (symmetry; apply sem_names_ne)|]; by rewrite lookup_insert_eq.
Qed.

Lemma opened_again k : is_Some (k_sems k !! SEM_SENDER) → is_Some (k_sems k !! SEM_RECEIVER) →
  opened k = k.
Proof.
  intros HS HR. unfold opened. rewrite (sem_open_creat_present SEM_SENDER) by done.
  by apply sem_open_creat_present.
Qed.

Lemma opened_count k :
  sem_count SEM_SENDER (opened k) = default 1 (k_sems k !! SEM_SENDER) ∧
  sem_count SEM_RECEIVER (opened k) = default 0 (k_sems k !! SEM_RECEIVER).
Proof.
  unfold sem_count, opened. autorewrite with sys_rw.
  rewrite lookup_insert_ne by (symmetry; apply sem_names_ne).
  rewrite !lookup_insert_eq, lookup_insert_ne by apply sem_names_ne. done.
Qed.

(** ** The set-up and the tear-down *)

(** Whatever happens, [open_mailbox] leaves the semaphores alone, and on
    success the mailbox keeps its flag. *)
Lemma open_mailbox_sems key cs mb k r k1 o :
  open_mailbox key cs mb k = (r, k1, o) → k_sems k1 = k_sems k.
Proof.
  unfold open_mailbox. repeat case_bool_decide;
    repeat match goal with |- context [let '(_, _) := ?p in _] => destruct p end;
    intros [= _ <- _]; reflexivity.
Qed.

Lemma open_mailbox_flag key cs mb k mb' k1 o :
  open_mailbox key cs mb k = (inr mb', k1, o) → flag mb' = flag mb.
Proof.
  unfold open_mailbox. repeat case_bool_decide;
    repeat match goal with |- context [let '(_, _) := ?p in _] => destruct p end;
    repeat case_bool_decide; intros [= <- _ _]; reflexivity.
Qed.

(** A message-queue mailbox that opens has its queue. *)
Lemma open_mailbox_mq key cs mb k mb' k1 o :
  flag mb = 1%Z → open_mailbox key cs mb k = (inr mb', k1, o) →
  MQ_NAME ∈ k_queues (k_mq k1) ∧ k_shm k1 = k_shm k.
Proof.
  intros Hf. unfold open_mailbox. rewrite bool_decide_eq_true_2 by done.
  destruct (mq_open_creat MQ_NAME (c_mqd cs) (k_mq k)) as [r q] eqn:E.
  case_bool_decide as Hr; [done|]. intros [= _ <- _]. rewrite get_mqd_set_mqd in Hr.
  destruct (mq_open_creat_spec _ _ _ _ _ E) as [[Hin _] | [-> _]]; [done | by destruct Hr].
Qed.

(** A shared-memory mailbox that opens holds the segment [shmget] gave. *)
Lemma open_mailbox_shm key cs mb k mb' k1 o :
  flag mb = 2%Z → open_mailbox key cs mb k = (inr mb', k1, o) →
  shmget key (k_shm k) = (fst (shmget key (k_shm k)), k_shm k1) ∧
  fst (shmget key (k_shm k)) ≠ (-1)%Z ∧
  mb' = set_shm_addr (c_addr cs) (set_mqd (fst (shmget key (k_shm k))) mb).
Proof.
  intros Hf. unfold open_mailbox. rewrite bool_decide_eq_false_2 by lia.
  rewrite bool_decide_eq_true_2 by done.
  destruct (shmget key (k_shm k)) as [id s] eqn:E. simpl.
  case_bool_decide as Hr; [done|]. intros [= <- <- _]. rewrite get_mqd_set_mqd in Hr.
  split; [done|]. split; [by apply to_int32_minus_one | done].
Qed.

Lemma main_setup_sems argv1 key cs k r k1 o :
  main_setup argv1 key cs k = (r, k1, o) → k_sems k1 = k_sems (opened k).
Proof. apply open_mailbox_sems. Qed.

(** What the tear-downs do to each name space. *)
Lemma teardown_sems mb k :
  k_sems (sender_teardown mb k) = delete SEM_RECEIVER (delete SEM_SENDER (k_sems k)) ∧
  k_sems (receiver_teardown mb k) = delete SEM_RECEIVER (delete SEM_SENDER (k_sems k)).
Proof. unfold sender_teardown, receiver_teardown. by repeat case_bool_decide. Qed.

Lemma teardown_shm mb k :
  flag mb = 2%Z →
  k_shm (sender_teardown mb k) = snd (shmctl_rmid (get_mqd mb) (k_shm k)) ∧
  k_shm (receiver_teardown mb k) = snd (shmctl_rmid (get_mqd mb) (k_shm k)).
Proof.
  intros Hf. unfold sender_teardown, receiver_teardown.
  rewrite bool_decide_eq_false_2 by lia. by rewrite bool_decide_eq_true_2.
Qed.

Lemma teardown_mq mb k :
  MQ_NAME ∈ k_queues (k_mq k) →
  MQ_NAME ∈ k_queues (k_mq (sender_teardown mb k)) ∧ MQ_NAME ∈ k_queues (k_mq (receiver_teardown mb k)).
Proof.
  intros H. unfold sender_teardown, receiver_teardown.
  repeat case_bool_decide; simpl; split; try done; by apply mq_unlink_other.
Qed.

Lemma main_setup_open argv1 key cs k :
  main_setup argv1 key cs k = open_mailbox key cs (mkMailbox (atoi argv1) (c_junk cs)) (opened k).
Proof. reflexivity. Qed.

Lemma open_mailbox_status key cs mb k c k1 o : open_mailbox key cs mb k = (inl c, k1, o) → c = 1%Z.
Proof.
  unfold open_mailbox. repeat case_bool_decide;
    repeat match goal with |- context [let '(_, _) := ?p in _] => destruct p end;
    repeat case_bool_decide; by intros [= <- _ _].
Qed.

(** A session that starts: both [main]s got their mailbox, the sender
    its file. *)
Lemma session_start_steps argv1 argv2 fs key cs cr k mbs mbr file k1 :
  session_start argv1 argv2 fs key cs cr k = Some (mbs, mbr, file, k1) →
  ∃ k0 o0 o1, open_mailbox key cs (mkMailbox (atoi argv1) (c_junk cs)) (opened k) = (inr mbs, k0, o0) ∧
    open_mailbox key cr (mkMailbox (atoi argv1) (c_junk cr)) (opened k0) = (inr mbr, k1, o1) ∧
    fs !! argv2 = Some file.
Proof.
  unfold session_start, sender_setup, receiver_setup. rewrite !main_setup_open.
  destruct (open_mailbox key cs (mkMailbox (atoi argv1) (c_junk cs)) (opened k)) as [[[c|mb0] k0] o0] eqn:E0; [done|].
  destruct (fs !! argv2) as [f|] eqn:Ef; [|done]. rewrite main_setup_open.
  destruct (open_mailbox key cr (mkMailbox (atoi argv1) (c_junk cr)) (opened k0)) as [[[c|mb1] k2] o2] eqn:E2; [done|].
  intros [= <- <- <- <-]. eauto 10.
Qed.

(** ... the file is the one [fopen] found, both mailboxes carry the flag
    of [argv1], and the semaphores are those of the first [sem_open]s. *)
Lemma session_start_inv argv1 argv2 fs key cs cr k mbs mbr file k1 :
  session_start argv1 argv2 fs key cs cr k = Some (mbs, mbr, file, k1) →
  fs !! argv2 = Some file ∧ flag mbs = atoi argv1 ∧ flag mbr = atoi argv1 ∧
  k_sems k1 = k_sems (opened k).
Proof.
  intros H. destruct (session_start_steps _ _ _ _ _ _ _ _ _ _ _ H) as (k0 & o0 & o1 & E0 & E1 & Hf).
  split; [done|]. split; [exact (open_mailbox_flag _ _ _ _ _ _ _ E0)|].
  split; [exact (open_mailbox_flag _ _ _ _ _ _ _ E1)|].
  rewrite (open_mailbox_sems _ _ _ _ _ _ _ E1), opened_again; [exact (open_mailbox_sems _ _ _ _ _ _ _ E0)|..];
    rewrite (open_mailbox_sems _ _ _ _ _ _ _ E0); apply opened_present.
Qed.

Lemma session_start_counts argv1 argv2 fs key cs cr k mbs mbr file k1 :
  session_start argv1 argv2 fs key cs cr k = Some (mbs, mbr, file, k1) →
  sem_count SEM_SENDER k1 = default 1 (k_sems k !! SEM_SENDER) ∧
  sem_count SEM_RECEIVER k1 = default 0 (k_sems k !! SEM_RECEIVER).
Proof.
  intros H. destruct (session_start_inv _ _ _ _ _ _ _ _ _ _ _ H) as (_ & _ & _ & Hs).
  unfold sem_count at 1 2. rewrite Hs. apply opened_count.
Qed.

(** On a kernel without the two semaphores the loops start as in
    [ipc_init]. *)
Lemma session_start_clean argv1 argv2 fs key cs cr k mbs mbr file k1 :
  k_sems k !! SEM_SENDER = None → k_sems k !! SEM_RECEIVER = None →
  session_start argv1 argv2 fs key cs cr k = Some (mbs, mbr, file, k1) →
  protocol_start file k1 = ipc_init file.
Proof.
  intros HS HR H. destruct (session_start_counts _ _ _ _ _ _ _ _ _ _ _ H) as [C1 C2].
  unfold protocol_start, ipc_init. by rewrite C1, C2, HS, HR.
Qed.

Lemma session_end_sems mbs mbr st k :
  k_sems (session_end mbs mbr st k) = delete SEM_RECEIVER (delete SEM_SENDER (k_sems k)).
Proof.
  unfold session_end. rewrite (proj2 (teardown_sems _ _)), (proj1 (teardown_sems _ _)).
  unfold sync_sems, with_sems. cbn [k_sems].
  pose proof sem_names_ne. apply map_eq. intros n.
  destruct (decide (n = SEM_RECEIVER)) as [->|]; [by simplify_map_eq|].
  destruct (decide (n = SEM_SENDER)) as [->|]; by simplify_map_eq.
Qed.

Lemma opened_delete k :
  k_sems k !! SEM_SENDER = None → k_sems k !! SEM_RECEIVER = None →
  delete SEM_RECEIVER (delete SEM_SENDER (k_sems (opened k))) = k_sems k.
Proof.
  intros HS HR. unfold opened. autorewrite with sys_rw.
  pose proof sem_names_ne. apply map_eq. intros n.
  destruct (decide (n = SEM_RECEIVER)) as [->|]; [by simplify_map_eq|].
  destruct (decide (n = SEM_SENDER)) as [->|]; by simplify_map_eq.
Qed.

Lemma sync_sems_lookup st k :
  k_sems (sync_sems st k) !! SEM_SENDER = Some (sem_s st) ∧
  k_sems (sync_sems st k) !! SEM_RECEIVER = Some (sem_r st).
Proof.
  pose proof sem_names_ne. unfold sync_sems, with_sems. cbn [k_sems]. by simplify_map_eq.
Qed.

(** ** The loops started in a bad state *)

(** Both semaphores at 0 and the receiver in [sem_wait]: nobody can enter
    a critical section; the sender can only reach end of file. *)
Definition frozen (st : ipc) : Prop :=
  sem_s st = 0 ∧ sem_r st = 0 ∧ rp st = RWait ∧ ch st = mkChan [] EmptyString ∧
  out_r st = EmptyString ∧ ((∃ rest, sp st = SLoop rest) ∨ sp st = SExitWait).

Lemma frozen_step f st st' : frozen st → ipc_step f st st' → frozen st'.
Proof.
  intros (Hs & Hr & Hrp & Hc & Ho & Hsp) Hst. destruct st as [s r ss sr c msg os or]; simpl in *; subst.
  destruct Hsp as [[rest ->] | ->]; destruct Hst as [Hst|Hst]; inversion Hst; subst;
    repeat split; by right.
Qed.

Lemma frozen_star f st st' : frozen st → star (ipc_step f) st st' → frozen st'.
Proof. intros Hf Hs. induction Hs; eauto using frozen_step. Qed.

(** A run stopped while one process is in its critical section leaves
    both semaphores at 0. *)
Lemma killed_counts f file st :
  f = 1%Z ∨ f = 2%Z → Forall (λ m, m ≠ EXIT_TEXT) (file_messages file) →
  star (ipc_step f) (ipc_init file) st → cs_s (sp st) + cs_r (rp st) = 1 →
  sem_s st = 0 ∧ sem_r st = 0.
Proof.
  intros Hf Hm Hs Hcs.
  pose proof (good_conservation f (file_messages file) st
                (good_star f Hf _ Hm _ _ (good_init_file f file) Hs)) as Hc.
  destruct (rp st), (sp st); simpl in *; lia.
Qed.

(** With a flag other than 1 and 2, [send] and [receive] do nothing. *)
Lemma send_unknown f m c : f ≠ 1%Z → f ≠ 2%Z → send m f c = c.
Proof. intros H1 H2. unfold send. by rewrite !bool_decide_eq_false_2. Qed.

Lemma receive_unknown f msg c : f ≠ 1%Z → f ≠ 2%Z → receive msg f c = Some (msg, c).
Proof. intros H1 H2. unfold receive. by rewrite !bool_decide_eq_false_2. Qed.

(** ... so the receiver's buffer keeps its first contents and "EXIT" is
    never seen. *)
Lemma unknown_star f st st' :
  f ≠ 1%Z → f ≠ 2%Z → star (ipc_step f) st st' →
  text (r_msg st) ≠ EXIT_TEXT → rp st ≠ RDone → r_msg st' = r_msg st ∧ rp st' ≠ RDone.
Proof.
  intros H1 H2 Hs. induction Hs as [|a b c Hab Hbc IH]; [done|]. intros Hm Hr.
  assert (r_msg b = r_msg a ∧ rp b ≠ RDone) as [Eb Rb].
  { destruct Hab as [Hab|Hab]; inversion Hab; subst; simpl in *; try done.
    rewrite receive_unknown in H by done. by injection H as <- <-. }
  rewrite Eb in IH. destruct (IH Hm Rb) as [-> ?]. done.
Qed.

(** One round per chunk, each one printing the buffer's first contents. *)
Lemma unknown_rounds f msgs : ∀ c msg os or,
  f ≠ 1%Z → f ≠ 2%Z → text msg ≠ EXIT_TEXT →
  ∃ os' or', star (ipc_step f) (mkIpc (SLoop msgs) RWait 1 0 c msg os or)
                              (mkIpc (SLoop []) RWait 1 0 c msg os' or').
Proof.
  induction msgs as [|m msgs IH]; intros c msg os or H1 H2 Hm; [eexists _, _; constructor|].
  destruct (IH c msg (os +:+ send_banner m) (or +:+ recv_banner (text msg)) H1 H2 Hm)
    as (os' & or' & Hs).
  exists os', or'.
  eapply star_step; [left; apply s_wait|].
  eapply star_step; [left; apply s_send|]. rewrite send_unknown by done.
  eapply star_step; [left; apply s_post|]. eapply star_step; [right; apply r_wait|].
  eapply star_step; [right; apply r_recv; by apply receive_unknown|].
  eapply star_step; [right; by apply r_print|]. eapply star_step; [right; apply r_post|]. exact Hs.
Qed.

(** ... and the "EXIT" round, after which only the receiver is left,
    blocked in [sem_wait(sem_receiver)]. *)
Lemma unknown_exit f c msg os or :
  f ≠ 1%Z → f ≠ 2%Z → text msg ≠ EXIT_TEXT →
  ∃ os' or', star (ipc_step f) (mkIpc (SLoop []) RWait 1 0 c msg os or)
                              (mkIpc SDone RWait 1 0 c msg os' or').
Proof.
  intros H1 H2 Hm. eexists _, _.
  eapply star_step; [left; apply s_eof|]. eapply star_step; [left; apply s_exit_wait|].
  eapply star_step; [left; apply s_exit_send|]. rewrite send_unknown by done.
  eapply star_step; [left; apply s_exit_post|]. eapply star_step; [right; apply r_wait|].
  eapply star_step; [right; apply r_recv; by apply receive_unknown|].
  eapply star_step; [right; by apply r_print|]. apply star_one. right. apply r_post.
Qed.

Lemma done_wait_stuck f c msg os or st' : ¬ ipc_step f (mkIpc SDone RWait 1 0 c msg os or) st'.
Proof. intros [H|H]; inversion H. Qed.

Lemma opened_shm k : k_shm (opened k) = k_shm k.
Proof. unfold opened. by autorewrite with sys_rw. Qed.
Lemma opened_mq k : k_mq (opened k) = k_mq k.
Proof. unfold opened. by autorewrite with sys_rw. Qed.

(** With room for it, the message queue exists after [mq_open], whether
    or not the descriptor is usable. *)
Lemma open_mailbox_mq_room key cs mb k r k1 o :
  flag mb = 1%Z → MQ_NAME ∈ k_queues (k_mq k) ∨ size (k_queues (k_mq k)) < k_queue_max (k_mq k) →
  open_mailbox key cs mb k = (r, k1, o) → MQ_NAME ∈ k_queues (k_mq k1).
Proof.
  intros Hf Hroom. unfold open_mailbox. rewrite bool_decide_eq_true_2 by done.
  unfold mq_open_creat. destruct Hroom as [Hin|Hlt]; repeat case_bool_decide; try done; try lia;
    intros [= _ <- _]; simpl; set_solver.
Qed.

(** ** Properties of the [main]s and of a session *)

(** C24: a whole session on a kernel without the two semaphores, with
    either mechanism: both set-ups succeed on the kernel's answers, the
    two loops then exchange the file as in [Ipc] (some execution
    completes, and every complete one has the receiver print each chunk
    of the file in order, then "Sender exit!"), and the two tear-downs
    remove both semaphore names, leaving the semaphore name space as it
    was. *)
Theorem session_delivers argv1 argv2 fs key cs cr k mbs mbr file k1 :
  atoi argv1 = 1%Z ∨ atoi argv1 = 2%Z →
  k_sems k !! SEM_SENDER = None → k_sems k !! SEM_RECEIVER = None →
  Forall (λ m, m ≠ EXIT_TEXT) (file_messages file) →
  session_start argv1 argv2 fs key cs cr k = Some (mbs, mbr, file, k1) →
  fs !! argv2 = Some file ∧
  (∃ st, star (ipc_step (atoi argv1)) (protocol_start file k1) st ∧
         ∀ st', ¬ ipc_step (atoi argv1) st st') ∧
  ∀ st, star (ipc_step (atoi argv1)) (protocol_start file k1) st →
    (∀ st', ¬ ipc_step (atoi argv1) st st') →
    out_r st = render (file_messages file) +:+ exit_banner ∧
    k_sems (session_end mbs mbr st k1) = k_sems k.
Proof.
  intros Hf HS HR Hm Hss.
  destruct (session_start_inv _ _ _ _ _ _ _ _ _ _ _ Hss) as (Hfs & _ & _ & Hsems).
  rewrite (session_start_clean _ _ _ _ _ _ _ _ _ _ _ HS HR Hss).
  pose proof (good_init_file (atoi argv1) file) as Hg.
  split; [done|]. split; [exact (good_completes _ Hf _ Hm _ Hg)|].
  intros st Hs Hno. split.
  - exact (proj2 (proj2 (good_stuck _ Hf _ Hm st (good_star _ Hf _ Hm _ _ Hg Hs) Hno))).
  - rewrite session_end_sems, Hsems. by apply opened_delete.
Qed.

(** C31: [sem_open] without [O_EXCL] (line 20-21 of both programs) reuses
    semaphores a previous run left behind with their counts.  A run
    stopped (killed, as the user must when it hangs) while one process is
    between its [sem_wait] and [sem_post] leaves both counts at 0; a new
    session on that kernel then never delivers anything: in every state
    its loops reach, the receiver is still in its first [sem_wait], has
    printed nothing, and the mailbox is untouched. *)
Theorem stale_semaphores_block f0 file0 st0 k argv1 argv2 fs key cs cr mbs mbr file k1 :
  f0 = 1%Z ∨ f0 = 2%Z → Forall (λ m, m ≠ EXIT_TEXT) (file_messages file0) →
  star (ipc_step f0) (ipc_init file0) st0 → cs_s (sp st0) + cs_r (rp st0) = 1 →
  session_start argv1 argv2 fs key cs cr (sync_sems st0 k) = Some (mbs, mbr, file, k1) →
  ∀ st, star (ipc_step (atoi argv1)) (protocol_start file k1) st →
    rp st = RWait ∧ out_r st = EmptyString ∧ ch st = mkChan [] EmptyString.
Proof.
  intros Hf Hm Hs0 Hcs Hss st Hs.
  destruct (killed_counts _ _ _ Hf Hm Hs0 Hcs) as [Z1 Z2].
  destruct (session_start_counts _ _ _ _ _ _ _ _ _ _ _ Hss) as [C1 C2].
  destruct (sync_sems_lookup st0 k) as [L1 L2]. rewrite L1, Z1 in C1. rewrite L2, Z2 in C2.
  assert (Hfz : frozen (protocol_start file k1)).
  { unfold frozen, protocol_start. simpl. rewrite C1, C2. repeat split. left. eauto. }
  destruct (frozen_star _ _ _ Hfz Hs) as (_ & _ & Hrp & Hc & Ho & _). done.
Qed.

(** C32: nothing checks [atoi(argv[1])] (line 18): with any other value
    than 1 or 2 both set-ups succeed without a mailbox, [send] and
    [receive] do nothing, the receiver never reads "EXIT" and never ends;
    once the sender is done the receiver is blocked for ever in
    [sem_wait(sem_receiver)]. *)
Theorem unknown_flag_receiver_hangs argv1 argv2 fs key cs cr k mbs mbr file k1 :
  atoi argv1 ≠ 1%Z → atoi argv1 ≠ 2%Z →
  k_sems k !! SEM_SENDER = None → k_sems k !! SEM_RECEIVER = None →
  session_start argv1 argv2 fs key cs cr k = Some (mbs, mbr, file, k1) →
  (∀ st, star (ipc_step (atoi argv1)) (protocol_start file k1) st → rp st ≠ RDone) ∧
  ∃ st, star (ipc_step (atoi argv1)) (protocol_start file k1) st ∧ sp st = SDone ∧
        rp st = RWait ∧ ∀ st', ¬ ipc_step (atoi argv1) st st'.
Proof.
  intros H1 H2 HS HR Hss. rewrite (session_start_clean _ _ _ _ _ _ _ _ _ _ _ HS HR Hss).
  split.
  - intros st Hs. exact (proj2 (unknown_star _ _ _ H1 H2 Hs ltac:(done) ltac:(done))).
  - unfold ipc_init.
    destruct (unknown_rounds _ (file_messages file) (mkChan [] EmptyString) (mkMessage EmptyString)
                EmptyString EmptyString H1 H2 ltac:(done)) as (os1 & or1 & Hs1).
    destruct (unknown_exit _ (mkChan [] EmptyString) (mkMessage EmptyString) os1 or1 H1 H2 ltac:(done))
      as (os2 & or2 & Hs2).
    eexists. split; [exact (star_trans _ _ _ _ Hs1 Hs2)|]. split; [done|]. split; [done|].
    apply done_wait_stuck.
Qed.

(** C35: when [fopen] fails (sender.c lines 49-53) the sender returns 1
    without any clean-up: both semaphores stay, and so does a message
    queue it created. *)
Theorem fopen_failure_leaks argv1 argv2 fs key cs k :
  fs !! argv2 = None →
  ∃ k1 o, sender_setup argv1 argv2 fs key cs k = (inl 1%Z, k1, o) ∧
    is_Some (k_sems k1 !! SEM_SENDER) ∧ is_Some (k_sems k1 !! SEM_RECEIVER) ∧
    (atoi argv1 = 1%Z →
     MQ_NAME ∈ k_queues (k_mq k) ∨ size (k_queues (k_mq k)) < k_queue_max (k_mq k) →
     MQ_NAME ∈ k_queues (k_mq k1)).
Proof.
  intros Hfs. unfold sender_setup. rewrite main_setup_open.
  destruct (open_mailbox key cs (mkMailbox (atoi argv1) (c_junk cs)) (opened k)) as [[r k1] o] eqn:E.
  exists k1, o. split.
  - destruct r as [c|mb]; [by rewrite (open_mailbox_status _ _ _ _ _ _ _ E) | by rewrite Hfs].
  - rewrite (open_mailbox_sems _ _ _ _ _ _ _ E). split; [apply opened_present|].
    split; [apply opened_present|]. intros Hf Hroom.
    apply (open_mailbox_mq_room key cs (mkMailbox (atoi argv1) (c_junk cs)) (opened k) r k1 o Hf);
      [by rewrite opened_mq | exact E].
Qed.

(** C33: the union aliasing of receiver.h lines 18-21: [shmat]'s address
    overwrites the segment id in [storage] (line 44), so the tear-downs'
    [shmctl(storage.mqd, IPC_RMID)] (sender.c line 81, receiver.c line
    71) get the low 32 bits of an address instead of the id.  Attach
    addresses are page-aligned, so whenever the id is not a multiple of
    4096 the segment of a shared-memory session outlives both
    processes. *)
Theorem shm_segment_leaks argv1 argv2 fs key cs cr k mbs mbr file k1 st :
  shm_wf (k_shm k) → atoi argv1 = 2%Z →
  session_start argv1 argv2 fs key cs cr k = Some (mbs, mbr, file, k1) →
  (c_addr cs mod 4096 = 0)%Z → (c_addr cr mod 4096 = 0)%Z →
  (fst (shmget key (k_shm k)) mod 4096 ≠ 0)%Z →
  fst (shmget key (k_shm k)) ∈ k_segs (k_shm (session_end mbs mbr st k1)).
Proof.
  intros Hwf Hf Hss H1 H2 Hid.
  destruct (session_start_steps _ _ _ _ _ _ _ _ _ _ _ Hss) as (k0 & o0 & o1 & E0 & E1 & _).
  destruct (open_mailbox_shm key cs (mkMailbox (atoi argv1) (c_junk cs)) _ _ _ _ Hf E0) as (G0 & N0 & ->).
  destruct (open_mailbox_shm key cr (mkMailbox (atoi argv1) (c_junk cr)) _ _ _ _ Hf E1) as (G1 & _ & ->).
  rewrite opened_shm in G0, G1, N0.
  destruct (shmget_spec _ _ _ _ Hwf G0) as [_ [[Hin Hkey] | [? _]]]; [|done].
  rewrite (shmget_again _ _ _ Hkey) in G1. injection G1 as G1.
  unfold session_end.
  rewrite (proj2 (teardown_shm (set_shm_addr (c_addr cr) (set_mqd _ (mkMailbox (atoi argv1) (c_junk cr))))
                               _ Hf)).
  rewrite (proj1 (teardown_shm (set_shm_addr (c_addr cs) (set_mqd _ (mkMailbox (atoi argv1) (c_junk cs))))
                               _ Hf)), !get_mqd_set_shm_addr.
  cbn [sync_sems with_sems k_shm]. rewrite <- G1.
  assert (Hne : ∀ a, (a mod 4096 = 0)%Z → to_int32 a ≠ fst (shmget key (k_shm k)))
    by (intros a Ha E; apply Hid; rewrite <- E; by apply to_int32_page).
  apply shmctl_other; [apply shmctl_other; [exact Hin | by apply Hne] | by apply Hne].
Qed.

(** C34: both programs create the queue "/mymq" (line 31) but unlink
    "/my_mq" (sender.c line 78, receiver.c line 68): after a
    message-queue session both have cleaned up and the queue is still
    there. *)
Theorem mq_queue_leaks argv1 argv2 fs key cs cr k mbs mbr file k1 st :
  atoi argv1 = 1%Z → session_start argv1 argv2 fs key cs cr k = Some (mbs, mbr, file, k1) →
  MQ_NAME ∈ k_queues (k_mq (session_end mbs mbr st k1)).
Proof.
  intros Hf Hss. destruct (session_start_steps _ _ _ _ _ _ _ _ _ _ _ Hss) as (k0 & o0 & o1 & _ & E1 & _).
  destruct (open_mailbox_mq key cr (mkMailbox (atoi argv1) (c_junk cr)) _ _ _ _ Hf E1) as [Hin _].
  unfold session_end. apply teardown_mq, teardown_mq. exact Hin.
Qed.

(** ** Concrete sessions *)

(** A fresh kernel: no segment, no queue, no semaphore; Linux's default
    limits (SHMMNI 4096, [queues_max] 256) and first segment id. *)
Definition demo_kernel : kernel := mkKernel (mkShm ∅ ∅ 32769 4096) (mkMq ∅ 256) ∅.
Definition demo_fs : gmap string string := {[ "input.txt" := demo_file ]}.
(** [ftok("input.txt", 14)] for some inode, descriptor 3 for [mq_open],
    page-aligned [shmat] addresses. *)
Definition demo_key : Z := 234881025.
Definition sender_choices : choices := mkChoices 3 139887403577344 0.
Definition receiver_choices : choices := mkChoices 3 139887403573248 0.

(** Name the set-up's results of a concrete session. *)
Ltac start_session E :=
  lazymatch goal with
  | |- context [match session_start ?a ?b ?c ?d ?e ?g ?h with _ => _ end] =>
      let E' := fresh in
      destruct (session_start a b c d e g h) as [[[[? ?] ?] ?]|] eqn:E;
      [pose proof E as E'; vm_compute in E'; injection E' as _ _ <- _ | vm_compute in E; discriminate]
  end.

Lemma session_delivers_witness :
  match session_start "1" "input.txt" demo_fs demo_key sender_choices receiver_choices demo_kernel with
  | Some (mbs, mbr, file, k1) =>
      ∀ st, star (ipc_step 1) (protocol_start file k1) st → (∀ st', ¬ ipc_step 1 st st') →
        out_r st = render (file_messages file) +:+ exit_banner ∧
        k_sems (session_end mbs mbr st k1) = ∅
  | None => False
  end.
Proof.
  start_session E.
  exact (proj2 (proj2 (session_delivers "1" "input.txt" demo_fs demo_key sender_choices receiver_choices
                        demo_kernel _ _ _ _ (or_introl eq_refl) eq_refl eq_refl demo_file_ok E))).
Defined.

Lemma stale_semaphores_block_witness :
  let st0 := mkIpc (SSend ("hi" +:+ String newline EmptyString) ["yo" +:+ String newline EmptyString])
                   RWait 0 0 (mkChan [] EmptyString) (mkMessage EmptyString) EmptyString EmptyString in
  match session_start "2" "input.txt" demo_fs demo_key sender_choices receiver_choices
          (sync_sems st0 demo_kernel) with
  | Some (mbs, mbr, file, k1) =>
      ∀ st, star (ipc_step 2) (protocol_start file k1) st →
        rp st = RWait ∧ out_r st = EmptyString ∧ ch st = mkChan [] EmptyString
  | None => False
  end.
Proof.
  intros st0. start_session E.
  exact (stale_semaphores_block 2 demo_file st0 demo_kernel "2" "input.txt" demo_fs demo_key
           sender_choices receiver_choices _ _ _ _ (or_intror eq_refl) demo_file_ok
           (star_one _ _ _ (or_introl (s_wait 2 _ _ _ _ _ _ _ _ _))) eq_refl E).
Defined.

Lemma unknown_flag_receiver_hangs_witness :
  match session_start "3" "input.txt" demo_fs demo_key sender_choices receiver_choices demo_kernel with
  | Some (mbs, mbr, file, k1) =>
      ∃ st, star (ipc_step 3) (protocol_start file k1) st ∧ sp st = SDone ∧
            rp st = RWait ∧ ∀ st', ¬ ipc_step 3 st st'
  | None => False
  end.
Proof.
  start_session E.
  exact (proj2 (unknown_flag_receiver_hangs "3" "input.txt" demo_fs demo_key sender_choices
                  receiver_choices demo_kernel _ _ _ _ ltac:(discriminate) ltac:(discriminate)
                  eq_refl eq_refl E)).
Defined.

Lemma fopen_failure_leaks_witness :
  ∃ k1 o, sender_setup "1" "missing.txt" demo_fs demo_key sender_choices demo_kernel = (inl 1%Z, k1, o) ∧
    is_Some (k_sems k1 !! SEM_SENDER) ∧ is_Some (k_sems k1 !! SEM_RECEIVER) ∧
    (atoi "1" = 1%Z →
     MQ_NAME ∈ k_queues (k_mq demo_kernel) ∨ size (k_queues (k_mq demo_kernel)) < k_queue_max (k_mq demo_kernel) →
     MQ_NAME ∈ k_queues (k_mq k1)).
Proof. exact (fopen_failure_leaks "1" "missing.txt" demo_fs demo_key sender_choices demo_kernel eq_refl). Defined.

Lemma shm_segment_leaks_witness :
  match session_start "2" "input.txt" demo_fs demo_key sender_choices receiver_choices demo_kernel with
  | Some (mbs, mbr, file, k1) => 32769%Z ∈ k_segs (k_shm (session_end mbs mbr (ipc_init file) k1))
  | None => False
  end.
Proof.
  assert (Hwf : shm_wf (k_shm demo_kernel)).
  { split; [intros ? ? H; cbn in H; by rewrite lookup_empty in H|]. split; [set_solver|].
    intros id H. set_solver. }
  start_session E.
  exact (shm_segment_leaks "2" "input.txt" demo_fs demo_key sender_choices receiver_choices demo_kernel
           _ _ _ _ _ Hwf eq_refl E eq_refl eq_refl ltac:(discriminate)).
Defined.

Lemma mq_queue_leaks_witness :
  match session_start "1" "input.txt" demo_fs demo_key sender_choices receiver_choices demo_kernel with
  | Some (mbs, mbr, file, k1) => MQ_NAME ∈ k_queues (k_mq (session_end mbs mbr (ipc_init file) k1))
  | None => False
  end.
Proof.
  start_session E.
  exact (mq_queue_leaks "1" "input.txt" demo_fs demo_key sender_choices receiver_choices demo_kernel
           _ _ _ _ _ eq_refl E).
Defined.

End IpcMain.
