(* ===== verification/IpcFgets.v ===== *)
(** * The sender's reading loop against the contract of [fgets]

    [fgets(buf, n, fp)] reads at most [n - 1] characters, stops after a
    newline (which it keeps) and returns NULL only at end of file with
    nothing read.  [fgets_split file ms] states that contract for the loop
    of sender.c line 56 as a relation between the file and the chunks:
    each chunk is a line of fewer than 99 characters with its newline, or
    99 characters without one, or a last piece without a newline at end of
    file.  [Ipc.file_messages] computes exactly the chunks the relation
    allows, and they are the only ones: the loop is the unique cutting of
    the file that [fgets] permits. *)

From S2P Require Import Prelude Ipc.
From stdpp Require Import base strings list.
From Stdlib Require Import Lia Ascii.

Module IpcFgets.
Import Ipc.

(** No newline in [s]. *)
Fixpoint no_nl (s : string) : bool :=
  match s with
  | EmptyString => true
  | String c s' => negb (Ascii.eqb c newline) && no_nl s'
  end.

(** The cuttings of a file that successive [fgets(message.text, 100, fp)]
    calls may produce until NULL. *)
Inductive fgets_split : string → list string → Prop :=
| fs_eof : fgets_split EmptyString []
| fs_line body rest ms :
    no_nl body = true → String.length body < TEXT_SIZE - 1 → fgets_split rest ms →
    fgets_split (body +:+ String newline rest) ((body +:+ String newline EmptyString) :: ms)
| fs_full m rest ms :
    no_nl m = true → String.length m = TEXT_SIZE - 1 → fgets_split rest ms →
    fgets_split (m +:+ rest) (m :: ms)
| fs_last m :
    no_nl m = true → 0 < String.length m < TEXT_SIZE - 1 → fgets_split m [m].

(** ** What one [fgets] returns *)

Lemma take_line_shape k s l r :
  take_line k s = (l, r) →
  (∃ body, no_nl body = true ∧ String.length body < k ∧ l = body +:+ String newline EmptyString ∧
           s = body +:+ String newline r) ∨
  (no_nl l = true ∧ String.length l = k ∧ s = l +:+ r) ∨
  (no_nl l = true ∧ String.length l < k ∧ r = EmptyString ∧ s = l).
Proof.
  revert k l r. induction s as [|c s IH]; intros [|k] l r H; simpl in H.
  - injection H as <- <-. right; left. done.
  - injection H as <- <-. right; right. simpl. split; [done|]. split; [lia | done].
  - injection H as <- <-. right; left. done.
  - destruct (Ascii.eqb c newline) eqn:Ec.
    + injection H as <- <-. apply Ascii.eqb_eq in Ec as ->. left.
      exists EmptyString. simpl. split; [done|]. split; [lia | done].
    + destruct (take_line k s) as [l' r'] eqn:E. injection H as <- <-.
      destruct (IH _ _ _ E) as [(body & Hb & Hlen & -> & ->) | [(Hb & Hlen & ->) | (Hb & Hlen & -> & ->)]].
      * left. exists (String c body). simpl. rewrite Ec, Hb. split; [done|]. split; [lia | done].
      * right; left. simpl. rewrite Ec, Hb. split; [done | split; [lia | done]].
      * right; right. simpl. rewrite Ec, Hb. split; [done | split; [lia | done]].
Qed.

Lemma take_line_line k body rest :
  no_nl body = true → String.length body < k →
  take_line k (body +:+ String newline rest) = (body +:+ String newline EmptyString, rest).
Proof.
  revert k. induction body as [|c body IH]; intros [|k] Hb Hlen; simpl in *; try lia.
  - done.
  - apply andb_prop in Hb as [Hc Hb]. apply negb_true_iff in Hc. rewrite Hc.
    rewrite (IH k Hb ltac:(lia)). done.
Qed.

Lemma take_line_full m rest :
  no_nl m = true → take_line (String.length m) (m +:+ rest) = (m, rest).
Proof.
  induction m as [|c m IH]; intros Hb; simpl; [by destruct rest|].
  apply andb_prop in Hb as [Hc Hb]. apply negb_true_iff in Hc. rewrite Hc, (IH Hb). done.
Qed.

Lemma take_line_last k m :
  no_nl m = true → String.length m ≤ k → take_line k m = (m, EmptyString).
Proof.
  revert k. induction m as [|c m IH]; intros [|k] Hb Hlen; simpl in *; try done; try lia.
  apply andb_prop in Hb as [Hc Hb]. apply negb_true_iff in Hc. rewrite Hc, (IH k Hb ltac:(lia)). done.
Qed.

Lemma fgets_all_cons f s :
  s ≠ EmptyString →
  fgets_all (S f) s = let '(l, r) := take_line (TEXT_SIZE - 1) s in l :: fgets_all f r.
Proof. by destruct s. Qed.

(** ** The loop meets the contract, and nothing else does *)

Lemma fgets_all_split f s : String.length s ≤ f → fgets_split s (fgets_all f s).
Proof.
  revert s. induction f as [|f IH]; intros s Hs.
  - destruct s; simpl in *; [constructor | lia].
  - destruct s as [|c s']; [constructor|]. rewrite fgets_all_cons by done.
    destruct (take_line (TEXT_SIZE - 1) (String c s')) as [l r] eqn:E.
    destruct (take_line_shape _ _ _ _ E)
      as [(body & Hb & Hlen & -> & Hs') | [(Hb & Hlen & Hs') | (Hb & Hlen & -> & Hs')]];
      rewrite Hs' in Hs |- *.
    + constructor; [done | done|]. apply IH.
      rewrite string_app_length in Hs. simpl in Hs. lia.
    + constructor; [done | done|]. apply IH.
      rewrite string_app_length in Hs. unfold TEXT_SIZE in Hlen. lia.
    + destruct f; simpl; apply fs_last; [done | | done |].
      all: split; [destruct l; [done | simpl; lia] | done].
Qed.

Lemma split_fgets_all s ms : fgets_split s ms → ∀ f, String.length s ≤ f → fgets_all f s = ms.
Proof.
  induction 1 as [|body rest ms Hb Hlen _ IH|m rest ms Hb Hlen _ IH|m Hb Hlen]; intros f Hf.
  - by destruct f.
  - rewrite string_app_length in Hf. simpl in Hf. destruct f as [|f]; [lia|].
    rewrite fgets_all_cons by (by destruct body).
    rewrite take_line_line by done. f_equal. apply IH. lia.
  - rewrite string_app_length in Hf. destruct f as [|f]; [unfold TEXT_SIZE in Hlen; lia|].
    rewrite fgets_all_cons by (destruct m; [simpl in Hlen; unfold TEXT_SIZE in Hlen; lia | done]).
    rewrite <- Hlen, take_line_full by done. f_equal. apply IH. unfold TEXT_SIZE in Hlen. lia.
  - destruct f as [|f]; [lia|].
    rewrite fgets_all_cons by (intros ->; simpl in Hlen; lia).
    rewrite take_line_last by (done || lia). by destruct f.
Qed.

(** C37: the reading loop of sender.c line 56 is exactly what the
    contract of [fgets(message.text, 100, fp)] allows: [file_messages
    file] is a cutting of the file into lines of fewer than 99 characters
    with their newline, pieces of 99 characters without one, and a last
    piece without a newline; and it is the only such cutting. *)
Theorem file_messages_spec (file : string) (ms : list string) :
  file_messages file = ms ↔ fgets_split file ms.
Proof.
  split.
  - intros <-. by apply fgets_all_split.
  - intros H. by apply (split_fgets_all _ _ H).
Qed.

End IpcFgets.
